(** * The Palo Alto firewall generator of capirca ([capirca/lib/paloaltofw.py])

    A shallow embedding of the generator: the service registry
    ([Service]), the rule option map ([Rule.ModifyOptions]), the translation
    pass ([PaloAltoFW._TranslatePolicy]), the address book
    ([PaloAltoFW._BuildAddressBook]) and the renderer ([PaloAltoFW.__str__]),
    followed by the properties of the specification that were checked
    against them.

    Python objects are modelled by value.  A [dict] (insertion ordered) is an
    association list whose keys are kept unique by [dict_set]; a [set] of
    strings is a duplicate-free list; an exception is a value of [Error]
    returned next to the state as it was when the exception was raised. *)

From Stdlib Require Import String Ascii List ZArith Bool Arith Lia Sorted.
From Stdlib Require Import Decimal DecimalString DecimalNat DecimalN.
From Stdlib Require HexadecimalString DecimalPos DecimalZ.
Import ListNotations.
Open Scope string_scope.
Open Scope list_scope.

(** ** Python built-ins used by the generator *)

Module Py.

(** [str(n)] for a non-negative [int]. *)
Definition str_nat (n : nat) : string :=
  NilZero.string_of_uint (Nat.to_uint n).

(** [str(z)] / ["%d" % z] for an [int]. *)
Definition str_int (z : Z) : string :=
  NilZero.string_of_int (Z.to_int z).

(** The blanks [int] strips from a literal: tab to carriage return and
    the space, and of the other characters up to code point 255 the two
    that [str.isspace] knows, NEL and the no-break space. *)
Definition is_space (c : ascii) : bool :=
  let n := nat_of_ascii c in
  (Nat.leb 9 n && Nat.leb n 13) || Nat.eqb n 32 || Nat.eqb n 133
  || Nat.eqb n 160.

(** The value of a decimal digit; no character up to code point 255 other
    than ['0'] to ['9'] is one. *)
Definition digit (c : ascii) : option Z :=
  let n := nat_of_ascii c in
  if Nat.leb 48 n && Nat.leb n 57 then Some (Z.of_nat (n - 48)) else None.

(** Where the reading of a literal stands: in the blanks before it, after
    its sign, after a digit, after an underscore, in the blanks after
    it. *)
Inductive int_state : Type :=
| Leading
| Sign (negative : bool)
| Digits (negative : bool) (n : Z)
| Underscore (negative : bool) (n : Z)
| Trailing (negative : bool) (n : Z).

Definition int_step (st : int_state) (c : ascii) : option int_state :=
  match st with
  | Leading =>
      if is_space c then Some Leading
      else if Ascii.eqb c "+" then Some (Sign false)
      else if Ascii.eqb c "-" then Some (Sign true)
      else option_map (Digits false) (digit c)
  | Sign negative => option_map (Digits negative) (digit c)
  | Digits negative n =>
      match digit c with
      | Some d => Some (Digits negative (10 * n + d)%Z)
      | None =>
          if Ascii.eqb c "_" then Some (Underscore negative n)
          else if is_space c then Some (Trailing negative n)
          else None
      end
  | Underscore negative n =>
      option_map (fun d => Digits negative (10 * n + d)%Z) (digit c)
  | Trailing negative n =>
      if is_space c then Some (Trailing negative n) else None
  end.

Fixpoint int_from (st : int_state) (s : string) : option Z :=
  match s with
  | EmptyString =>
      match st with
      | Digits negative n | Trailing negative n =>
          Some (if negative then Z.opp n else n)
      | _ => None
      end
  | String c s' =>
      match int_step st c with
      | Some st' => int_from st' s'
      | None => None
      end
  end.

(** [int(s)] for a string, in base 10; [None] stands for [ValueError].
    A literal is blanks, an optional sign, decimal digits that single
    underscores may separate, and blanks.  A character of a string stands
    for the Python character of the same code point, 0 to 255; the
    characters above, among them the other decimal digits of Unicode that
    [int] reads, have no counterpart here.  Integers are unbounded as in
    Python; the cap an interpreter may be configured to put on the digits
    of a conversion ([sys.set_int_max_str_digits]) is left out, here and
    in [str_int]. *)
Definition int_ (s : string) : option Z := int_from Leading s.

(** [x in l] for a list (or set) of strings. *)
Definition str_in (x : string) (l : list string) : bool :=
  existsb (String.eqb x) l.

(** [sep.join(l)]. *)
Definition join (sep : string) (l : list string) : string :=
  String.concat sep l.

(** [s.split(c)] for a one-character separator: never empty. *)
Fixpoint split (c : ascii) (s : string) : list string :=
  match s with
  | EmptyString => [EmptyString]
  | String a s' =>
      if Ascii.eqb a c then EmptyString :: split c s'
      else match split c s' with
           | [] => [String a EmptyString]
           | w :: ws => String a w :: ws
           end
  end.

(** [s * n] for a string. *)
Fixpoint repeat_str (s : string) (n : nat) : string :=
  match n with
  | O => EmptyString
  | S n' => s ++ repeat_str s n'
  end.

(** [s[:n]]. *)
Definition take (n : nat) (s : string) : string := substring 0 n s.

Section Sorted.
Context {A : Type} (le : A -> A -> bool).

Fixpoint insert_sorted (x : A) (l : list A) : list A :=
  match l with
  | [] => [x]
  | y :: l' => if le x y then x :: y :: l' else y :: insert_sorted x l'
  end.

(** [sorted(l)], stable like Python's. *)
Definition sorted (l : list A) : list A :=
  fold_right insert_sorted [] l.
End Sorted.

(** [set.add] on a set kept as a duplicate-free list. *)
Definition set_add (x : string) (s : list string) : list string :=
  if str_in x s then s else s ++ [x].

(** [set(l)]. *)
Definition set_of (l : list string) : list string :=
  fold_left (fun s x => set_add x s) l [].

(** Insertion-ordered dictionaries. *)
Section Dict.
Context {K V : Type} (eqb : K -> K -> bool).

Fixpoint dict_get (k : K) (d : list (K * V)) : option V :=
  match d with
  | [] => None
  | (k', v) :: d' => if eqb k k' then Some v else dict_get k d'
  end.

Definition dict_mem (k : K) (d : list (K * V)) : bool :=
  match dict_get k d with Some _ => true | None => false end.

(** [d[k] = v]: an existing key keeps its place. *)
Fixpoint dict_set (k : K) (v : V) (d : list (K * V)) : list (K * V) :=
  match d with
  | [] => [(k, v)]
  | (k', v') :: d' =>
      if eqb k k' then (k', v) :: d' else (k', v') :: dict_set k v d'
  end.

Definition keys (d : list (K * V)) : list K := map fst d.
End Dict.

End Py.

(** The double quote of the rendered attributes. *)
Definition dq : string := String (ascii_of_nat 34) EmptyString.

(** ** Exceptions

    The generator's own exception classes, [aclgenerator]'s
    [TermNameTooLongError], and the built-in exceptions its expressions can
    raise. *)

Inductive Error : Type :=
| UnsupportedFilterError (msg : string)
| UnsupportedHeaderError (filter_type : string)
| PaloAltoFWDuplicateTermError (term_name : string)
| PaloAltoFWUnsupportedProtocolError (proto_name : string)
| PaloAltoFWOptionError
| PaloAltoFWDuplicateServiceError (what : string)
| PaloAltoFWNameTooLongError (service_name : string)
| PaloAltoFWBadIcmpTypeError (term_name icmp_type : string)
| TermNameTooLongError (term_name : string)
| KeyError (key : string)
| IndexError (what : string)
| TypeError (what : string)
| ValueError (what : string)
| OverflowError.

(** ** Network objects

    The generator receives addresses as [nacaddr] objects and only uses the
    four operations below. *)

Inductive IPVersion : Type := V4 | V6.

Definition version_eqb (a b : IPVersion) : bool :=
  match a, b with
  | V4, V4 | V6, V6 => true
  | _, _ => false
  end.

(** The [int] an address reports as [addr.version]. *)
Definition version_number (v : IPVersion) : Z :=
  match v with V4 => 4 | V6 => 6 end.

Class NetworkObject (IP : Type) : Type := {
  version : IP -> IPVersion;
  parent_token : IP -> string;
  str : IP -> string;
  supernet_of : IP -> IP -> bool
}.

(** ** Results

    [Raise e] is a raised exception.  The state a raising operation leaves
    behind is returned next to it by the operations that mutate objects. *)

Inductive result (A : Type) : Type :=
| Ok (a : A)
| Raise (e : Error).
Arguments Ok {A} a.
Arguments Raise {A} e.

(** ** Dates ([datetime])

    A [datetime.date] is modelled by its proleptic Gregorian ordinal
    ([date.toordinal()]): day 1 is 0001-01-01 and day [_MAXORDINAL] is
    9999-12-31.  A [timedelta] is its number of days.  The message of an
    [OverflowError] is not modelled. *)

Module datetime.

Definition _MAXORDINAL : Z := 3652059.

(** [datetime.timedelta(weeks=w)] for an [int]: the days are of magnitude
    999999999 at most. *)
Definition timedelta_weeks (w : Z) : result Z :=
  if Z.leb (Z.abs (7 * w)) 999999999 then Ok (7 * w)%Z
  else Raise OverflowError.

(** [date + timedelta]: the result is a date again. *)
Definition date_add (d days : Z) : result Z :=
  let o := (d + days)%Z in
  if Z.ltb 0 o && Z.leb o _MAXORDINAL then Ok o else Raise OverflowError.

End datetime.

(** ** The policy objects handed to the generator ([capirca.lib.policy]) *)

Module policy.

(** A parsed term.  Dates are day ordinals; [logging] holds the [value]
    of each logging directive; a destination port is a [(low, high)]
    tuple. *)
Record Term (IP : Type) : Type := {
  name : string;
  comment : list string;
  source_address : list IP;
  source_address_exclude : list IP;
  destination_address : list IP;
  destination_address_exclude : list IP;
  protocol : list string;
  source_port : list (Z * Z);
  destination_port : list (Z * Z);
  pan_application : list string;
  icmp_type : list string;
  action : list string;
  option_ : list string;
  logging : list string;
  expiration : option Z;
  stateless_reply : bool;
  owner : option string;
  platform : list string;
  timeout : option Z;
  translated : bool
}.
Arguments name {IP} _.
Arguments comment {IP} _.
Arguments source_address {IP} _.
Arguments source_address_exclude {IP} _.
Arguments destination_address {IP} _.
Arguments destination_address_exclude {IP} _.
Arguments protocol {IP} _.
Arguments source_port {IP} _.
Arguments destination_port {IP} _.
Arguments pan_application {IP} _.
Arguments icmp_type {IP} _.
Arguments action {IP} _.
Arguments option_ {IP} _.
Arguments logging {IP} _.
Arguments expiration {IP} _.
Arguments stateless_reply {IP} _.
Arguments owner {IP} _.
Arguments platform {IP} _.
Arguments timeout {IP} _.
Arguments translated {IP} _.

Section Assign.
Context {IP : Type}.

(** [term.name = n] *)
Definition set_name (n : string) (t : Term IP) : Term IP :=
  Build_Term IP n (comment t) (source_address t)
    (source_address_exclude t) (destination_address t)
    (destination_address_exclude t) (protocol t) (source_port t)
    (destination_port t) (pan_application t) (icmp_type t) (action t)
    (option_ t) (logging t) (expiration t) (stateless_reply t) (owner t)
    (platform t) (timeout t) (translated t).

(** [term.source_address = l] *)
Definition set_source_address (l : list IP) (t : Term IP) : Term IP :=
  Build_Term IP (name t) (comment t) l
    (source_address_exclude t) (destination_address t)
    (destination_address_exclude t) (protocol t) (source_port t)
    (destination_port t) (pan_application t) (icmp_type t) (action t)
    (option_ t) (logging t) (expiration t) (stateless_reply t) (owner t)
    (platform t) (timeout t) (translated t).

(** [term.destination_address = l] *)
Definition set_destination_address (l : list IP) (t : Term IP) : Term IP :=
  Build_Term IP (name t) (comment t) (source_address t)
    (source_address_exclude t) l
    (destination_address_exclude t) (protocol t) (source_port t)
    (destination_port t) (pan_application t) (icmp_type t) (action t)
    (option_ t) (logging t) (expiration t) (stateless_reply t) (owner t)
    (platform t) (timeout t) (translated t).

(** [term.pan_application.append(a)] *)
Definition append_pan_application (a : string) (t : Term IP) : Term IP :=
  Build_Term IP (name t) (comment t) (source_address t)
    (source_address_exclude t) (destination_address t)
    (destination_address_exclude t) (protocol t) (source_port t)
    (destination_port t) (pan_application t ++ [a]) (icmp_type t)
    (action t) (option_ t) (logging t) (expiration t) (stateless_reply t)
    (owner t) (platform t) (timeout t) (translated t).
End Assign.

(** A header: the platforms it targets and the options it gives each. *)
Record Header : Type := {
  platforms : list string;
  FilterOptions : string -> list string
}.

(** [pol.filters] *)
Definition Policy (IP : Type) : Type := list (Header * list (Term IP)).

End policy.

(** ** Collaborators outside the generator

    [FixTermLength] is inherited from [aclgenerator.ACLGenerator] and reads
    the class constant [_TERM_MAX_LENGTH], passed here as its first argument;
    it returns a name or, [None], raises [TermNameTooLongError].
    [RemoveAddressFromList] is [nacaddr.RemoveAddressFromList];
    [ICMP_TYPE] is the table [policy.Term.ICMP_TYPE], by address family. *)

Class Collaborators (IP : Type) : Type := {
  FixTermLength : nat -> string -> option string;
  RemoveAddressFromList : list IP -> IP -> list IP;
  ICMP_TYPE : IPVersion -> string -> option Z
}.

(** ** [class Service]: the registry of generated services *)

Module Service.

(** A key of [service_map]: [(ports, protocol)], [ports] a tuple of
    strings. *)
Definition key : Type := (list string * string)%type.

Fixpoint ports_eqb (a b : list string) : bool :=
  match a, b with
  | [], [] => true
  | x :: a', y :: b' => String.eqb x y && ports_eqb a' b'
  | _, _ => false
  end.

Definition key_eqb (a b : key) : bool :=
  ports_eqb (fst a) (fst b) && String.eqb (snd a) (snd b).

(** [Service.service_map], a class attribute shared by every instance and
    never reset.  The value [{"name": n}] is kept as [n]. *)
Definition service_map : Type := list (key * string).

Definition contains (k : key) (m : service_map) : bool :=
  Py.dict_mem key_eqb k m.

Definition lookup (k : key) (m : service_map) : option string :=
  Py.dict_get key_eqb k m.

Definition final_service_name (service_name protocol : string) : string :=
  "service-" ++ service_name ++ "-" ++ protocol.

(** [Service.__init__(ports, service_name, protocol)] *)
Definition __init__ (ports : list string) (service_name protocol : string)
    (m : service_map) : result service_map :=
  if contains (ports, protocol) m then
    Raise (PaloAltoFWDuplicateServiceError (Py.join "," ports))
  else
    let final := final_service_name service_name protocol in
    if existsb (fun kv => String.eqb (snd kv) final) m then
      Raise (PaloAltoFWDuplicateServiceError final)
    else if Nat.ltb 63 (String.length final) then
      Raise (PaloAltoFWNameTooLongError final)
    else
      Ok (Py.dict_set key_eqb (ports, protocol) final m).

End Service.

(** ** [class Term]: a policy term with the header's parameters *)

Module Term.

(** [Term.ACTIONS.get(a)] *)
Definition ACTIONS (a : string) : option string :=
  if String.eqb a "accept" then Some "allow"
  else if String.eqb a "deny" then Some "deny"
  else if String.eqb a "reject" then Some "reset-client"
  else if String.eqb a "reject-with-tcp-rst" then Some "reset-client"
  else None.

Record Term (IP : Type) : Type := {
  term : policy.Term IP;
  term_type : string;
  from_zone : string;
  to_zone : string;
  extra_actions : list string
}.
Arguments term {IP} _.
Arguments term_type {IP} _.
Arguments from_zone {IP} _.
Arguments to_zone {IP} _.
Arguments extra_actions {IP} _.

(** [Term.__init__(term, term_type, zones)]; [zones] has at least four
    items wherever the generator builds a [Term]. *)
Definition __init__ {IP : Type} (t : policy.Term IP) (term_type : string)
    (zones : list string) : Term IP :=
  Build_Term IP t term_type (nth 1 zones "") (nth 3 zones "") [].

End Term.

(** ** [class Rule]: the option map of one rule *)

Module Rule.

(** [Rule.options].  The keys ["action"] and ["option"] are only set for a
    term that has an action, resp. options. *)
Record options : Type := {
  from_zone : list string;
  to_zone : list string;
  description : list string;
  source : list string;
  destination : list string;
  application : list string;
  service : list string;
  logging : list string;
  action : option string;
  option_ : option (list string)
}.

(** Lines 191-201: the loop over [term.logging], [acc] being
    [self.options["logging"]]. *)
Fixpoint logging_options (items acc : list string) : list string :=
  match items with
  | [] => acc
  | item :: rest =>
      if Py.str_in item ["disable"] then ["disable"]
      else if Py.str_in item ["log-both"] then
        logging_options rest (acc ++ ["log-start"; "log-end"])
      else if Py.str_in item ["True"; "true"; "syslog"; "local"] then
        logging_options rest (acc ++ ["log-end"])
      else logging_options rest acc
  end.

(** Lines 203-223: the sorted set of parent tokens, or ["any"]. *)
Definition address_options {IP : Type} `{NetworkObject IP}
    (addresses : list IP) : list string :=
  match addresses with
  | [] => ["any"]
  | _ :: _ => Py.sorted String.leb (Py.set_of (map parent_token addresses))
  end.

(** Lines 237-243: the tuple of port strings of [term.destination_port]. *)
Definition port_strings (destination_port : list (Z * Z)) : list string :=
  map (fun tup =>
         if negb (Z.eqb (fst tup) (snd tup)) then
           (Py.str_int (fst tup) ++ "-" ++ Py.str_int (snd tup))%string
         else Py.str_int (fst tup))
      destination_port.

(** Lines 247-254: the body of [for p in term.protocol]: the name of the
    service of [(ports, p)], registered first if the registry lacks it. *)
Definition service_for (ports : list string) (term_name p : string)
    (m : Service.service_map) : Service.service_map * result string :=
  match Service.lookup (ports, p) m with
  | Some n => (m, Ok n)
  | None =>
      match Service.__init__ ports term_name p m with
      | Raise e => (m, Raise e)
      | Ok m' =>
          match Service.lookup (ports, p) m' with
          | Some n => (m', Ok n)
          | None => (m', Raise (KeyError p))
          end
      end
  end.

(** Lines 246-254: one service name per protocol of the term; [acc] is
    [self.options["service"]]. *)
Fixpoint service_options (ports : list string) (term_name : string)
    (protocols acc : list string) (m : Service.service_map)
    : Service.service_map * result (list string) :=
  match protocols with
  | [] => (m, Ok acc)
  | p :: rest =>
      match service_for ports term_name p m with
      | (m', Raise e) => (m', Raise e)
      | (m', Ok n) => service_options ports term_name rest (acc ++ [n]) m'
      end
  end.

(** Lines 256-268: applications derived from the protocols; [acc] is
    [self.options["application"]]. *)
Fixpoint protocol_applications (protocols acc : list string)
    : list string :=
  match protocols with
  | [] => acc
  | proto_name :: rest =>
      if Py.str_in proto_name ["icmp"; "icmpv6"] then
        protocol_applications rest acc
      else if Py.str_in proto_name ["igmp"; "sctp"] then
        protocol_applications rest
          (if Py.str_in proto_name acc then acc else acc ++ [proto_name])
      else if Py.str_in proto_name ["tcp"; "udp"] then
        protocol_applications rest
          (if Py.str_in "any" acc then acc else acc ++ ["any"])
      else protocol_applications rest acc
  end.

(** [Rule.ModifyOptions(terms)], on the options [Rule.__init__] has set
    the zones of.  The service registry is read and extended. *)
Definition ModifyOptions {IP : Type} `{NetworkObject IP}
    (from_zone to_zone : list string) (terms : Term.Term IP)
    (m : Service.service_map) : Service.service_map * result options :=
  let term := Term.term terms in
  let description := policy.comment term in
  let logging := logging_options (policy.logging term) [] in
  let source := address_options (policy.source_address term) in
  let destination := address_options (policy.destination_address term) in
  let action := hd_error (policy.action term) in
  let option_ :=
    match policy.option_ term with
    | [] => None
    | _ :: _ => Some (policy.option_ term)
    end in
  let application := policy.pan_application term in
  let '(m', service) :=
    match policy.destination_port term with
    | [] => (m, Ok [])
    | _ :: _ =>
        service_options (port_strings (policy.destination_port term))
          (policy.name term) (policy.protocol term) [] m
    end in
  match service with
  | Raise e => (m', Raise e)
  | Ok service =>
      (m', Ok (Build_options from_zone to_zone description source
                 destination
                 (protocol_applications (policy.protocol term) application)
                 service logging action option_))
  end.

(** [Rule.__init__(from_zone, to_zone, terms)], returning
    [self.options]. *)
Definition __init__ {IP : Type} `{NetworkObject IP}
    (from_zone to_zone : string) (terms : Term.Term IP)
    (m : Service.service_map) : Service.service_map * result options :=
  if String.eqb from_zone "" || String.eqb to_zone "" then
    (m, Raise PaloAltoFWOptionError)
  else ModifyOptions [from_zone] [to_zone] terms m.

End Rule.

(** ** [class PaloAltoFW]: the generator *)

Module PaloAltoFW.

Definition _PLATFORM : string := "paloalto".
Definition _SUPPORTED_AF : list string := ["inet"; "inet6"; "mixed"].
Definition _TERM_MAX_LENGTH : nat := 31.
Definition _SUPPORTED_PROTO_NAMES : list string :=
  ["tcp"; "udp"; "icmp"; "icmpv6"; "sctp"; "igmp"].
Definition _MAX_RULE_DESCRIPTION_LENGTH : nat := 1024.
Definition INDENT : string := "  ".

(** A custom application ([app_entry], lines 601-610); [default] maps the
    matcher keyword to the printed type code. *)
Record app_entry : Type := {
  category : string;
  subcategory : string;
  technology : string;
  description : string;
  default : list (string * string);
  risk : string
}.

(** The calls of [logging.warning] and [logging.info], by the line of the
    message, with the term name and the zones they print. *)
Inductive LogRecord : Type :=
| warning_stateless_reply (term from_zone to_zone : string)
| warning_established (term from_zone to_zone : string)
| warning_tcp_established (term from_zone to_zone : string)
| info_expires_soon (term from_zone to_zone : string)
| warning_expired (term from_zone to_zone : string)
| warning_references_icmpv6 (term from_zone to_zone : string)
| warning_references_icmp (term from_zone to_zone : string)
| warning_invalid_combinations (term from_zone to_zone : string)
    (flows : list string)
| warning_different_families (term from_zone to_zone : string)
| warning_rendered_without (term from_zone to_zone : string).

(** What became of a term in the loop of [_TranslatePolicy]: appended to
    [new_terms], skipped by a [continue], or an exception. *)
Inductive outcome : Type :=
| Emitted
| Dropped
| Rejected (e : Error).

Section Generator.
Context {IP : Type} `{NetworkObject IP} `{Collaborators IP}.

(** [self.addressbook]: zone -> parent token -> [(address, name)]. *)
Definition bucket : Type := list (IP * string).
Definition zonebook : Type := list (string * bucket).
Definition addressbook_t : Type := list (string * zonebook).

(** The rules of one header, by term name. *)
Definition ruleset_t : Type := list (string * Rule.options).

Record PaloAltoFW : Type := {
  pafw_policies : list (policy.Header * ruleset_t * list string);
  addressbook : addressbook_t;
  applications : list string;
  application_refs : list (string * app_entry);
  application_groups : list string;
  from_zone : string;
  to_zone : string
}.

(** The object as [__init__] leaves it before the translation. *)
Definition new : PaloAltoFW :=
  Build_PaloAltoFW [] [] [] [] [] "" "".

Definition set_zones (fz tz : string) (self : PaloAltoFW) : PaloAltoFW :=
  Build_PaloAltoFW (pafw_policies self) (addressbook self)
    (applications self) (application_refs self)
    (application_groups self) fz tz.

Definition set_addressbook (ab : addressbook_t) (self : PaloAltoFW)
    : PaloAltoFW :=
  Build_PaloAltoFW (pafw_policies self) ab (applications self)
    (application_refs self) (application_groups self) (from_zone self)
    (to_zone self).

(** [self.application_refs[n] = e; self.applications.append(n)] *)
Definition add_application (n : string) (e : app_entry)
    (self : PaloAltoFW) : PaloAltoFW :=
  Build_PaloAltoFW (pafw_policies self) (addressbook self)
    (applications self ++ [n])
    (Py.dict_set String.eqb n e (application_refs self))
    (application_groups self) (from_zone self) (to_zone self).

(** [self.pafw_policies.append(p)] *)
Definition append_policy (p : policy.Header * ruleset_t * list string)
    (self : PaloAltoFW) : PaloAltoFW :=
  Build_PaloAltoFW (pafw_policies self ++ [p]) (addressbook self)
    (applications self) (application_refs self)
    (application_groups self) (from_zone self) (to_zone self).

(** *** [_BuildAddressBook] (lines 639-656) *)

Definition get_bucket (token : string) (zb : zonebook) : bucket :=
  match Py.dict_get String.eqb token zb with
  | Some b => b
  | None => []
  end.

Definition get_zone (zone : string) (ab : addressbook_t) : zonebook :=
  match Py.dict_get String.eqb zone ab with
  | Some zb => zb
  | None => []
  end.

Definition _BuildAddressBook (zone : string) (address : IP)
    (ab : addressbook_t) : addressbook_t :=
  let ab :=
    if Py.dict_mem String.eqb zone ab then ab
    else Py.dict_set String.eqb zone [] ab in
  let zb := get_zone zone ab in
  let zb :=
    if Py.dict_mem String.eqb (parent_token address) zb then zb
    else Py.dict_set String.eqb (parent_token address) [] zb in
  let name := parent_token address in
  let b := get_bucket name zb in
  if existsb (fun ip => String.eqb (str address) (str (fst ip))) b then
    Py.dict_set String.eqb zone zb ab
  else
    let counter := length b in
    let name := (name ++ "_" ++ Py.str_nat counter)%string in
    Py.dict_set String.eqb zone
      (Py.dict_set String.eqb (parent_token address)
         (b ++ [(address, name)]) zb) ab.

(** *** The flows of a term (lines 436-479) *)

(** [afc[v]["src"]] or [afc[v]["dst"]] after the counting loops. *)
Definition afc (v : IPVersion) (addresses : list IP) : nat :=
  length (filter (fun addr => version_eqb (version addr) v) addresses).

Definition flow_dual (v : IPVersion) : string :=
  let d := Py.str_int (version_number v) in
  ("ip" ++ d ++ "-ip" ++ d)%string.
Definition flow_src_only (v : IPVersion) : string :=
  ("ip" ++ Py.str_int (version_number v) ++ "-src-only")%string.
Definition flow_dst_only (v : IPVersion) : string :=
  ("ip" ++ Py.str_int (version_number v) ++ "-dst-only")%string.
Definition flow_only (v : IPVersion) : string :=
  ("ip" ++ Py.str_int (version_number v) ++ "-only")%string.

(** One round of the loop [for v in [4, 6]]. *)
Definition flows_of_version (v : IPVersion) (src_any dst_any : bool)
    (src dst : nat) : list string :=
  if src_any && dst_any then [flow_dual v]
  else if (Nat.eqb src 0 && negb src_any)
          && (Nat.eqb dst 0 && negb dst_any) then []
  else if (Nat.ltb 0 src || src_any) && (Nat.ltb 0 dst || dst_any) then
    [flow_dual v]
  else if (Nat.ltb 0 src || src_any) && Nat.eqb dst 0 then
    [flow_src_only v; flow_only v]
  else if Nat.eqb src 0 && (Nat.ltb 0 dst || dst_any) then
    [flow_dst_only v; flow_only v]
  else [].

Definition is_empty {A : Type} (l : list A) : bool :=
  match l with [] => true | _ :: _ => false end.

Definition compute_flows (term : policy.Term IP) : list string :=
  let src_any := is_empty (policy.source_address term) in
  let dst_any := is_empty (policy.destination_address term) in
  flat_map
    (fun v =>
       flows_of_version v src_any dst_any
         (afc v (policy.source_address term))
         (afc v (policy.destination_address term)))
    [V4; V6].

(** *** The address-family gate (lines 481-535)

    [None] is a [continue]; otherwise [exclude_address_family].  The
    warnings are returned in both cases. *)
Definition address_family_gate (filter_type : string)
    (term : policy.Term IP) (flows : list string) (fz tz : string)
    : option (list IPVersion) * list LogRecord :=
  let n := policy.name term in
  if String.eqb filter_type "inet" then
    if Py.str_in "icmpv6" (policy.protocol term) then
      (None, [warning_references_icmpv6 n fz tz])
    else if negb (Py.str_in "ip4-ip4" flows) then
      (None, [warning_invalid_combinations n fz tz flows])
    else (Some [V6], [])
  else if String.eqb filter_type "inet6" then
    if Py.str_in "icmp" (policy.protocol term) then
      (None, [warning_references_icmp n fz tz])
    else if negb (Py.str_in "ip6-ip6" flows) then
      (None, [warning_invalid_combinations n fz tz flows])
    else (Some [V4], [])
  else if String.eqb filter_type "mixed" then
    if Py.str_in "ip4-ip4" flows && negb (Py.str_in "ip6-ip6" flows) then
      (Some [V6], [])
    else if Py.str_in "ip6-ip6" flows
            && negb (Py.str_in "ip4-ip4" flows) then
      (Some [V4], [])
    else if Py.str_in "ip4-ip4" flows && Py.str_in "ip6-ip6" flows then
      (Some [], [])
    else if Py.str_in "ip4-only" flows && Py.str_in "ip6-only" flows then
      (None, [warning_different_families n fz tz])
    else
      (Some (if Py.str_in "ip4-ip4" flows then [V6] else [V4]),
       [warning_rendered_without n fz tz])
  else (Some [], []).

(** Lines 537-545: one of the two loops that fill the address book. *)
Definition build_addresses (zone : string) (exclude : list IPVersion)
    (addresses : list IP) (ab : addressbook_t) : addressbook_t :=
  fold_left
    (fun ab addr =>
       if existsb (version_eqb (version addr)) exclude then ab
       else _BuildAddressBook zone addr ab)
    addresses ab.

(** *** ICMP applications (lines 547-614) *)

Definition has_icmp_protocol (term : policy.Term IP) : bool :=
  Py.str_in "icmp" (policy.protocol term)
  || Py.str_in "icmpv6" (policy.protocol term).

(** Lines 583-614: the loop over [term.icmp_type], for one
    [icmp_version]. *)
Fixpoint icmp_type_loop (icmp_version icmp_type_keyword : string)
    (risk_level : Z) (names : list string) (term : policy.Term IP)
    (self : PaloAltoFW) : policy.Term IP * PaloAltoFW * option Error :=
  match names with
  | [] => (term, self, None)
  | term_icmp_type_name :: rest =>
      let icmp_app_name :=
        if String.eqb icmp_version "icmp"
        then ("icmp-" ++ term_icmp_type_name)%string
        else ("icmp6-" ++ term_icmp_type_name)%string in
      let table :=
        if String.eqb icmp_version "icmp" then ICMP_TYPE V4
        else ICMP_TYPE V6 in
      match table term_icmp_type_name with
      | None =>
          (term, self,
           Some (PaloAltoFWBadIcmpTypeError (policy.name term)
                   term_icmp_type_name))
      | Some term_icmp_type =>
          if Py.dict_mem String.eqb icmp_app_name (application_refs self)
          then
            icmp_type_loop icmp_version icmp_type_keyword risk_level rest
              term self
          else
            let app_entry :=
              Build_app_entry "networking" "ip-protocol"
                "network-protocol" icmp_app_name
                [(icmp_type_keyword, Py.str_int term_icmp_type)]
                (Py.str_int risk_level) in
            let self := add_application icmp_app_name app_entry self in
            let term :=
              if Py.str_in icmp_app_name (policy.pan_application term)
              then term
              else policy.append_pan_application icmp_app_name term in
            icmp_type_loop icmp_version icmp_type_keyword risk_level rest
              term self
      end
  end.

(** Lines 558-614: the body of [for icmp_version in ["icmp", "icmpv6"]]
    after the [break] test. *)
Definition icmp_version_body (icmp_version filter_type : string)
    (flows : list string) (term : policy.Term IP) (self : PaloAltoFW)
    : policy.Term IP * PaloAltoFW * option Error :=
  if String.eqb icmp_version "icmp" && negb (Py.str_in "ip4-ip4" flows)
  then (term, self, None)
  else if String.eqb icmp_version "icmpv6"
          && negb (Py.str_in "ip6-ip6" flows)
  then (term, self, None)
  else if String.eqb icmp_version "icmp" then
    if String.eqb filter_type "inet6" then (term, self, None)
    else if is_empty (policy.icmp_type term) then
      (policy.append_pan_application "icmp" term, self, None)
    else
      icmp_type_loop icmp_version "ident-by-icmp-type" 4
        (policy.icmp_type term) term self
  else
    if String.eqb filter_type "inet" then (term, self, None)
    else if is_empty (policy.icmp_type term) then
      (policy.append_pan_application "ipv6-icmp" term, self, None)
    else
      icmp_type_loop icmp_version "ident-by-icmp6-type" 2
        (policy.icmp_type term) term self.

(** Lines 554-614: the loop over the two ICMP versions. *)
Fixpoint icmp_versions (versions : list string) (filter_type : string)
    (flows : list string) (term : policy.Term IP) (self : PaloAltoFW)
    : policy.Term IP * PaloAltoFW * option Error :=
  match versions with
  | [] => (term, self, None)
  | icmp_version :: rest =>
      if negb (has_icmp_protocol term) then (term, self, None)
      else
        match icmp_version_body icmp_version filter_type flows term self
        with
        | (term', self', Some e) => (term', self', Some e)
        | (term', self', None) =>
            icmp_versions rest filter_type flows term' self'
        end
  end.

(** Lines 616-621: the first protocol outside the supported ones. *)
Definition unsupported_protocol (term : policy.Term IP) : option string :=
  find (fun proto_name => negb (Py.str_in proto_name _SUPPORTED_PROTO_NAMES))
    (policy.protocol term).

(** *** The loop over the terms of a header (lines 388-627) *)

(** What the loop reads and writes besides the term itself. *)
Record loop_state : Type := {
  self : PaloAltoFW;
  log : list LogRecord;
  term_dup_check : list string;
  new_terms : list (Term.Term IP)
}.

Definition add_log (l : list LogRecord) (st : loop_state) : loop_state :=
  Build_loop_state (self st) (log st ++ l) (term_dup_check st)
    (new_terms st).

Definition add_dup_check (n : string) (st : loop_state) : loop_state :=
  Build_loop_state (self st) (log st) (Py.set_add n (term_dup_check st))
    (new_terms st).

Definition set_self (s : PaloAltoFW) (st : loop_state) : loop_state :=
  Build_loop_state s (log st) (term_dup_check st) (new_terms st).

Definition append_new_term (t : Term.Term IP) (st : loop_state)
    : loop_state :=
  Build_loop_state (self st) (log st) (term_dup_check st)
    (new_terms st ++ [t]).

(** Lines 392-409: the terms that are never rendered. *)
Definition skipped (term : policy.Term IP) (fz tz : string)
    : option LogRecord :=
  if policy.stateless_reply term then
    Some (warning_stateless_reply (policy.name term) fz tz)
  else if Py.str_in "established" (policy.option_ term) then
    Some (warning_established (policy.name term) fz tz)
  else if Py.str_in "tcp-established" (policy.option_ term) then
    Some (warning_tcp_established (policy.name term) fz tz)
  else None.

(** Lines 416-427: [None] when the term goes on, else the [continue]. *)
Definition expiration_check (term : policy.Term IP)
    (current_date exp_info_date : Z) (fz tz : string)
    : list LogRecord * bool :=
  match policy.expiration term with
  | None => ([], false)
  | Some e =>
      let l1 :=
        if Z.leb e exp_info_date
        then [info_expires_soon (policy.name term) fz tz] else [] in
      if Z.leb e current_date
      then (l1 ++ [warning_expired (policy.name term) fz tz], true)
      else (l1, false)
  end.

(** Lines 429-434: exclusion subtraction. *)
Definition subtract_excluded (term : policy.Term IP) : policy.Term IP :=
  let term :=
    policy.set_source_address
      (fold_left RemoveAddressFromList
         (policy.source_address_exclude term)
         (policy.source_address term)) term in
  policy.set_destination_address
    (fold_left RemoveAddressFromList
       (policy.destination_address_exclude term)
       (policy.destination_address term)) term.

(** Lines 429-627: a term that passed the name and expiration checks. *)
Definition resolve_term (filter_type : string)
    (filter_options : list string) (term : policy.Term IP)
    (st : loop_state) : policy.Term IP * loop_state * outcome :=
  let fz := from_zone (self st) in
  let tz := to_zone (self st) in
  let term := subtract_excluded term in
  let flows := compute_flows term in
  match address_family_gate filter_type term flows fz tz with
  | (None, w) => (term, add_log w st, Dropped)
  | (Some exclude_address_family, w) =>
      let st := add_log w st in
      let ab :=
        build_addresses tz exclude_address_family
          (policy.destination_address term)
          (build_addresses fz exclude_address_family
             (policy.source_address term) (addressbook (self st))) in
      let st := set_self (set_addressbook ab (self st)) st in
      if negb (is_empty (policy.icmp_type term))
         && negb (has_icmp_protocol term)
      then
        (term, st,
         Rejected (UnsupportedFilterError
           "Palo Alto Firewall filter must have ICMP or ICMPv6 protocol specified when using icmp_type keyword"))
      else
        match icmp_versions ["icmp"; "icmpv6"] filter_type flows term
                (self st) with
        | (term, s, Some e) => (term, set_self s st, Rejected e)
        | (term, s, None) =>
            let st := set_self s st in
            match unsupported_protocol term with
            | Some proto_name =>
                (term, st,
                 Rejected (PaloAltoFWUnsupportedProtocolError proto_name))
            | None =>
                let new_term :=
                  Term.__init__ term filter_type filter_options in
                (term, append_new_term new_term st, Emitted)
            end
        end
  end.

(** The body of [for term in terms]: the term as the iteration leaves
    it, the state, and what became of the term. *)
Definition translate_term (filter_type : string)
    (filter_options : list string) (current_date exp_info_date : Z)
    (term : policy.Term IP) (st : loop_state)
    : policy.Term IP * loop_state * outcome :=
  let fz := from_zone (self st) in
  let tz := to_zone (self st) in
  match skipped term fz tz with
  | Some w => (term, add_log [w] st, Dropped)
  | None =>
      match FixTermLength _TERM_MAX_LENGTH (policy.name term) with
      | None =>
          (term, st, Rejected (TermNameTooLongError (policy.name term)))
      | Some fixed =>
          let term := policy.set_name fixed term in
          if Py.str_in (policy.name term) (term_dup_check st) then
            (term, st,
             Rejected (PaloAltoFWDuplicateTermError (policy.name term)))
          else
            let st := add_dup_check (policy.name term) st in
            match expiration_check term current_date exp_info_date fz tz
            with
            | (w, true) => (term, add_log w st, Dropped)
            | (w, false) =>
                resolve_term filter_type filter_options term
                  (add_log w st)
            end
      end
  end.

(** [for term in terms]: the terms as the loop leaves them (an exception
    leaves the remaining ones untouched), the state, and the exception
    if one was raised. *)
Fixpoint translate_terms (filter_type : string)
    (filter_options : list string) (current_date exp_info_date : Z)
    (terms : list (policy.Term IP)) (st : loop_state)
    : list (policy.Term IP) * loop_state * option Error :=
  match terms with
  | [] => ([], st, None)
  | term :: rest =>
      match translate_term filter_type filter_options current_date
              exp_info_date term st with
      | (term', st', Rejected e) => (term' :: rest, st', Some e)
      | (term', st', _) =>
          match translate_terms filter_type filter_options current_date
                  exp_info_date rest st' with
          | (rest', st'', e) => (term' :: rest', st'', e)
          end
      end
  end.

(** Lines 631-635: one [Rule] per new term. *)
Fixpoint build_ruleset (fz tz : string)
    (new_terms : list (Term.Term IP)) (ruleset : ruleset_t)
    (m : Service.service_map)
    : ruleset_t * Service.service_map * option Error :=
  match new_terms with
  | [] => (ruleset, m, None)
  | term :: rest =>
      match Rule.__init__ fz tz term m with
      | (m', Raise e) => (ruleset, m', Some e)
      | (m', Ok options) =>
          build_ruleset fz tz rest
            (Py.dict_set String.eqb (policy.name (Term.term term))
               options ruleset) m'
      end
  end.

(** *** [_TranslatePolicy] (lines 337-637) *)

(** The generator, the class attribute [Service.service_map] and the
    messages logged so far. *)
Record State : Type := {
  fw : PaloAltoFW;
  service_map : Service.service_map;
  messages : list LogRecord
}.

(** The body of [for header, terms in pol.filters]. *)
Definition translate_header (current_date exp_info_date : Z)
    (header : policy.Header) (terms : list (policy.Term IP)) (st : State)
    : list (policy.Term IP) * State * option Error :=
  if negb (Py.str_in _PLATFORM (policy.platforms header)) then
    (terms, st, None)
  else
    let filter_options := policy.FilterOptions header _PLATFORM in
    if Nat.ltb (length filter_options) 4
       || negb (String.eqb (nth 0 filter_options "") "from-zone")
       || negb (String.eqb (nth 2 filter_options "") "to-zone")
    then
      (terms, st,
       Some (UnsupportedFilterError
         "Palo Alto Firewall filter arguments must specify from-zone and to-zone."))
    else
      let this :=
        set_zones (nth 1 filter_options "") (nth 3 filter_options "")
          (fw st) in
      let filter_type :=
        if Nat.ltb 4 (length filter_options)
        then nth 4 filter_options "" else "inet" in
      if negb (Py.str_in filter_type _SUPPORTED_AF) then
        (terms, Build_State this (service_map st) (messages st),
         Some (UnsupportedHeaderError filter_type))
      else
        match translate_terms filter_type filter_options current_date
                exp_info_date terms
                (Build_loop_state this (messages st) [] []) with
        | (terms', lst, Some e) =>
            (terms', Build_State (self lst) (service_map st) (log lst),
             Some e)
        | (terms', lst, None) =>
            match build_ruleset (from_zone (self lst))
                    (to_zone (self lst)) (new_terms lst) []
                    (service_map st) with
            | (_, m, Some e) =>
                (terms', Build_State (self lst) m (log lst), Some e)
            | (ruleset, m, None) =>
                (terms',
                 Build_State
                   (append_policy (header, ruleset, filter_options)
                      (self lst))
                   m (log lst),
                 None)
            end
        end.

(** [_TranslatePolicy(pol, exp_info)] run on day [current_date]: the
    policy as the pass leaves the caller's terms, the state, and the
    exception if one was raised. *)
Fixpoint translate_filters (current_date exp_info_date : Z)
    (filters : policy.Policy IP) (st : State)
    : policy.Policy IP * State * option Error :=
  match filters with
  | [] => ([], st, None)
  | (header, terms) :: rest =>
      match translate_header current_date exp_info_date header terms st
      with
      | (terms', st', Some e) => ((header, terms') :: rest, st', Some e)
      | (terms', st', None) =>
          match translate_filters current_date exp_info_date rest st'
          with
          | (rest', st'', e) => ((header, terms') :: rest', st'', e)
          end
      end
  end.

(** Line 357: [current_date + datetime.timedelta(weeks=exp_info)]. *)
Definition exp_info_date (current_date exp_info : Z) : result Z :=
  match datetime.timedelta_weeks exp_info with
  | Raise e => Raise e
  | Ok days => datetime.date_add current_date days
  end.

(** Lines 356-358: the date is computed before the first filter is read;
    when it overflows, nothing has been touched. *)
Definition _TranslatePolicy (pol : policy.Policy IP) (exp_info : Z)
    (current_date : Z) (st : State)
    : policy.Policy IP * State * option Error :=
  match exp_info_date current_date exp_info with
  | Raise e => (pol, st, Some e)
  | Ok d => translate_filters current_date d pol st
  end.

(** [PaloAltoFW(pol, exp_info)], the registry being [m] before. *)
Definition __init__ (pol : policy.Policy IP) (exp_info : Z)
    (current_date : Z) (m : Service.service_map)
    : policy.Policy IP * State * option Error :=
  _TranslatePolicy pol exp_info current_date (Build_State new m []).

(** *** [_BuildPort] (lines 677-692) *)

(** [_BuildPort(ports)]: a port for a pair of equal bounds, a range
    otherwise. *)
Definition _BuildPort (ports : list (Z * Z)) : list string :=
  map (fun i =>
         if Z.eqb (fst i) (snd i) then Py.str_int (fst i)
         else (Py.str_int (fst i) ++ "-" ++ Py.str_int (snd i))%string)
      ports.

(** *** [__str__] (lines 694-934) *)

(** [self.INDENT * n] *)
Definition ind (n : nat) : string := Py.repeat_str INDENT n.

(** [<member>x</member>] lines at depth 10. *)
Definition members (l : list string) : list string :=
  map (fun x => (ind 10 ++ "<member>" ++ x ++ "</member>")%string) l.

(** Lines 739-747. *)
Definition app_group_entries (self : PaloAltoFW) : list string :=
  match application_groups self with
  | [] => [(ind 5 ++ "<application-group/>")%string]
  | groups =>
      [(ind 5 ++ "<application-group>")%string]
      ++ map (fun g => (ind 6 ++ g)%string) groups
      ++ [(ind 5 ++ "</application-group>")%string]
  end.

(** Lines 760-764: one address of a bucket enters
    [address_book_names_dict]. *)
Definition names_step (names : list (string * IP)) (entry : IP * string)
    : list (string * IP) :=
  let '(address, name) := entry in
  match Py.dict_get String.eqb name names with
  | Some known =>
      if supernet_of known address then names
      else Py.dict_set String.eqb name address names
  | None => Py.dict_set String.eqb name address names
  end.

(** Lines 767-771: the inner loop over [groups]. *)
Definition groups_step (zb : zonebook) (groups : list string)
    (d : list (string * list string)) : list (string * list string) :=
  fold_left
    (fun d nested_group =>
       Py.dict_set String.eqb nested_group
         (map snd (get_bucket nested_group zb)) d)
    groups d.

Definition pair_leb {B : Type} (a b : string * B) : bool :=
  String.leb (fst a) (fst b).

(** Lines 756-775: the body of [for zone in self.addressbook], on the
    pair of [address_book_names_dict] and [address_book_groups_dict]. *)
Definition zone_step
    (acc : list (string * IP) * list (string * list string))
    (zone : string * zonebook)
    : list (string * IP) * list (string * list string) :=
  let zb := snd zone in
  let groups := Py.sorted String.leb (Py.keys zb) in
  let '(names, gd) :=
    fold_left
      (fun '(names, gd) group =>
         (fold_left names_step (get_bucket group zb) names,
          groups_step zb groups gd))
      groups acc in
  (names, Py.sorted pair_leb gd).

Definition address_book_dicts (self : PaloAltoFW)
    : list (string * IP) * list (string * list string) :=
  fold_left zone_step (addressbook self) ([], []).

(** [_SortAddressBookNumCheck(item)] (lines 658-675).  The
    [isinstance] test is on a string and never holds; it raises
    [IndexError] when the name has no underscore. *)
Definition _SortAddressBookNumCheck (item : string)
    : result (string * Z) :=
  let item_list := Py.split "_"%char item in
  let num := last item_list "" in
  let item_list := removelast item_list in
  match item_list with
  | [] => Raise (IndexError "list index out of range")
  | _ :: _ =>
      let alpha := Py.join "_" item_list in
      if String.eqb num "" then Ok (alpha, 0%Z)
      else
        match Py.int_ num with
        | Some n => Ok (alpha, n)
        | None => Raise (ValueError num)
        end
  end.

(** The order of the sort keys, tuples of a string and an [int]. *)
Definition key_leb (a b : (string * Z) * string) : bool :=
  match String.compare (fst (fst a)) (fst (fst b)) with
  | Lt => true
  | Eq => Z.leb (snd (fst a)) (snd (fst b))
  | Gt => false
  end.

Fixpoint with_keys (names : list string)
    : result (list ((string * Z) * string)) :=
  match names with
  | [] => Ok []
  | n :: rest =>
      match _SortAddressBookNumCheck n with
      | Raise e => Raise e
      | Ok k =>
          match with_keys rest with
          | Raise e => Raise e
          | Ok l => Ok ((k, n) :: l)
          end
      end
  end.

(** [sorted(names, key=self._SortAddressBookNumCheck)] (line 776). *)
Definition address_book_keys (names : list string)
    : result (list string) :=
  match with_keys names with
  | Raise e => Raise e
  | Ok l => Ok (map snd (Py.sorted key_leb l))
  end.

(** Lines 779-786: the [<entry>] of one address-book name. *)
Definition address_entry (names : list (string * IP)) (name : string)
    : result (list string) :=
  match Py.dict_get String.eqb name names with
  | None => Raise (KeyError name)
  | Some address =>
      Ok [ (ind 6 ++ "<entry name=" ++ dq ++ name ++ dq ++ ">")%string;
           (ind 7 ++ "<description>" ++ name ++ "</description>")%string;
           (ind 7 ++ "<ip-netmask>" ++ str address
              ++ "</ip-netmask>")%string;
           (ind 6 ++ "</entry>")%string ]
  end.

Fixpoint concat_results (l : list (result (list string)))
    : result (list string) :=
  match l with
  | [] => Ok []
  | Raise e :: _ => Raise e
  | Ok x :: rest =>
      match concat_results rest with
      | Raise e => Raise e
      | Ok y => Ok (x ++ y)
      end
  end.

(** Lines 749-788. *)
Definition address_entries (self : PaloAltoFW) : result (list string) :=
  let names := fst (address_book_dicts self) in
  match address_book_keys (Py.keys names) with
  | Raise e => Raise e
  | Ok sorted_names =>
      match concat_results (map (address_entry names) sorted_names) with
      | Raise e => Raise e
      | Ok entries =>
          Ok ([ (ind 5 ++ "<!-- Addresses -->")%string;
                (ind 5 ++ "<address>")%string ]
              ++ entries ++ [ (ind 5 ++ "</address>")%string ])
      end
  end.

(** Lines 790-803. *)
Definition address_group_entries (self : PaloAltoFW) : list string :=
  [ (ind 5 ++ "<!-- Address groups-->")%string;
    (ind 5 ++ "<address-group>")%string ]
  ++ flat_map
       (fun '(group, address_list) =>
          [ (ind 6 ++ "<entry name=" ++ dq ++ group ++ dq ++ ">")%string;
            (ind 7 ++ "<static>")%string ]
          ++ map (fun name =>
                    (ind 8 ++ "<member>" ++ name ++ "</member>")%string)
               address_list
          ++ [ (ind 7 ++ "</static>")%string;
               (ind 7 ++ "</entry>")%string ])
       (snd (address_book_dicts self))
  ++ [ (ind 5 ++ "</address-group>")%string ].

(** Lines 811-822: the [<entry>] of one registered service.  The tuple
    of port strings is printed with [str], stripped of its brackets,
    quotes and blanks: for the digit-and-dash strings [ModifyOptions]
    registers that is the ports joined by commas.  An empty tuple
    raises [IndexError] at [tup[-1]]. *)
Definition service_entry (kv : Service.key * string)
    : result (list string) :=
  let '((ports, protocol), name) := kv in
  match ports with
  | [] => Raise (IndexError "string index out of range")
  | _ :: _ =>
      Ok [ (ind 6 ++ "<entry name=" ++ dq ++ name ++ dq ++ ">")%string;
           (ind 7 ++ "<protocol>")%string;
           (ind 8 ++ "<" ++ protocol ++ ">")%string;
           (ind 9 ++ "<port>" ++ Py.join "," ports ++ "</port>")%string;
           (ind 8 ++ "</" ++ protocol ++ ">")%string;
           (ind 7 ++ "</protocol>")%string;
           (ind 6 ++ "</entry>")%string ]
  end.

(** Lines 805-825. *)
Definition service (m : Service.service_map) : result (list string) :=
  match m with
  | [] =>
      Ok [ (ind 5 ++ "<!-- Services -->")%string;
           (ind 5 ++ "<service/>")%string ]
  | _ :: _ =>
      match concat_results (map service_entry m) with
      | Raise e => Raise e
      | Ok entries =>
          Ok ([ (ind 5 ++ "<!-- Services -->")%string;
                (ind 5 ++ "<service>")%string ]
              ++ entries ++ [ (ind 5 ++ "</service>")%string ])
      end
  end.

(** Lines 840-845. *)
Definition description_lines (options : Rule.options) : list string :=
  match Rule.description options with
  | [] => []
  | d =>
      let descr := Py.join " " d in
      let descr :=
        if Nat.ltb _MAX_RULE_DESCRIPTION_LENGTH (String.length descr)
        then Py.take _MAX_RULE_DESCRIPTION_LENGTH descr else descr in
      [ (ind 9 ++ "<description>" ++ descr ++ "</description>")%string ]
  end.

(** Lines 847-855. *)
Definition zone_lines (options : Rule.options) : list string :=
  [ (ind 9 ++ "<to>")%string ] ++ members (Rule.to_zone options)
  ++ [ (ind 9 ++ "</to>")%string; (ind 9 ++ "<from>")%string ]
  ++ members (Rule.from_zone options) ++ [ (ind 9 ++ "</from>")%string ].

(** The members of a [<source>], [<destination>] or [<application>]
    element: ["any"] for an empty list. *)
Definition members_or_any (l : list string) : list string :=
  match l with
  | [] => ["any"]
  | _ :: _ => l
  end.

(** Lines 857-863. *)
Definition source_lines (options : Rule.options) : list string :=
  [ (ind 9 ++ "<source>")%string ]
  ++ members (members_or_any (Rule.source options))
  ++ [ (ind 9 ++ "</source>")%string ].

(** Lines 865-871. *)
Definition destination_lines (options : Rule.options) : list string :=
  [ (ind 9 ++ "<destination>")%string ]
  ++ members (members_or_any (Rule.destination options))
  ++ [ (ind 9 ++ "</destination>")%string ].

(** Lines 873-885. *)
Definition service_members (options : Rule.options) : list string :=
  match Rule.service options, Rule.application options with
  | [], [] => ["any"]
  | [], _ :: _ => ["application-default"]
  | s, _ => s
  end.

Definition service_lines (options : Rule.options) : list string :=
  [ (ind 9 ++ "<service>")%string ] ++ members (service_members options)
  ++ [ (ind 9 ++ "</service>")%string ].

(** Lines 887-889: [KeyError] without an action, [TypeError] when the
    table has no such action. *)
Definition action_lines (options : Rule.options) : result (list string) :=
  match Rule.action options with
  | None => Raise (KeyError "action")
  | Some a =>
      match Term.ACTIONS a with
      | None => Raise (TypeError a)
      | Some act =>
          Ok [ (ind 9 ++ "<action>" ++ act ++ "</action>")%string ]
      end
  end.

(** Lines 891-895. *)
Definition rule_type_lines (options : Rule.options) : list string :=
  if negb (is_empty
             (filter (fun z => negb (Py.str_in z (Rule.to_zone options)))
                (Rule.from_zone options)))
  then [ (ind 9 ++ "<rule-type>interzone</rule-type>")%string ]
  else if is_empty (Rule.from_zone options)
          && is_empty (Rule.to_zone options)
  then [ (ind 9 ++ "<rule-type>interzone</rule-type>")%string ]
  else [].

(** Lines 897-904. *)
Definition application_lines (options : Rule.options) : list string :=
  [ (ind 9 ++ "<application>")%string ]
  ++ members (members_or_any (Rule.application options))
  ++ [ (ind 9 ++ "</application>")%string ].

(** Lines 906-914. *)
Definition logging_lines (options : Rule.options) : list string :=
  match Rule.logging options with
  | [] => []
  | l =>
      (if Py.str_in "disable" l
       then [ (ind 9 ++ "<log-start>no</log-start>")%string;
              (ind 9 ++ "<log-end>no</log-end>")%string ]
       else [])
      ++ (if Py.str_in "log-start" l
          then [ (ind 9 ++ "<log-start>yes</log-start>")%string ]
          else [])
      ++ (if Py.str_in "log-end" l
          then [ (ind 9 ++ "<log-end>yes</log-end>")%string ]
          else [])
  end.

(** Lines 839-916: the [<entry>] of one rule. *)
Definition rule_entry (name : string) (options : Rule.options)
    : result (list string) :=
  match action_lines options with
  | Raise e => Raise e
  | Ok action =>
      Ok ([ (ind 8 ++ "<entry name=" ++ dq ++ name ++ dq ++ ">")%string ]
          ++ description_lines options
          ++ zone_lines options
          ++ source_lines options
          ++ destination_lines options
          ++ service_lines options
          ++ action
          ++ rule_type_lines options
          ++ application_lines options
          ++ logging_lines options
          ++ [ (ind 8 ++ "</entry>")%string ])
  end.

(** Lines 827-922. *)
Definition rules (self : PaloAltoFW) : result (list string) :=
  match
    concat_results
      (flat_map
         (fun '(_, pa_rules, _) =>
            map (fun '(name, options) => rule_entry name options)
              (pa_rules : ruleset_t))
         (pafw_policies self))
  with
  | Raise e => Raise e
  | Ok entries =>
      Ok ([ (ind 5 ++ "<!-- Rules -->")%string;
            (ind 5 ++ "<rulebase>")%string;
            (ind 6 ++ "<security>")%string;
            (ind 7 ++ "<rules>")%string ]
          ++ entries
          ++ [ (ind 7 ++ "</rules>")%string;
               (ind 6 ++ "</security>")%string;
               (ind 5 ++ "</rulebase>")%string ])
  end.

(** Lines 705-737: the custom applications, built as an element tree
    and printed by [minidom]'s [toprettyxml(indent="  ")], whose first
    line (the XML declaration) is dropped. *)
#[local] Set Warnings "-register-all".
Inductive Element : Type :=
| element (tag : string) (attrib : list (string * string))
    (text : string) (children : list Element).

Definition nl : string := String (ascii_of_nat 10) EmptyString.

(** The escaping [minidom] applies to text and attribute values. *)
Fixpoint escape (s : string) : string :=
  match s with
  | EmptyString => EmptyString
  | String c s' =>
      ((if Ascii.eqb c "&"%char then "&amp;"
        else if Ascii.eqb c "<"%char then "&lt;"
        else if Ascii.eqb c (ascii_of_nat 34) then "&quot;"
        else if Ascii.eqb c ">"%char then "&gt;"
        else String c EmptyString) ++ escape s')%string
  end.

(** [Element.writexml]: an element without content closes itself, one
    with text only stays on its line, one with children indents them.
    (The tree built below never mixes text and children.) *)
Fixpoint writexml (indent : string) (node : Element) : string :=
  match node with
  | element tag attrib text children =>
      let head :=
        (indent ++ "<" ++ tag
         ++ Py.join ""
              (map (fun '(k, v) =>
                      (" " ++ k ++ "=" ++ dq ++ escape v ++ dq)%string)
                 attrib))%string in
      match children with
      | [] =>
          if String.eqb text "" then (head ++ "/>" ++ nl)%string
          else (head ++ ">" ++ escape text ++ "</" ++ tag ++ ">"
                ++ nl)%string
      | _ :: _ =>
          (head ++ ">" ++ nl
           ++ Py.join ""
                (map (writexml (indent ++ INDENT)%string) children)
           ++ indent ++ "</" ++ tag ++ ">" ++ nl)%string
      end
  end.

Definition toprettyxml (root : Element) : string :=
  ("<?xml version=" ++ dq ++ "1.0" ++ dq ++ " ?>" ++ nl
   ++ writexml "" root)%string.

(** Lines 713-728: the children of one application entry, in the order
    of the keys of [app_entry]. *)
Definition app_children (app : app_entry) : list Element :=
  [ element "category" [] (category app) [];
    element "subcategory" [] (subcategory app) [];
    element "technology" [] (technology app) [];
    element "description" [] (description app) [];
    element "default" [] ""
      (flat_map
         (fun '(prop, v) =>
            if Py.str_in prop ["ident-by-icmp-type"; "ident-by-icmp6-type"]
            then [ element prop [] "" [ element "type" [] v [] ] ]
            else [])
         (default app));
    element "risk" [] (risk app) [] ].

Definition app_entries (self : PaloAltoFW) : Element :=
  element "application" [] ""
    (flat_map
       (fun app_name =>
          match Py.dict_get String.eqb app_name (application_refs self)
          with
          | None => []
          | Some app =>
              [ element "entry" [("name", app_name)] ""
                  (app_children app) ]
          end)
       (applications self)).

(** Lines 696-703 and 730-737. *)
Definition initial (self : PaloAltoFW) : list string :=
  [ ("<?xml version=" ++ dq ++ "1.0" ++ dq ++ "?>")%string;
    ("<config version=" ++ dq ++ "7.0.0" ++ dq ++ " urldb=" ++ dq
       ++ "paloaltonetworks" ++ dq ++ ">")%string;
    (ind 1 ++ "<devices>")%string;
    (ind 2 ++ "<entry name=" ++ dq ++ "localhost.localdomain" ++ dq
       ++ ">")%string;
    (ind 3 ++ "<vsys>")%string;
    (ind 4 ++ "<entry name=" ++ dq ++ "vsys1" ++ dq ++ ">")%string ]
  ++ map (fun line => (ind 5 ++ line)%string)
       (tl (Py.split (ascii_of_nat 10) (toprettyxml (app_entries self)))).

(** Lines 924-929. *)
Definition end_ : list string :=
  [ (ind 4 ++ "</entry>")%string;
    (ind 3 ++ "</vsys>")%string;
    (ind 2 ++ "</entry>")%string;
    (ind 1 ++ "</devices>")%string;
    ("</config>" ++ nl)%string ].

(** The sections of the document, in the order of the [return]
    statement (lines 931-934). *)
Record document : Type := {
  doc_initial : list string;
  doc_app_group_entries : list string;
  doc_service : list string;
  doc_rules : list string;
  doc_address_group_entries : list string;
  doc_address_entries : list string;
  doc_end : list string
}.

(** The sections as [__str__] computes them; the exceptions come in the
    order the method meets them. *)
Definition sections (self : PaloAltoFW) (m : Service.service_map)
    : result document :=
  match address_entries self with
  | Raise e => Raise e
  | Ok addresses =>
      match service m with
      | Raise e => Raise e
      | Ok services =>
          match rules self with
          | Raise e => Raise e
          | Ok rule_lines =>
              Ok (Build_document (initial self) (app_group_entries self)
                    services rule_lines (address_group_entries self)
                    addresses end_)
          end
      end
  end.

(** Every line of the document. *)
Definition document_lines (d : document) : list string :=
  doc_initial d ++ doc_app_group_entries d ++ doc_service d
  ++ doc_rules d ++ doc_address_group_entries d
  ++ doc_address_entries d ++ doc_end d.

(** [str(self)], the registry being [m]. *)
Definition __str__ (self : PaloAltoFW) (m : Service.service_map)
    : result string :=
  match sections self m with
  | Raise e => Raise e
  | Ok d =>
      Ok (Py.join nl (doc_initial d) ++ nl ++ nl
          ++ Py.join nl (doc_app_group_entries d) ++ nl ++ nl
          ++ Py.join nl (doc_service d) ++ nl ++ nl
          ++ Py.join nl (doc_rules d) ++ nl ++ nl
          ++ Py.join nl (doc_address_group_entries d) ++ nl ++ nl
          ++ Py.join nl (doc_address_entries d) ++ nl
          ++ Py.join nl (doc_end d))%string
  end.

End Generator.

Arguments bucket IP : clear implicits.
Arguments zonebook IP : clear implicits.
Arguments addressbook_t IP : clear implicits.
Arguments PaloAltoFW IP : clear implicits.
Arguments loop_state IP : clear implicits.
Arguments State IP : clear implicits.

End PaloAltoFW.

(** ** Concrete collaborators

    The generator above is stated for any network objects and any
    collaborators.  The examples run it on the instances below. *)

Module nacaddr.

(** Modelled from the spec: [capirca.lib.nacaddr] is not under src/.  §3
    describes a network object as tagged with an IP version and a parent
    token, compared by its string representation and by the supernet
    relation; it is kept here as Python's [ipaddress] networks are: a
    version, the network address as an integer and the prefix length. *)
Record IP : Type := {
  version : IPVersion;
  network_address : N;
  prefixlen : N;
  parent_token : string
}.

Definition max_prefixlen (v : IPVersion) : N :=
  match v with V4 => 32 | V6 => 128 end.

Definition broadcast_address (a : IP) : N :=
  (network_address a
   + N.pow 2 (max_prefixlen (version a) - prefixlen a) - 1)%N.

Definition str_N (n : N) : string :=
  DecimalString.NilZero.string_of_uint (N.to_uint n).

Definition hex_N (n : N) : string :=
  HexadecimalString.NilZero.string_of_uint (N.to_hex_uint n).

(** The [count] groups of [bits] bits of [n], most significant first. *)
Fixpoint groups (bits : N) (count : nat) (n : N) : list N :=
  match count with
  | O => []
  | S c =>
      N.land (N.shiftr n (bits * N.of_nat c)) (N.pow 2 bits - 1)
      :: groups bits c n
  end.

(** The longest run of ["0"] hextets: its start and length, the first
    one winning a tie ([_compress_hextets]). *)
Fixpoint best_run (hextets : list string) (index : nat)
    (run_start run_len best_start best_len : nat) : nat * nat :=
  match hextets with
  | [] => (best_start, best_len)
  | h :: rest =>
      if String.eqb h "0" then
        let run_start := if Nat.eqb run_len 0 then index else run_start in
        let run_len := S run_len in
        if Nat.ltb best_len run_len
        then best_run rest (S index) run_start run_len run_start run_len
        else best_run rest (S index) run_start run_len best_start best_len
      else best_run rest (S index) 0 0 best_start best_len
  end.

Definition compress_hextets (hextets : list string) : list string :=
  let '(start, len) := best_run hextets 0 0 0 0 0 in
  if Nat.ltb 1 len then
    let tail := skipn (start + len) hextets in
    (if Nat.eqb start 0 then [""] else [])
    ++ firstn start hextets ++ [""]
    ++ tail ++ (if PaloAltoFW.is_empty tail then [""] else [])
  else hextets.

(** Modelled from the spec: [str(address)] of a [nacaddr] object, not
    under src/; the text of [<ip-netmask>] and the "string form" of §4.2,
    printed as [ipaddress] prints a network: dotted quad or compressed
    hextets, a slash and the prefix length. *)
Definition str (a : IP) : string :=
  (match version a with
   | V4 => Py.join "." (map str_N (groups 8 4 (network_address a)))
   | V6 =>
       Py.join ":"
         (compress_hextets (map hex_N (groups 16 8 (network_address a))))
   end ++ "/" ++ str_N (prefixlen a))%string.

(** Modelled from the spec: [supernet_of] of a [nacaddr] object, not
    under src/; §3's "supernet": same version and an address range that
    contains the other's. *)
Definition supernet_of (a b : IP) : bool :=
  version_eqb (version a) (version b)
  && N.leb (network_address a) (network_address b)
  && N.leb (broadcast_address b) (broadcast_address a).

Definition eqb (a b : IP) : bool :=
  version_eqb (version a) (version b)
  && N.eqb (network_address a) (network_address b)
  && N.eqb (prefixlen a) (prefixlen b).

(** The two halves of a network. *)
Definition subnets (a : IP) : IP * IP :=
  let p := (prefixlen a + 1)%N in
  (Build_IP (version a) (network_address a) p (parent_token a),
   Build_IP (version a)
     (network_address a + N.pow 2 (max_prefixlen (version a) - p))%N p
     (parent_token a)).

(** [a] without [other], a strict subnet of it: the halves that do not
    hold [other], largest first. *)
Fixpoint address_exclude (fuel : nat) (a other : IP) : list IP :=
  match fuel with
  | O => []
  | S fuel' =>
      let '(s1, s2) := subnets a in
      if eqb s1 other then [s2]
      else if eqb s2 other then [s1]
      else if supernet_of s1 other then s2 :: address_exclude fuel' s1 other
      else if supernet_of s2 other then s1 :: address_exclude fuel' s2 other
      else []
  end.

Definition leb (a b : IP) : bool :=
  match Z.compare (version_number (version a))
          (version_number (version b)) with
  | Lt => true
  | Gt => false
  | Eq =>
      match N.compare (network_address a) (network_address b) with
      | Lt => true
      | Gt => false
      | Eq => N.leb (prefixlen a) (prefixlen b)
      end
  end.

(** Modelled from the spec: [nacaddr.RemoveAddressFromList], not under
    src/; the "exclusion subtraction" of §3 and §4.5.  An address equal
    to the excluded one or inside it goes, one that contains it is cut
    into the networks covering the rest, the others stay; the result is
    sorted. *)
Definition RemoveAddressFromList (superset : list IP) (exclude : IP)
    : list IP :=
  Py.sorted leb
    (flat_map
       (fun addr =>
          if eqb exclude addr || supernet_of exclude addr then []
          else if supernet_of addr exclude then
            address_exclude
              (N.to_nat (max_prefixlen (version addr) - prefixlen addr))
              addr exclude
          else [addr])
       superset).

End nacaddr.

#[export] Instance nacaddr_NetworkObject : NetworkObject nacaddr.IP := {
  version := nacaddr.version;
  parent_token := nacaddr.parent_token;
  str := nacaddr.str;
  supernet_of := nacaddr.supernet_of
}.

(** Modelled from the spec: [aclgenerator.ACLGenerator.FixTermLength] is not
    under src/.  §3 calls length-fixing idempotent and the name
    length-capped, and §7 lists a generated rule name exceeding the length
    cap among the fatal conditions: a name within the cap is returned as it
    is, a longer one is a fatal error. *)
Definition FixTermLength_spec (max_length : nat) (term_name : string)
    : option string :=
  if Nat.leb (String.length term_name) max_length then Some term_name
  else None.

(** Modelled from the spec: the table [policy.Term.ICMP_TYPE] is not under
    src/.  §8 gives [echo-request] the code 8 for ICMP; the other entries are
    the assigned numbers of the types the tests name. *)
Definition ICMP_TYPE_spec (v : IPVersion) (type_name : string) : option Z :=
  match v with
  | V4 =>
      if String.eqb type_name "echo-reply" then Some 0%Z
      else if String.eqb type_name "unreachable" then Some 3%Z
      else if String.eqb type_name "echo-request" then Some 8%Z
      else if String.eqb type_name "time-exceeded" then Some 11%Z
      else None
  | V6 =>
      if String.eqb type_name "destination-unreachable" then Some 1%Z
      else if String.eqb type_name "packet-too-big" then Some 2%Z
      else if String.eqb type_name "time-exceeded" then Some 3%Z
      else if String.eqb type_name "echo-request" then Some 128%Z
      else if String.eqb type_name "echo-reply" then Some 129%Z
      else None
  end.

#[export] Instance spec_Collaborators : Collaborators nacaddr.IP := {
  FixTermLength := FixTermLength_spec;
  RemoveAddressFromList := nacaddr.RemoveAddressFromList;
  ICMP_TYPE := ICMP_TYPE_spec
}.

(** * Example policies *)

(** ** Example policies *)

Module Example.

Definition ipv4 (a b c d prefixlen : N) (token : string) : nacaddr.IP :=
  nacaddr.Build_IP V4 (((a * 256 + b) * 256 + c) * 256 + d)%N prefixlen
    token.

(** 10.0.0.0/8 and, inside it, 10.1.0.0/16, both named FOO. *)
Definition net_a : nacaddr.IP := ipv4 10 0 0 0 8 "FOO".
Definition net_b : nacaddr.IP := ipv4 10 1 0 0 16 "FOO".

(** 2001:4860:8000::/33 *)
Definition net6 : nacaddr.IP :=
  nacaddr.Build_IP V6 0x20014860800000000000000000000000%N 33 "BAR".

(** [target:: paloalto <options>] *)
Definition header (options : list string) : policy.Header :=
  policy.Build_Header ["paloalto"] (fun _ => options).

Definition trust_untrust : policy.Header :=
  header ["from-zone"; "trust"; "to-zone"; "untrust"].
Definition trust_untrust_mixed : policy.Header :=
  header ["from-zone"; "trust"; "to-zone"; "untrust"; "mixed"].
Definition dmz_untrust : policy.Header :=
  header ["from-zone"; "dmz"; "to-zone"; "untrust"].

(** An accepting term with the given name, addresses, protocols,
    destination ports, ICMP types and logging directives. *)
Definition term (name : string) (source destination : list nacaddr.IP)
    (protocol : list string) (destination_port : list (Z * Z))
    (icmp_type logging : list string) : policy.Term nacaddr.IP :=
  policy.Build_Term nacaddr.IP name [] source [] destination [] protocol
    [] destination_port [] icmp_type ["accept"] [] logging None false None
    [] None false.

(** The loop state at the first term of a header from trust to
    untrust. *)
Definition loop_start : PaloAltoFW.loop_state nacaddr.IP :=
  PaloAltoFW.Build_loop_state
    (PaloAltoFW.set_zones "trust" "untrust" PaloAltoFW.new) [] [] [].

(** The state before the first header, with an empty registry. *)
Definition start : PaloAltoFW.State nacaddr.IP :=
  PaloAltoFW.Build_State PaloAltoFW.new [] [].

Definition v4_to_v6 : policy.Term nacaddr.IP :=
  term "v4-to-v6" [net_a] [net6] ["tcp"] [] [] [].

Definition ping_1 : policy.Term nacaddr.IP :=
  term "ping-1" [] [] ["icmp"] [] ["echo-request"] [].
Definition ping_2 : policy.Term nacaddr.IP :=
  term "ping-2" [] [] ["icmp"] [] ["echo-request"] [].

Definition icmp_only : policy.Term nacaddr.IP :=
  term "test-icmp-only" [] [] ["icmp"] [] [] [].

Definition smtp (name : string) : policy.Term nacaddr.IP :=
  term name [] [] ["tcp"] [(25, 25)%Z] [] [].

Definition log_term (logging : list string) : policy.Term nacaddr.IP :=
  term "test-log" [] [] ["tcp"] [] [] logging.


End Example.

(** * Vocabulary of the statements *)

Definition log_start (v : string) : string :=
  (PaloAltoFW.ind 9 ++ "<log-start>" ++ v ++ "</log-start>")%string.

Definition log_end (v : string) : string :=
  (PaloAltoFW.ind 9 ++ "<log-end>" ++ v ++ "</log-end>")%string.

Definition is_log_element (line : string) : bool :=
  String.prefix (PaloAltoFW.ind 9 ++ "<log-")%string line.

(** Without [disable] the loop only ever appends. *)
Definition logging_of (item : string) : list string :=
  if Py.str_in item ["log-both"] then ["log-start"; "log-end"]
  else if Py.str_in item ["True"; "true"; "syslog"; "local"] then ["log-end"]
  else [].

(** An application name the ICMP pass attaches to a term. *)
Definition icmp_application (a : string) : Prop :=
  a = "icmp" \/ a = "ipv6-icmp"
  \/ exists type_name,
       a = ("icmp-" ++ type_name)%string
       \/ a = ("icmp6-" ++ type_name)%string.

(** [t'] is [t] but for its name, its address lists and the
    applications appended to [pan_application]. *)
Definition same_but_name_addresses_applications {IP : Type}
    (t t' : policy.Term IP) : Prop :=
  policy.comment t' = policy.comment t
  /\ policy.source_address_exclude t' = policy.source_address_exclude t
  /\ policy.destination_address_exclude t'
     = policy.destination_address_exclude t
  /\ policy.protocol t' = policy.protocol t
  /\ policy.source_port t' = policy.source_port t
  /\ policy.destination_port t' = policy.destination_port t
  /\ policy.icmp_type t' = policy.icmp_type t
  /\ policy.action t' = policy.action t
  /\ policy.option_ t' = policy.option_ t
  /\ policy.logging t' = policy.logging t
  /\ policy.expiration t' = policy.expiration t
  /\ policy.stateless_reply t' = policy.stateless_reply t
  /\ policy.owner t' = policy.owner t
  /\ policy.platform t' = policy.platform t
  /\ policy.timeout t' = policy.timeout t
  /\ policy.translated t' = policy.translated t
  /\ exists appended,
       policy.pan_application t' = policy.pan_application t ++ appended
       /\ Forall icmp_application appended.

(** [t'] is [t] but for the applications appended. *)
Definition same_but_applications {IP : Type} (t t' : policy.Term IP) : Prop :=
  same_but_name_addresses_applications t t'
  /\ policy.name t' = policy.name t
  /\ policy.source_address t' = policy.source_address t
  /\ policy.destination_address t' = policy.destination_address t.

(** A term is not skipped by the first three tests of the loop. *)
Definition not_skipped {IP : Type} (t : policy.Term IP) : Prop :=
  policy.stateless_reply t = false
  /\ ~ In "established" (policy.option_ t)
  /\ ~ In "tcp-established" (policy.option_ t).

(** The name [FixTermLength] gives a term, if it gives one. *)
Definition fixed_name {IP : Type} `{Collaborators IP} (t : policy.Term IP)
    : option string :=
  FixTermLength PaloAltoFW._TERM_MAX_LENGTH (policy.name t).

(** Two terms of one list that are not skipped and get the same fixed
    name [n], the first before the second. *)
Definition colliding_terms {IP : Type} `{Collaborators IP}
    (terms : list (policy.Term IP)) (n : string) : Prop :=
  exists pre t1 mid t2 post,
    terms = pre ++ t1 :: mid ++ t2 :: post
    /\ not_skipped t1 /\ not_skipped t2
    /\ fixed_name t1 = Some n /\ fixed_name t2 = Some n.

(** The exceptions of [Rule.__init__]. *)
Definition rule_error (e : Error) : Prop :=
  e = PaloAltoFWOptionError
  \/ (exists w, e = PaloAltoFWDuplicateServiceError w)
  \/ (exists n, e = PaloAltoFWNameTooLongError n).

(** What the translation may do to a caller's term: fix its name, subtract
    the excluded addresses, append ICMP applications. *)
Definition translated_from {IP : Type} `{Collaborators IP}
    (t t' : policy.Term IP) : Prop :=
  same_but_name_addresses_applications t t'
  /\ (policy.name t' = policy.name t \/ fixed_name t = Some (policy.name t'))
  /\ ((policy.source_address t' = policy.source_address t
       /\ policy.destination_address t' = policy.destination_address t)
      \/ (policy.source_address t'
          = fold_left RemoveAddressFromList (policy.source_address_exclude t)
              (policy.source_address t)
          /\ policy.destination_address t'
             = fold_left RemoveAddressFromList
                 (policy.destination_address_exclude t)
                 (policy.destination_address t))).

(** The headers stay, and each list of terms is translated from the
    caller's. *)
Definition policy_translated_from {IP : Type} `{Collaborators IP}
  (pol pol' : policy.Policy IP) : Prop :=
  Forall2
    (fun f f' =>
       fst f' = fst f /\ Forall2 translated_from (snd f) (snd f'))
    pol pol'.

(** [t'] is [t] but for its name and its address lists: what C7 says of
    the translation. *)
Definition same_but_name_addresses {IP : Type} (t t' : policy.Term IP)
    : Prop :=
  same_but_name_addresses_applications t t'
  /\ policy.pan_application t' = policy.pan_application t.


(** The registries reached from [m] by registrations: [service_map] is
    only ever written by [Service.__init__], which [ModifyOptions] calls
    with the port strings of a term that has destination ports. *)
Inductive registered_after (m : Service.service_map)
    : Service.service_map -> Prop :=
| registered_same : registered_after m m
| registered_next (m1 m2 : Service.service_map) (ports : list string)
    (term_name protocol : string) :
    registered_after m m1 ->
    ports <> [] ->
    Service.__init__ ports term_name protocol m1 = Ok m2 ->
    registered_after m m2.

(** The registries of a run: those reached from the empty one. *)
Definition registered (m : Service.service_map) : Prop :=
  registered_after [] m.

(** The first line of the [<entry>] of the service named [name]. *)
Definition service_entry_line (name : string) : string :=
  (PaloAltoFW.ind 6 ++ "<entry name=" ++ dq ++ name ++ dq ++ ">")%string.

(** The lines of an entry that open an [<entry>]. *)
Definition opens_entry (line : string) : bool :=
  String.prefix (PaloAltoFW.ind 6 ++ "<entry name=")%string line.

(** [c] does not occur in [s]. *)
Fixpoint lacks (c : ascii) (s : string) : Prop :=
  match s with
  | EmptyString => True
  | String a s' => a <> c /\ lacks c s'
  end.

(** The name of the [k]-th address of token [token]. *)
Definition address_name (token : string) (k : nat) : string :=
  (token ++ "_" ++ Py.str_nat k)%string.

(** The characters a literal of [int] is made of. *)
Definition int_char (c : ascii) : bool :=
  Py.is_space c || Ascii.eqb c "+" || Ascii.eqb c "-" || Ascii.eqb c "_"
  || match Py.digit c with Some _ => true | None => false end.

(** The address books the translation builds: [self.addressbook] starts
    empty and is only written by [_BuildAddressBook]. *)
Inductive built {IP : Type} `{NetworkObject IP}
    : PaloAltoFW.addressbook_t IP -> Prop :=
| built_empty : built []
| built_next (ab : PaloAltoFW.addressbook_t IP) (zone : string) (address : IP) :
    built ab -> built (PaloAltoFW._BuildAddressBook zone address ab).

(** The [k]-th entry of the bucket of [token] is named [token_k]. *)
Definition bucket_ok {IP : Type} (token : string) (b : PaloAltoFW.bucket IP)
    : Prop :=
  forall k a n, nth_error b k = Some (a, n) -> n = address_name token k.

Definition book_ok {IP : Type} (ab : PaloAltoFW.addressbook_t IP) : Prop :=
  forall zone zb, In (zone, zb) ab ->
    forall token, bucket_ok token (PaloAltoFW.get_bucket token zb).

(** The first line of the [<entry>] of the address named [name]. *)
Definition address_entry_line (name : string) : string :=
  (PaloAltoFW.ind 6 ++ "<entry name=" ++ dq ++ name ++ dq ++ ">")%string.

(** The bucket [_BuildAddressBook] appends to. *)
Definition bucket_of {IP : Type} `{NetworkObject IP}
  (zone : string) (address : IP)
    (ab : PaloAltoFW.addressbook_t IP) : PaloAltoFW.bucket IP :=
  PaloAltoFW.get_bucket (parent_token address)
    (PaloAltoFW.get_zone zone ab).

(** The bucket after a registration. *)
Definition registered_bucket {IP : Type} `{NetworkObject IP}
  (address : IP) (b : PaloAltoFW.bucket IP)
    : PaloAltoFW.bucket IP :=
  if existsb (fun ip => String.eqb (str address) (str (fst ip))) b then b
  else b ++ [(address,
              address_name (parent_token address) (length b))].

(** The line of a rule's description. *)
Definition description_line (descr : string) : string :=
  (PaloAltoFW.ind 9 ++ "<description>" ++ descr ++ "</description>")%string.

(** A port or a port range of the policy, with bounds that are not
    negative. *)
Definition port_range (p : Z * Z) : Prop := (0 <= fst p)%Z /\ (0 <= snd p)%Z.

(** The application a protocol of the term asks for in lines 256-268. *)
Definition protocol_application (proto_name : string) : option string :=
  if Py.str_in proto_name ["icmp"; "icmpv6"] then None
  else if Py.str_in proto_name ["igmp"; "sctp"] then Some proto_name
  else if Py.str_in proto_name ["tcp"; "udp"] then Some "any"
  else None.

(** The line that marks a rule between two zones. *)
Definition interzone_line : string :=
  (PaloAltoFW.ind 9 ++ "<rule-type>interzone</rule-type>")%string.

(** What the registry holds for a service: ports, and the name built from
    a term name and the protocol, of at most 63 characters. *)
Definition service_entry_ok (kv : Service.key * string) : Prop :=
  fst (fst kv) <> []
  /\ String.length (snd kv) <= 63
  /\ exists term_name,
       snd kv = ("service-" ++ term_name ++ "-" ++ snd (fst kv))%string.

(** A side of a term admits the address family [v]: it has no address at
    all ([any]) or an address of that family. *)
Definition has_family {IP : Type} `{NetworkObject IP} (v : IPVersion)
    (addresses : list IP) : Prop :=
  addresses = [] \/ exists a, In a addresses /\ version a = v.

(** The reasons for which lines 416-508 leave a term out of an [inet] or
    [inet6] filter, or out of any filter when it is expired. *)
Definition left_out {IP : Type} `{NetworkObject IP} `{Collaborators IP}
    (filter_type : string) (current_date : Z) (t : policy.Term IP) : Prop :=
  (exists e, policy.expiration t = Some e /\ (e <= current_date)%Z)
  \/ ((forall e, policy.expiration t = Some e -> (current_date < e)%Z)
      /\ ((filter_type = "inet"
           /\ (In "icmpv6" (policy.protocol t)
               \/ ~ In "ip4-ip4"
                    (PaloAltoFW.compute_flows
                       (PaloAltoFW.subtract_excluded t))))
          \/ (filter_type = "inet6"
              /\ (In "icmp" (policy.protocol t)
                  \/ ~ In "ip6-ip6"
                       (PaloAltoFW.compute_flows
                          (PaloAltoFW.subtract_excluded t)))))).

(** The custom application lines 584-610 build under the name [n]: for a
    type name with code [code] in [policy.Term.ICMP_TYPE], the entry
    [icmp-<type>] identified by ICMP type with risk 4, or the entry
    [icmp6-<type>] identified by ICMPv6 type with risk 2. *)
Definition icmp_entry {IP : Type} `{Collaborators IP} (n : string)
    (e : PaloAltoFW.app_entry) : Prop :=
  exists type_name code,
    (n = ("icmp-" ++ type_name)%string
     /\ ICMP_TYPE V4 type_name = Some code
     /\ e = PaloAltoFW.Build_app_entry "networking" "ip-protocol"
              "network-protocol" n
              [("ident-by-icmp-type", Py.str_int code)] "4")
    \/ (n = ("icmp6-" ++ type_name)%string
        /\ ICMP_TYPE V6 type_name = Some code
        /\ e = PaloAltoFW.Build_app_entry "networking" "ip-protocol"
                 "network-protocol" n
                 [("ident-by-icmp6-type", Py.str_int code)] "2").

(** What the translation pass does to the generator object: it sets the
    zones, registers an address, adds a custom ICMP application under a
    name that has none, or appends the policy of a header. *)
Inductive evolves {IP : Type} `{NetworkObject IP} `{Collaborators IP}
    (s : PaloAltoFW.PaloAltoFW IP) : PaloAltoFW.PaloAltoFW IP -> Prop :=
| evolves_refl : evolves s s
| evolves_zones (s1 : PaloAltoFW.PaloAltoFW IP) (fz tz : string) :
    evolves s s1 -> evolves s (PaloAltoFW.set_zones fz tz s1)
| evolves_address (s1 : PaloAltoFW.PaloAltoFW IP) (zone : string)
    (address : IP) :
    evolves s s1 ->
    evolves s
      (PaloAltoFW.set_addressbook
         (PaloAltoFW._BuildAddressBook zone address
            (PaloAltoFW.addressbook s1)) s1)
| evolves_application (s1 : PaloAltoFW.PaloAltoFW IP) (n : string)
    (e : PaloAltoFW.app_entry) :
    evolves s s1 ->
    Py.dict_get String.eqb n (PaloAltoFW.application_refs s1) = None ->
    icmp_entry n e ->
    evolves s (PaloAltoFW.add_application n e s1)
| evolves_policy (s1 : PaloAltoFW.PaloAltoFW IP)
    (p : policy.Header * PaloAltoFW.ruleset_t * list string) :
    evolves s s1 -> evolves s (PaloAltoFW.append_policy p s1).

(** The applications of a generator are the custom ICMP applications it
    built, each one once. *)
Definition applications_ok {IP : Type} `{NetworkObject IP}
    `{Collaborators IP} (s : PaloAltoFW.PaloAltoFW IP) : Prop :=
  Py.keys (PaloAltoFW.application_refs s) = PaloAltoFW.applications s
  /\ NoDup (PaloAltoFW.applications s)
  /\ forall n e, In (n, e) (PaloAltoFW.application_refs s) -> icmp_entry n e.

(** [self.addressbook[zone][token]], empty when the zone or the token is
    not there. *)
Definition bucket_at {IP : Type} (ab : PaloAltoFW.addressbook_t IP)
    (zone token : string) : PaloAltoFW.bucket IP :=
  PaloAltoFW.get_bucket token (PaloAltoFW.get_zone zone ab).

(** The address family an [inet] or [inet6] filter keeps. *)
Definition family_of (filter_type : string) : option IPVersion :=
  if String.eqb filter_type "inet" then Some V4
  else if String.eqb filter_type "inet6" then Some V6
  else None.

(** The exceptions of the loop over the terms, each with its reason. *)
Definition term_error {IP : Type} `{Collaborators IP} (e : Error) : Prop :=
  (exists msg, e = UnsupportedFilterError msg)
  \/ (exists n, e = PaloAltoFWDuplicateTermError n)
  \/ (exists n,
        e = TermNameTooLongError n
        /\ FixTermLength PaloAltoFW._TERM_MAX_LENGTH n = None)
  \/ (exists n type_name,
        e = PaloAltoFWBadIcmpTypeError n type_name
        /\ (ICMP_TYPE V4 type_name = None \/ ICMP_TYPE V6 type_name = None))
  \/ (exists p,
        e = PaloAltoFWUnsupportedProtocolError p
        /\ ~ In p PaloAltoFW._SUPPORTED_PROTO_NAMES).

(** The dates for which line 357 has a result: the window is a
    [timedelta] and the day it ends on is a [date]. *)
Definition date_in_range (current_date exp_info : Z) : Prop :=
  (Z.abs (7 * exp_info) <= 999999999
   /\ 0 < current_date + 7 * exp_info <= datetime._MAXORDINAL)%Z.

(** The exceptions of the loop of [_TranslatePolicy] over the filters. *)
Definition translation_error {IP : Type} `{Collaborators IP} (e : Error)
    : Prop :=
  term_error e
  \/ (exists filter_type,
        e = UnsupportedHeaderError filter_type
        /\ ~ In filter_type PaloAltoFW._SUPPORTED_AF)
  \/ rule_error e.

(** The filters of a policy that are for this platform. *)
Definition for_platform {IP : Type} (pol : policy.Policy IP)
    : policy.Policy IP :=
  filter (fun f => Py.str_in PaloAltoFW._PLATFORM (policy.platforms (fst f)))
    pol.

(** The terms lines 392-409 skip. *)
Definition is_skipped {IP : Type} (t : policy.Term IP) : bool :=
  policy.stateless_reply t
  || Py.str_in "established" (policy.option_ t)
  || Py.str_in "tcp-established" (policy.option_ t).

(** Two states of the loop that differ in the log at most. *)
Definition same_but_log {IP : Type} (st1 st2 : PaloAltoFW.loop_state IP)
    : Prop :=
  PaloAltoFW.self st1 = PaloAltoFW.self st2
  /\ PaloAltoFW.term_dup_check st1 = PaloAltoFW.term_dup_check st2
  /\ PaloAltoFW.new_terms st1 = PaloAltoFW.new_terms st2.

(** A term whose first action is one of [Term.ACTIONS]. *)
Definition valid_action {IP : Type} (t : policy.Term IP) : Prop :=
  exists a rest act,
    policy.action t = a :: rest /\ Term.ACTIONS a = Some act.

(** Every rule of the generator has an action [__str__] can print. *)
Definition rules_render {IP : Type} (s : PaloAltoFW.PaloAltoFW IP) : Prop :=
  forall header ruleset fo name options,
    In (header, ruleset, fo) (PaloAltoFW.pafw_policies s) ->
    In (name, options) (ruleset : PaloAltoFW.ruleset_t) ->
    exists lines, PaloAltoFW.action_lines options = Ok lines.

(** * Properties *)

(** ** Facts about the Python containers *)

Lemma str_in_In (x : string) (l : list string) :
  Py.str_in x l = true <-> In x l.
Proof.
  unfold Py.str_in. rewrite existsb_exists. split.
  - intros [y [Hy He]]. apply String.eqb_eq in He. now subst.
  - intros Hx. exists x. split; [assumption | apply String.eqb_refl].
Qed.

Lemma str_in_not_In (x : string) (l : list string) :
  Py.str_in x l = false <-> ~ In x l.
Proof.
  rewrite <- str_in_In. destruct (Py.str_in x l); split; congruence.
Qed.

Section DictFacts.
Context {K V : Type} (eqb : K -> K -> bool).
Hypothesis eqb_eq : forall a b, eqb a b = true <-> a = b.

Lemma eqb_same (a : K) : eqb a a = true.
Proof. now apply eqb_eq. Qed.

Lemma eqb_diff (a b : K) : a <> b -> eqb a b = false.
Proof.
  intros Hab. destruct (eqb a b) eqn:E; [|reflexivity].
  apply eqb_eq in E. contradiction.
Qed.

Lemma dict_set_absent (k : K) (v : V) (d : list (K * V)) :
  Py.dict_get eqb k d = None -> Py.dict_set eqb k v d = d ++ [(k, v)].
Proof.
  induction d as [|[k' v'] d IH]; simpl; [reflexivity|].
  destruct (eqb k k'); [discriminate|].
  intros Hd. now rewrite IH.
Qed.

Lemma dict_get_set_same (k : K) (v : V) (d : list (K * V)) :
  Py.dict_get eqb k (Py.dict_set eqb k v d) = Some v.
Proof.
  induction d as [|[k' v'] d IH]; simpl.
  - now rewrite eqb_same.
  - destruct (eqb k k') eqn:E; simpl; rewrite E; [reflexivity | exact IH].
Qed.

Lemma dict_get_set_other (k k' : K) (v : V) (d : list (K * V)) :
  k <> k' -> Py.dict_get eqb k (Py.dict_set eqb k' v d) = Py.dict_get eqb k d.
Proof.
  intros Hk. induction d as [|[k0 v0] d IH]; simpl.
  - now rewrite (eqb_diff _ _ Hk).
  - destruct (eqb k' k0) eqn:E; simpl.
    + apply eqb_eq in E. subst k0. now rewrite (eqb_diff _ _ Hk).
    + destruct (eqb k k0); [reflexivity | exact IH].
Qed.

Lemma dict_get_In (k : K) (v : V) (d : list (K * V)) :
  Py.dict_get eqb k d = Some v -> In (k, v) d.
Proof.
  induction d as [|[k' v'] d IH]; simpl; [discriminate|].
  destruct (eqb k k') eqn:E.
  - intros [= ->]. apply eqb_eq in E. subst. now left.
  - intros Hd. right. now apply IH.
Qed.

Lemma dict_get_None (k : K) (d : list (K * V)) :
  Py.dict_get eqb k d = None <-> ~ In k (Py.keys d).
Proof.
  induction d as [|[k' v'] d IH]; simpl.
  - tauto.
  - destruct (eqb k k') eqn:E.
    + apply eqb_eq in E. subst. split; [discriminate | tauto].
    + rewrite IH. split.
      * intros Hn [He | Hi]; [|tauto].
        subst. rewrite eqb_same in E. discriminate.
      * tauto.
Qed.

Lemma dict_mem_false (k : K) (d : list (K * V)) :
  Py.dict_mem eqb k d = false <-> Py.dict_get eqb k d = None.
Proof.
  unfold Py.dict_mem. destruct (Py.dict_get eqb k d); split; congruence.
Qed.

Lemma keys_dict_set (k : K) (v : V) (d : list (K * V)) :
  Py.keys (Py.dict_set eqb k v d)
  = if Py.dict_mem eqb k d then Py.keys d else Py.keys d ++ [k].
Proof.
  unfold Py.dict_mem.
  induction d as [|[k' v'] d IH]; simpl; [reflexivity|].
  destruct (eqb k k') eqn:E; simpl; [reflexivity|].
  rewrite IH. now destruct (Py.dict_get eqb k d).
Qed.
End DictFacts.

Lemma ports_eqb_eq (a b : list string) :
  Service.ports_eqb a b = true <-> a = b.
Proof.
  revert b. induction a as [|x a IH]; intros [|y b]; simpl;
    try (split; [discriminate | discriminate]); try tauto.
  rewrite andb_true_iff, String.eqb_eq, IH. split.
  - intros [-> ->]. reflexivity.
  - intros [= -> ->]. tauto.
Qed.

Lemma key_eqb_eq (a b : Service.key) : Service.key_eqb a b = true <-> a = b.
Proof.
  destruct a as [pa qa], b as [pb qb]. unfold Service.key_eqb. simpl.
  rewrite andb_true_iff, ports_eqb_eq, String.eqb_eq. split.
  - intros [-> ->]. reflexivity.
  - intros [= -> ->]. tauto.
Qed.

(** ** The service registry *)

Lemma name_taken (final : string) (m : Service.service_map) :
  existsb (fun kv : Service.key * string => String.eqb (snd kv) final) m = true
  <-> exists k, In (k, final) m.
Proof.
  rewrite existsb_exists. split.
  - intros [[k n] [Hin He]]. simpl in He. apply String.eqb_eq in He.
    subst. now exists k.
  - intros [k Hin]. exists (k, final). split; [assumption|].
    apply String.eqb_refl.
Qed.

Lemma name_free (final : string) (m : Service.service_map) :
  existsb (fun kv : Service.key * string => String.eqb (snd kv) final) m = false
  <-> forall k, ~ In (k, final) m.
Proof.
  split.
  - intros E k Hk.
    assert (Ht : exists k, In (k, final) m) by now exists k.
    apply name_taken in Ht. congruence.
  - intros Hfree. destruct (existsb _ m) eqn:E; [|reflexivity].
    apply name_taken in E. destruct E as [k Hk]. now elim (Hfree k).
Qed.

(** C5. Registering a service under a key the registry does not hold: the
    name is ["service-" + term_name + "-" + protocol]; when an entry of the
    registry (necessarily under another key) has that name the registration
    raises the duplicate-service error; otherwise, when the name is longer
    than 63 characters, it raises the name-too-long error; otherwise it
    succeeds and appends the key with that name. *)
Theorem C5_service_registration
    (ports : list string) (term_name protocol : string)
    (m : Service.service_map) :
  Service.contains (ports, protocol) m = false ->
  let final := ("service-" ++ term_name ++ "-" ++ protocol)%string in
  ((exists k, In (k, final) m) ->
   Service.__init__ ports term_name protocol m
   = Raise (PaloAltoFWDuplicateServiceError final))
  /\ ((forall k, ~ In (k, final) m) -> 63 < String.length final ->
      Service.__init__ ports term_name protocol m
      = Raise (PaloAltoFWNameTooLongError final))
  /\ ((forall k, ~ In (k, final) m) -> String.length final <= 63 ->
      Service.__init__ ports term_name protocol m
      = Ok (m ++ [((ports, protocol), final)])
      /\ Service.lookup (ports, protocol) (m ++ [((ports, protocol), final)])
         = Some final).
Proof.
  intros Hnew final. unfold Service.__init__. rewrite Hnew.
  change (Service.final_service_name term_name protocol) with final.
  assert (Habsent : Py.dict_get Service.key_eqb (ports, protocol) m = None)
    by now apply dict_mem_false.
  split; [|split].
  - intros Hdup. apply name_taken in Hdup. now rewrite Hdup.
  - intros Hfree Hlong. apply name_free in Hfree. rewrite Hfree.
    apply Nat.ltb_lt in Hlong. now rewrite Hlong.
  - intros Hfree Hshort. apply name_free in Hfree. rewrite Hfree.
    apply Nat.nlt_ge, Nat.ltb_nlt in Hshort. rewrite Hshort.
    rewrite dict_set_absent by assumption.
    split; [reflexivity|].
    rewrite <- (dict_set_absent Service.key_eqb) by assumption.
    apply (dict_get_set_same _ key_eqb_eq).
Qed.

Lemma C5_witness :
  Service.__init__ ["443"] "tls" "tcp"
    [((["80"], "tcp"), "service-web-tcp")]
  = Ok [((["80"], "tcp"), "service-web-tcp");
        ((["443"], "tcp"), "service-tls-tcp")]
  /\ Service.__init__ ["443"] "web" "tcp"
       [((["80"], "tcp"), "service-web-tcp")]
     = Raise (PaloAltoFWDuplicateServiceError "service-web-tcp")
  /\ Service.__init__ ["443"]
       "a-term-name-that-is-much-too-long-to-make-a-service-name-of-it"
       "tcp" [((["80"], "tcp"), "service-web-tcp")]
     = Raise (PaloAltoFWNameTooLongError
                "service-a-term-name-that-is-much-too-long-to-make-a-service-name-of-it-tcp").
Proof.
  split; [|split].
  - destruct (C5_service_registration ["443"] "tls" "tcp"
                [((["80"], "tcp"), "service-web-tcp")] eq_refl)
      as (_ & _ & Hfresh).
    apply Hfresh.
    + now intros k [[=]|[]].
    + vm_compute. lia.
  - destruct (C5_service_registration ["443"] "web" "tcp"
                [((["80"], "tcp"), "service-web-tcp")] eq_refl)
      as (Hdup & _).
    apply Hdup. exists (["80"], "tcp"). now left.
  - destruct (C5_service_registration ["443"]
                "a-term-name-that-is-much-too-long-to-make-a-service-name-of-it"
                "tcp" [((["80"], "tcp"), "service-web-tcp")] eq_refl)
      as (_ & Hlong & _).
    apply Hlong.
    + now intros k [[=]|[]].
    + vm_compute. lia.
Defined.

(** ** The option map of a rule *)

Section RuleFacts.
Context {IP : Type} `{NetworkObject IP}.

Lemma ModifyOptions_fields (fz tz : list string) (terms : Term.Term IP)
    (m m' : Service.service_map) (options : Rule.options) :
  Rule.ModifyOptions fz tz terms m = (m', Ok options) ->
  Rule.from_zone options = fz
  /\ Rule.to_zone options = tz
  /\ Rule.description options = policy.comment (Term.term terms)
  /\ Rule.source options
     = Rule.address_options (policy.source_address (Term.term terms))
  /\ Rule.destination options
     = Rule.address_options (policy.destination_address (Term.term terms))
  /\ Rule.logging options
     = Rule.logging_options (policy.logging (Term.term terms)) []
  /\ Rule.action options = hd_error (policy.action (Term.term terms)).
Proof.
  unfold Rule.ModifyOptions.
  destruct (match policy.destination_port (Term.term terms) with
            | [] => _ | _ :: _ => _ end) as [m1 [service|e]];
    intros [= <- <-]; simpl; repeat split; reflexivity.
Qed.
End RuleFacts.

Lemma logging_options_disable (items acc : list string) :
  In "disable" items -> Rule.logging_options items acc = ["disable"].
Proof.
  revert acc. induction items as [|item rest IH]; intros acc Hin;
    [contradiction|].
  simpl. destruct (String.eqb item "disable") eqn:E; [reflexivity|].
  simpl. destruct Hin as [-> | Hin]; [discriminate|].
  destruct (String.eqb item "log-both"); simpl; [now apply IH|].
  destruct (_ || _); now apply IH.
Qed.

Lemma logging_options_append (items acc : list string) :
  ~ In "disable" items ->
  Rule.logging_options items acc = acc ++ flat_map logging_of items.
Proof.
  revert acc.
  induction items as [|item rest IH]; intros acc Hno;
    cbn [Rule.logging_options flat_map].
  - now rewrite app_nil_r.
  - assert (Hitem : Py.str_in item ["disable"] = false).
    { apply str_in_not_In. intros [He | []]. apply Hno. now left. }
    rewrite Hitem. unfold logging_of at 1.
    assert (Hrest : ~ In "disable" rest) by (intros Hr; apply Hno; now right).
    destruct (Py.str_in item ["log-both"]).
    + rewrite IH by assumption. now rewrite <- app_assoc.
    + destruct (Py.str_in item ["True"; "true"; "syslog"; "local"]).
      * rewrite IH by assumption. now rewrite <- app_assoc.
      * now apply IH.
Qed.

Lemma logging_of_values (items : list string) (x : string) :
  In x (flat_map logging_of items) -> x = "log-start" \/ x = "log-end".
Proof.
  rewrite in_flat_map. intros [item [_ Hx]]. unfold logging_of in Hx.
  destruct (Py.str_in item ["log-both"]).
  - simpl in Hx. intuition.
  - destruct (Py.str_in item _); simpl in Hx; intuition.
Qed.

Lemma logging_of_both (items : list string) :
  In "log-both" items ->
  In "log-start" (flat_map logging_of items)
  /\ In "log-end" (flat_map logging_of items).
Proof.
  intros Hin. split; apply in_flat_map; exists "log-both";
    (split; [assumption | simpl; tauto]).
Qed.

Lemma logging_of_end_only (items : list string) :
  ~ In "log-both" items ->
  (In "True" items \/ In "true" items \/ In "syslog" items
   \/ In "local" items) ->
  In "log-end" (flat_map logging_of items)
  /\ ~ In "log-start" (flat_map logging_of items).
Proof.
  intros Hno Hsome. split.
  - apply in_flat_map.
    destruct Hsome as [Hi | [Hi | [Hi | Hi]]];
      eexists; (split; [exact Hi | simpl; tauto]).
  - rewrite in_flat_map. intros [item [Hitem Hx]]. unfold logging_of in Hx.
    destruct (Py.str_in item ["log-both"]) eqn:E.
    + apply str_in_In in E. destruct E as [<- | []]. contradiction.
    + destruct (Py.str_in item ["True"; "true"; "syslog"; "local"]);
        simpl in Hx; [|contradiction].
      destruct Hx as [Hx | []]. discriminate.
Qed.

(** The [<log-...>] elements [logging_lines] renders, by the contents of
    [options["logging"]]. *)
Lemma logging_lines_cases (options : Rule.options) :
  (Rule.logging options = ["disable"] ->
   PaloAltoFW.logging_lines options = [log_start "no"; log_end "no"])
  /\ (~ In "disable" (Rule.logging options) ->
      In "log-start" (Rule.logging options) ->
      In "log-end" (Rule.logging options) ->
      PaloAltoFW.logging_lines options = [log_start "yes"; log_end "yes"])
  /\ (~ In "disable" (Rule.logging options) ->
      ~ In "log-start" (Rule.logging options) ->
      In "log-end" (Rule.logging options) ->
      PaloAltoFW.logging_lines options = [log_end "yes"]).
Proof.
  unfold PaloAltoFW.logging_lines. split; [|split].
  - intros ->. reflexivity.
  - intros Hd Hs He. destruct (Rule.logging options) as [|x l] eqn:E;
      [contradiction|].
    apply str_in_not_In in Hd. apply str_in_In in Hs, He.
    rewrite Hd, Hs, He. reflexivity.
  - intros Hd Hs He. destruct (Rule.logging options) as [|x l] eqn:E;
      [contradiction|].
    apply str_in_not_In in Hd, Hs. apply str_in_In in He.
    rewrite Hd, Hs, He. reflexivity.
Qed.

Lemma no_log_in_members (l : list string) :
  filter is_log_element (PaloAltoFW.members l) = [].
Proof.
  induction l as [|x l IH]; [reflexivity|]. simpl. exact IH.
Qed.

Lemma filter_self_log (options : Rule.options) :
  filter is_log_element (PaloAltoFW.logging_lines options)
  = PaloAltoFW.logging_lines options.
Proof.
  unfold PaloAltoFW.logging_lines.
  destruct (Rule.logging options) as [|x l]; [reflexivity|].
  destruct (Py.str_in "disable" (x :: l)), (Py.str_in "log-start" (x :: l)),
    (Py.str_in "log-end" (x :: l)); reflexivity.
Qed.

Lemma Ok_inj {A : Type} (a b : A) : Ok a = Ok b -> a = b.
Proof. congruence. Qed.

(** A rendered rule is the concatenation of its blocks. *)
Lemma rule_entry_Ok (name : string) (options : Rule.options)
    (lines : list string) :
  PaloAltoFW.rule_entry name options = Ok lines ->
  exists action,
    PaloAltoFW.action_lines options = Ok action
    /\ lines
       = [ (PaloAltoFW.ind 8 ++ "<entry name=" ++ dq ++ name ++ dq
              ++ ">")%string ]
         ++ PaloAltoFW.description_lines options
         ++ PaloAltoFW.zone_lines options
         ++ PaloAltoFW.source_lines options
         ++ PaloAltoFW.destination_lines options
         ++ PaloAltoFW.service_lines options
         ++ action
         ++ PaloAltoFW.rule_type_lines options
         ++ PaloAltoFW.application_lines options
         ++ PaloAltoFW.logging_lines options
         ++ [ (PaloAltoFW.ind 8 ++ "</entry>")%string ].
Proof.
  unfold PaloAltoFW.rule_entry.
  destruct (PaloAltoFW.action_lines options) as [action|e]; [|discriminate].
  intros Hl. apply Ok_inj in Hl. exists action. now split.
Qed.

Lemma no_log_in_action (options : Rule.options) (action : list string) :
  PaloAltoFW.action_lines options = Ok action ->
  filter is_log_element action = [].
Proof.
  unfold PaloAltoFW.action_lines.
  destruct (Rule.action options) as [a|]; [|discriminate].
  destruct (Term.ACTIONS a) as [act|]; [|discriminate].
  intros Hl. apply Ok_inj in Hl. subst. reflexivity.
Qed.

(** The [<log-...>] elements of a rendered rule are those of
    [logging_lines]. *)
Lemma log_elements_of_entry (name : string) (options : Rule.options)
    (lines : list string) :
  PaloAltoFW.rule_entry name options = Ok lines ->
  filter is_log_element lines = PaloAltoFW.logging_lines options.
Proof.
  intros Hl. apply rule_entry_Ok in Hl. destruct Hl as [action [Ha ->]].
  repeat rewrite filter_app.
  rewrite (no_log_in_action _ _ Ha), filter_self_log.
  unfold PaloAltoFW.zone_lines, PaloAltoFW.source_lines,
    PaloAltoFW.destination_lines, PaloAltoFW.service_lines,
    PaloAltoFW.application_lines.
  repeat rewrite filter_app. repeat rewrite no_log_in_members.
  replace (filter is_log_element (PaloAltoFW.description_lines options))
    with (@nil string)
    by (unfold PaloAltoFW.description_lines;
        now destruct (Rule.description options)).
  replace (filter is_log_element (PaloAltoFW.rule_type_lines options))
    with (@nil string)
    by (unfold PaloAltoFW.rule_type_lines;
        destruct (negb _); [reflexivity|]; now destruct (_ && _)).
  cbn. now rewrite app_nil_r.
Qed.

Section TranslationFacts.
Context {IP : Type} `{NetworkObject IP} `{Collaborators IP}.

Lemma same_but_applications_refl (t : policy.Term IP) :
  same_but_applications t t.
Proof.
  unfold same_but_applications, same_but_name_addresses_applications.
  repeat split. exists []. split; [now rewrite app_nil_r | constructor].
Qed.

Lemma same_but_applications_trans (t1 t2 t3 : policy.Term IP) :
  same_but_applications t1 t2 -> same_but_applications t2 t3 ->
  same_but_applications t1 t3.
Proof.
  unfold same_but_applications, same_but_name_addresses_applications.
  intros H12 H23.
  destruct H12 as
    [(? & ? & ? & ? & ? & ? & ? & ? & ? & ? & ? & ? & ? & ? & ? & ?
      & l1 & Hl1 & Hf1) (? & ? & ?)].
  destruct H23 as
    [(? & ? & ? & ? & ? & ? & ? & ? & ? & ? & ? & ? & ? & ? & ? & ?
      & l2 & Hl2 & Hf2) (? & ? & ?)].
  repeat split; try congruence.
  exists (l1 ++ l2). split.
  - rewrite Hl2, Hl1. now rewrite app_assoc.
  - now apply Forall_app.
Qed.

Lemma same_but_applications_append (a : string) (t : policy.Term IP) :
  icmp_application a ->
  same_but_applications t (policy.append_pan_application a t).
Proof.
  intros Ha.
  unfold same_but_applications, same_but_name_addresses_applications.
  repeat split. exists [a]. split; [reflexivity | now constructor].
Qed.

(** The loop over the ICMP types only touches the applications. *)
Lemma icmp_type_loop_frame (icmp_version keyword : string) (risk : Z)
    (names : list string) :
  forall (t : policy.Term IP) (self : PaloAltoFW.PaloAltoFW IP) t' self' e,
    PaloAltoFW.icmp_type_loop icmp_version keyword risk names t self
    = (t', self', e) ->
    same_but_applications t t'
    /\ PaloAltoFW.addressbook self' = PaloAltoFW.addressbook self
    /\ PaloAltoFW.from_zone self' = PaloAltoFW.from_zone self
    /\ PaloAltoFW.to_zone self' = PaloAltoFW.to_zone self
    /\ PaloAltoFW.pafw_policies self' = PaloAltoFW.pafw_policies self.
Proof.
  induction names as [|n rest IH]; intros t self t' self' e; simpl.
  - intros [= <- <- <-]. split; [apply same_but_applications_refl|].
    repeat split.
  - destruct ((if String.eqb icmp_version "icmp" then ICMP_TYPE V4
               else ICMP_TYPE V6) n) as [code|].
    2:{ intros [= <- <- <-]. split; [apply same_but_applications_refl|].
        repeat split. }
    destruct (Py.dict_mem String.eqb _ (PaloAltoFW.application_refs self)).
    + apply IH.
    + intros Hloop. apply IH in Hloop.
      destruct Hloop as (Hsame & Hab & Hfz & Htz & Hpol).
      split; [|now repeat split].
      eapply same_but_applications_trans; [|exact Hsame].
      destruct (Py.str_in _ (policy.pan_application t)).
      * apply same_but_applications_refl.
      * apply same_but_applications_append.
        right. right. exists n.
        destruct (String.eqb icmp_version "icmp"); tauto.
Qed.

Lemma icmp_version_body_frame (icmp_version filter_type : string)
    (flows : list string) (t : policy.Term IP)
    (self : PaloAltoFW.PaloAltoFW IP) t' self' e :
  PaloAltoFW.icmp_version_body icmp_version filter_type flows t self
  = (t', self', e) ->
  same_but_applications t t'
  /\ PaloAltoFW.addressbook self' = PaloAltoFW.addressbook self
  /\ PaloAltoFW.from_zone self' = PaloAltoFW.from_zone self
  /\ PaloAltoFW.to_zone self' = PaloAltoFW.to_zone self
  /\ PaloAltoFW.pafw_policies self' = PaloAltoFW.pafw_policies self.
Proof.
  unfold PaloAltoFW.icmp_version_body.
  assert (Hrefl : forall x : policy.Term IP * PaloAltoFW.PaloAltoFW IP
                               * option Error,
             (t, self, None) = x ->
             same_but_applications t (fst (fst x))
             /\ PaloAltoFW.addressbook (snd (fst x))
                = PaloAltoFW.addressbook self
             /\ PaloAltoFW.from_zone (snd (fst x))
                = PaloAltoFW.from_zone self
             /\ PaloAltoFW.to_zone (snd (fst x)) = PaloAltoFW.to_zone self
             /\ PaloAltoFW.pafw_policies (snd (fst x))
                = PaloAltoFW.pafw_policies self).
  { intros x <-. simpl. split; [apply same_but_applications_refl|].
    repeat split. }
  destruct (_ && _); [intros Hx; apply (Hrefl _ Hx)|].
  destruct (_ && _); [intros Hx; apply (Hrefl _ Hx)|].
  destruct (String.eqb icmp_version "icmp").
  - destruct (String.eqb filter_type "inet6");
      [intros Hx; apply (Hrefl _ Hx)|].
    destruct (PaloAltoFW.is_empty (policy.icmp_type t)).
    + intros [= <- <- <-]. split; [|now repeat split].
      apply same_but_applications_append. now left.
    + apply icmp_type_loop_frame.
  - destruct (String.eqb filter_type "inet");
      [intros Hx; apply (Hrefl _ Hx)|].
    destruct (PaloAltoFW.is_empty (policy.icmp_type t)).
    + intros [= <- <- <-]. split; [|now repeat split].
      apply same_but_applications_append. right. now left.
    + apply icmp_type_loop_frame.
Qed.

Lemma icmp_versions_frame (versions : list string) (filter_type : string)
    (flows : list string) :
  forall (t : policy.Term IP) (self : PaloAltoFW.PaloAltoFW IP) t' self' e,
    PaloAltoFW.icmp_versions versions filter_type flows t self
    = (t', self', e) ->
    same_but_applications t t'
    /\ PaloAltoFW.addressbook self' = PaloAltoFW.addressbook self
    /\ PaloAltoFW.from_zone self' = PaloAltoFW.from_zone self
    /\ PaloAltoFW.to_zone self' = PaloAltoFW.to_zone self
    /\ PaloAltoFW.pafw_policies self' = PaloAltoFW.pafw_policies self.
Proof.
  induction versions as [|v rest IH]; intros t self t' self' e; simpl.
  - intros [= <- <- <-]. split; [apply same_but_applications_refl|].
    repeat split.
  - destruct (negb (PaloAltoFW.has_icmp_protocol t)).
    { intros [= <- <- <-]. split; [apply same_but_applications_refl|].
      repeat split. }
    destruct (PaloAltoFW.icmp_version_body v filter_type flows t self)
      as [[t1 self1] [e1|]] eqn:Ebody;
      apply icmp_version_body_frame in Ebody;
      destruct Ebody as (Hsame & Hab & Hfz & Htz & Hpol).
    + intros [= <- <- <-]. split; [assumption | now repeat split].
    + intros Hrest. apply IH in Hrest.
      destruct Hrest as (Hsame' & Hab' & Hfz' & Htz' & Hpol').
      split; [eapply same_but_applications_trans; eassumption|].
      repeat split; congruence.
Qed.

(** The only exception the ICMP pass raises is the bad-type one. *)
Lemma icmp_type_loop_error (icmp_version keyword : string) (risk : Z)
    (names : list string) :
  forall (t : policy.Term IP) (self : PaloAltoFW.PaloAltoFW IP) t' self' e,
    PaloAltoFW.icmp_type_loop icmp_version keyword risk names t self
    = (t', self', Some e) ->
    exists n type_name, e = PaloAltoFWBadIcmpTypeError n type_name.
Proof.
  induction names as [|n rest IH]; intros t self t' self' e; simpl;
    [discriminate|].
  destruct ((if String.eqb icmp_version "icmp" then ICMP_TYPE V4
             else ICMP_TYPE V6) n) as [code|].
  - destruct (Py.dict_mem String.eqb _ (PaloAltoFW.application_refs self));
      apply IH.
  - intros [= <- <- <-]. eauto.
Qed.

Lemma icmp_versions_error (versions : list string) (filter_type : string)
    (flows : list string) :
  forall (t : policy.Term IP) (self : PaloAltoFW.PaloAltoFW IP) t' self' e,
    PaloAltoFW.icmp_versions versions filter_type flows t self
    = (t', self', Some e) ->
    exists n type_name, e = PaloAltoFWBadIcmpTypeError n type_name.
Proof.
  induction versions as [|v rest IH]; intros t self t' self' e; simpl;
    [discriminate|].
  destruct (negb (PaloAltoFW.has_icmp_protocol t)); [discriminate|].
  destruct (PaloAltoFW.icmp_version_body v filter_type flows t self)
    as [[t1 self1] [e1|]] eqn:Ebody.
  - intros [= <- <- <-]. revert Ebody.
    unfold PaloAltoFW.icmp_version_body.
    repeat match goal with
           | |- context [if ?b then _ else _] => destruct b
           end;
      try discriminate; apply icmp_type_loop_error.
  - apply IH.
Qed.

(** What [resolve_term] leaves alone, and what it appends. *)
Lemma resolve_term_facts (filter_type : string)
    (filter_options : list string) (t : policy.Term IP)
    (st : PaloAltoFW.loop_state IP) t' st' o :
  PaloAltoFW.resolve_term filter_type filter_options t st = (t', st', o) ->
  same_but_applications (PaloAltoFW.subtract_excluded t) t'
  /\ PaloAltoFW.term_dup_check st' = PaloAltoFW.term_dup_check st
  /\ PaloAltoFW.from_zone (PaloAltoFW.self st')
     = PaloAltoFW.from_zone (PaloAltoFW.self st)
  /\ PaloAltoFW.to_zone (PaloAltoFW.self st')
     = PaloAltoFW.to_zone (PaloAltoFW.self st)
  /\ PaloAltoFW.pafw_policies (PaloAltoFW.self st')
     = PaloAltoFW.pafw_policies (PaloAltoFW.self st)
  /\ (o = PaloAltoFW.Emitted ->
      PaloAltoFW.new_terms st'
      = PaloAltoFW.new_terms st
        ++ [Term.__init__ t' filter_type filter_options])
  /\ (o <> PaloAltoFW.Emitted ->
      PaloAltoFW.new_terms st' = PaloAltoFW.new_terms st)
  /\ (forall n, o <> PaloAltoFW.Rejected (PaloAltoFWDuplicateTermError n))
  /\ (forall n, o <> PaloAltoFW.Rejected (TermNameTooLongError n)).
Proof.
  unfold PaloAltoFW.resolve_term.
  destruct (PaloAltoFW.address_family_gate _ _ _ _ _) as [[exclude|] w].
  2:{ intros [= <- <- <-]. split; [apply same_but_applications_refl|].
      simpl. repeat split; congruence. }
  destruct (_ && _).
  { intros [= <- <- <-]. split; [apply same_but_applications_refl|].
    simpl. repeat split; congruence. }
  destruct (PaloAltoFW.icmp_versions _ _ _ _ _) as [[t1 s1] [e|]] eqn:Eicmp.
  - pose proof (icmp_versions_error _ _ _ _ _ _ _ _ Eicmp) as [n [tn ->]].
    apply icmp_versions_frame in Eicmp.
    destruct Eicmp as (Hsame & Hab & Hfz & Htz & Hpol). simpl in *.
    intros [= <- <- <-]. split; [assumption|]. simpl.
    repeat split; congruence.
  - apply icmp_versions_frame in Eicmp.
    destruct Eicmp as (Hsame & Hab & Hfz & Htz & Hpol). simpl in *.
    destruct (PaloAltoFW.unsupported_protocol t1);
      intros [= <- <- <-]; (split; [assumption|]); simpl;
      repeat split; congruence.
Qed.

Lemma not_skipped_None (t : policy.Term IP) (fz tz : string) :
  not_skipped t <-> PaloAltoFW.skipped t fz tz = None.
Proof.
  unfold not_skipped, PaloAltoFW.skipped. rewrite <- !str_in_not_In.
  destruct (policy.stateless_reply t);
    destruct (Py.str_in "established" (policy.option_ t));
    destruct (Py.str_in "tcp-established" (policy.option_ t));
    split; intros; try discriminate; try tauto;
    repeat match goal with Hc : _ /\ _ |- _ => destruct Hc end;
    discriminate.
Qed.

Lemma subtract_excluded_frame (t : policy.Term IP) :
  same_but_name_addresses_applications t (PaloAltoFW.subtract_excluded t)
  /\ policy.name (PaloAltoFW.subtract_excluded t) = policy.name t.
Proof.
  unfold same_but_name_addresses_applications. simpl.
  repeat split. exists []. split; [now rewrite app_nil_r | constructor].
Qed.

Lemma frame_then_applications (t1 t2 t3 : policy.Term IP) :
  same_but_name_addresses_applications t1 t2 ->
  same_but_applications t2 t3 ->
  same_but_name_addresses_applications t1 t3.
Proof.
  unfold same_but_applications, same_but_name_addresses_applications.
  intros H12 H23.
  destruct H12 as
    (? & ? & ? & ? & ? & ? & ? & ? & ? & ? & ? & ? & ? & ? & ? & ?
     & l1 & Hl1 & Hf1).
  destruct H23 as
    [(? & ? & ? & ? & ? & ? & ? & ? & ? & ? & ? & ? & ? & ? & ? & ?
      & l2 & Hl2 & Hf2) (? & ? & ?)].
  repeat split; try congruence.
  exists (l1 ++ l2). split.
  - rewrite Hl2, Hl1. now rewrite app_assoc.
  - now apply Forall_app.
Qed.

Lemma frame_trans (t1 t2 t3 : policy.Term IP) :
  same_but_name_addresses_applications t1 t2 ->
  same_but_name_addresses_applications t2 t3 ->
  same_but_name_addresses_applications t1 t3.
Proof.
  unfold same_but_name_addresses_applications.
  intros H12 H23.
  destruct H12 as
    (? & ? & ? & ? & ? & ? & ? & ? & ? & ? & ? & ? & ? & ? & ? & ?
     & l1 & Hl1 & Hf1).
  destruct H23 as
    (? & ? & ? & ? & ? & ? & ? & ? & ? & ? & ? & ? & ? & ? & ? & ?
     & l2 & Hl2 & Hf2).
  repeat split; try congruence.
  exists (l1 ++ l2). split.
  - rewrite Hl2, Hl1. now rewrite app_assoc.
  - now apply Forall_app.
Qed.

Lemma frame_refl (t : policy.Term IP) :
  same_but_name_addresses_applications t t.
Proof. apply same_but_applications_refl. Qed.

Lemma set_name_frame (n : string) (t : policy.Term IP) :
  same_but_name_addresses_applications t (policy.set_name n t).
Proof.
  unfold same_but_name_addresses_applications. simpl.
  repeat split. exists []. split; [now rewrite app_nil_r | constructor].
Qed.

(** The iteration on a term that is skipped, or whose name is refused. *)
Lemma translate_term_skipped (filter_type : string)
    (filter_options : list string) (cd ed : Z) (t : policy.Term IP)
    (st : PaloAltoFW.loop_state IP) (w : PaloAltoFW.LogRecord) :
  PaloAltoFW.skipped t (PaloAltoFW.from_zone (PaloAltoFW.self st))
    (PaloAltoFW.to_zone (PaloAltoFW.self st)) = Some w ->
  PaloAltoFW.translate_term filter_type filter_options cd ed t st
  = (t, PaloAltoFW.add_log [w] st, PaloAltoFW.Dropped).
Proof. unfold PaloAltoFW.translate_term. now intros ->. Qed.

Lemma translate_term_name_error (filter_type : string)
    (filter_options : list string) (cd ed : Z) (t : policy.Term IP)
    (st : PaloAltoFW.loop_state IP) :
  not_skipped t ->
  FixTermLength PaloAltoFW._TERM_MAX_LENGTH (policy.name t) = None ->
  PaloAltoFW.translate_term filter_type filter_options cd ed t st
  = (t, st, PaloAltoFW.Rejected (TermNameTooLongError (policy.name t))).
Proof.
  intros Hs He. unfold PaloAltoFW.translate_term.
  apply (not_skipped_None t (PaloAltoFW.from_zone (PaloAltoFW.self st))
           (PaloAltoFW.to_zone (PaloAltoFW.self st))) in Hs.
  now rewrite Hs, He.
Qed.

Lemma translate_term_duplicate (filter_type : string)
    (filter_options : list string) (cd ed : Z) (t : policy.Term IP)
    (st : PaloAltoFW.loop_state IP) (fixed : string) :
  not_skipped t ->
  FixTermLength PaloAltoFW._TERM_MAX_LENGTH (policy.name t) = Some fixed ->
  In fixed (PaloAltoFW.term_dup_check st) ->
  PaloAltoFW.translate_term filter_type filter_options cd ed t st
  = (policy.set_name fixed t, st,
     PaloAltoFW.Rejected (PaloAltoFWDuplicateTermError fixed)).
Proof.
  intros Hs Hf Hin. unfold PaloAltoFW.translate_term.
  apply (not_skipped_None t (PaloAltoFW.from_zone (PaloAltoFW.self st))
           (PaloAltoFW.to_zone (PaloAltoFW.self st))) in Hs.
  rewrite Hs, Hf. simpl. apply str_in_In in Hin. now rewrite Hin.
Qed.

(** The iteration on a term whose fixed name is new: the name enters
    [term_dup_check] whatever becomes of the term, and no
    duplicate-term or name-length error follows. *)
Lemma translate_term_fresh (filter_type : string)
    (filter_options : list string) (cd ed : Z) (t : policy.Term IP)
    (st : PaloAltoFW.loop_state IP) (fixed : string) t' st' o :
  not_skipped t ->
  FixTermLength PaloAltoFW._TERM_MAX_LENGTH (policy.name t) = Some fixed ->
  ~ In fixed (PaloAltoFW.term_dup_check st) ->
  PaloAltoFW.translate_term filter_type filter_options cd ed t st
  = (t', st', o) ->
  PaloAltoFW.term_dup_check st' = PaloAltoFW.term_dup_check st ++ [fixed]
  /\ policy.name t' = fixed
  /\ (forall n, o <> PaloAltoFW.Rejected (PaloAltoFWDuplicateTermError n))
  /\ (forall n, o <> PaloAltoFW.Rejected (TermNameTooLongError n)).
Proof.
  intros Hs Hf Hnew. unfold PaloAltoFW.translate_term.
  apply (not_skipped_None t (PaloAltoFW.from_zone (PaloAltoFW.self st))
           (PaloAltoFW.to_zone (PaloAltoFW.self st))) in Hs.
  rewrite Hs, Hf. simpl. apply str_in_not_In in Hnew. rewrite Hnew.
  destruct (PaloAltoFW.expiration_check _ _ _ _ _) as [w [|]].
  - intros [= <- <- <-]. simpl. unfold Py.set_add. rewrite Hnew.
    repeat split; congruence.
  - intros Hr. apply resolve_term_facts in Hr.
    destruct Hr as (Hsame & Hdup & _ & _ & _ & _ & _ & Hnd & Hnl).
    rewrite Hdup. simpl. unfold Py.set_add. rewrite Hnew.
    destruct Hsame as (_ & Hname & _). rewrite Hname. simpl.
    repeat split; assumption.
Qed.

(** What an iteration leaves alone, whatever becomes of the term. *)
Lemma translate_term_facts (filter_type : string)
    (filter_options : list string) (cd ed : Z) (t : policy.Term IP)
    (st : PaloAltoFW.loop_state IP) t' st' o :
  PaloAltoFW.translate_term filter_type filter_options cd ed t st
  = (t', st', o) ->
  same_but_name_addresses_applications t t'
  /\ PaloAltoFW.from_zone (PaloAltoFW.self st')
     = PaloAltoFW.from_zone (PaloAltoFW.self st)
  /\ PaloAltoFW.to_zone (PaloAltoFW.self st')
     = PaloAltoFW.to_zone (PaloAltoFW.self st)
  /\ PaloAltoFW.pafw_policies (PaloAltoFW.self st')
     = PaloAltoFW.pafw_policies (PaloAltoFW.self st)
  /\ (o = PaloAltoFW.Emitted ->
      PaloAltoFW.new_terms st'
      = PaloAltoFW.new_terms st
        ++ [Term.__init__ t' filter_type filter_options]
      /\ policy.source_address t'
         = fold_left RemoveAddressFromList
             (policy.source_address_exclude t) (policy.source_address t)
      /\ policy.destination_address t'
         = fold_left RemoveAddressFromList
             (policy.destination_address_exclude t)
             (policy.destination_address t))
  /\ (o <> PaloAltoFW.Emitted ->
      PaloAltoFW.new_terms st' = PaloAltoFW.new_terms st).
Proof.
  unfold PaloAltoFW.translate_term.
  destruct (PaloAltoFW.skipped _ _ _) as [w|].
  { intros [= <- <- <-]. split; [apply frame_refl|]. simpl.
    repeat split; congruence. }
  destruct (FixTermLength _ _) as [fixed|].
  2:{ intros [= <- <- <-]. split; [apply frame_refl|]. simpl.
      repeat split; congruence. }
  destruct (Py.str_in _ _).
  { intros [= <- <- <-]. split; [apply set_name_frame|]. simpl.
    repeat split; congruence. }
  destruct (PaloAltoFW.expiration_check _ _ _ _ _) as [w [|]].
  { intros [= <- <- <-]. split; [apply set_name_frame|]. simpl.
    repeat split; congruence. }
  intros Hr. apply resolve_term_facts in Hr.
  destruct Hr as (Hsame & _ & Hfz & Htz & Hpol & Hem & Hnem & _ & _).
  simpl in *. split.
  - eapply frame_then_applications; [|exact Hsame].
    eapply frame_trans; [apply set_name_frame|].
    apply subtract_excluded_frame.
  - repeat split; try assumption; try (now apply Hem).
    + destruct Hsame as (_ & _ & Hsrc & _). now rewrite Hsrc.
    + destruct Hsame as (_ & _ & _ & Hdst). now rewrite Hdst.
Qed.
End TranslationFacts.

Section LoopFacts.
Context {IP : Type} `{NetworkObject IP} `{Collaborators IP}.

(** How one iteration changes [term_dup_check]. *)
Lemma translate_term_dup_check (ft : string) (fo : list string) (cd ed : Z)
    (t : policy.Term IP) (st : PaloAltoFW.loop_state IP) t' st' o :
  PaloAltoFW.translate_term ft fo cd ed t st = (t', st', o) ->
  PaloAltoFW.term_dup_check st' = PaloAltoFW.term_dup_check st
  \/ (not_skipped t
      /\ exists fixed,
           fixed_name t = Some fixed
           /\ ~ In fixed (PaloAltoFW.term_dup_check st)
           /\ PaloAltoFW.term_dup_check st'
              = PaloAltoFW.term_dup_check st ++ [fixed]).
Proof.
  intros Ht.
  destruct (PaloAltoFW.skipped t (PaloAltoFW.from_zone (PaloAltoFW.self st))
              (PaloAltoFW.to_zone (PaloAltoFW.self st))) as [w|] eqn:Es.
  { rewrite (translate_term_skipped _ _ _ _ _ _ _ Es) in Ht.
    injection Ht as <- <- <-. now left. }
  apply not_skipped_None in Es.
  destruct (fixed_name t) as [fixed|] eqn:Ef.
  2:{ rewrite (translate_term_name_error _ _ _ _ _ _ Es Ef) in Ht.
      injection Ht as <- <- <-. now left. }
  destruct (in_dec string_dec fixed (PaloAltoFW.term_dup_check st))
    as [Hin | Hnew].
  { rewrite (translate_term_duplicate _ _ _ _ _ _ _ Es Ef Hin) in Ht.
    injection Ht as <- <- <-. now left. }
  right. split; [assumption|]. exists fixed.
  destruct (translate_term_fresh _ _ _ _ _ _ _ _ _ _ Es Ef Hnew Ht)
    as (Hd & _). auto.
Qed.

(** A duplicate-term error comes from the test on [term_dup_check]. *)
Lemma translate_term_duplicate_inv (ft : string) (fo : list string)
    (cd ed : Z) (t : policy.Term IP) (st : PaloAltoFW.loop_state IP)
    t' st' n :
  PaloAltoFW.translate_term ft fo cd ed t st
  = (t', st', PaloAltoFW.Rejected (PaloAltoFWDuplicateTermError n)) ->
  not_skipped t /\ fixed_name t = Some n
  /\ In n (PaloAltoFW.term_dup_check st).
Proof.
  intros Ht.
  destruct (PaloAltoFW.skipped t (PaloAltoFW.from_zone (PaloAltoFW.self st))
              (PaloAltoFW.to_zone (PaloAltoFW.self st))) as [w|] eqn:Es.
  { rewrite (translate_term_skipped _ _ _ _ _ _ _ Es) in Ht.
    discriminate. }
  apply not_skipped_None in Es.
  destruct (fixed_name t) as [fixed|] eqn:Ef.
  2:{ rewrite (translate_term_name_error _ _ _ _ _ _ Es Ef) in Ht.
      discriminate. }
  destruct (in_dec string_dec fixed (PaloAltoFW.term_dup_check st))
    as [Hin | Hnew].
  - rewrite (translate_term_duplicate _ _ _ _ _ _ _ Es Ef Hin) in Ht.
    injection Ht as _ _ <-. auto.
  - destruct (translate_term_fresh _ _ _ _ _ _ _ _ _ _ Es Ef Hnew Ht)
      as (_ & _ & Hnd & _). now elim (Hnd n).
Qed.

(** The loop over a concatenation. *)
Lemma translate_terms_app (ft : string) (fo : list string) (cd ed : Z)
    (pre post : list (policy.Term IP)) :
  forall st,
    PaloAltoFW.translate_terms ft fo cd ed (pre ++ post) st
    = match PaloAltoFW.translate_terms ft fo cd ed pre st with
      | (pre', st1, Some e) => (pre' ++ post, st1, Some e)
      | (pre', st1, None) =>
          match PaloAltoFW.translate_terms ft fo cd ed post st1 with
          | (post', st2, e) => (pre' ++ post', st2, e)
          end
      end.
Proof.
  induction pre as [|t pre IH]; intros st; simpl.
  - now destruct (PaloAltoFW.translate_terms ft fo cd ed post st)
      as [[post' st2] e].
  - destruct (PaloAltoFW.translate_term ft fo cd ed t st)
      as [[t' st'] [| |e]]; try reflexivity;
      rewrite IH;
      destruct (PaloAltoFW.translate_terms ft fo cd ed pre st')
        as [[pre' st1] [e1|]]; try reflexivity;
      now destruct (PaloAltoFW.translate_terms ft fo cd ed post st1)
        as [[post' st2] e2].
Qed.

(** [term_dup_check] only grows. *)
Lemma translate_terms_dup_incl (ft : string) (fo : list string) (cd ed : Z)
    (terms : list (policy.Term IP)) :
  forall st terms' st' e,
    PaloAltoFW.translate_terms ft fo cd ed terms st = (terms', st', e) ->
    incl (PaloAltoFW.term_dup_check st) (PaloAltoFW.term_dup_check st').
Proof.
  induction terms as [|t terms IH]; intros st terms' st' e; simpl.
  - intros [= _ <- _]. apply incl_refl.
  - destruct (PaloAltoFW.translate_term ft fo cd ed t st)
      as [[t1 st1] o] eqn:Et.
    assert (Hstep : incl (PaloAltoFW.term_dup_check st)
                      (PaloAltoFW.term_dup_check st1)).
    { destruct (translate_term_dup_check _ _ _ _ _ _ _ _ _ Et)
        as [-> | (_ & fixed & _ & _ & ->)];
        [apply incl_refl | apply incl_appl, incl_refl]. }
    destruct o as [| |e1];
      try (destruct (PaloAltoFW.translate_terms ft fo cd ed terms st1)
             as [[rest' st2] e2] eqn:Er;
           intros [= _ <- _];
           eapply incl_tran; [exact Hstep | eapply IH; exact Er]).
    now intros [= _ <- _].
Qed.

(** After a loop without exception the fixed name of every term that
    was not skipped is in [term_dup_check]. *)
Lemma translate_terms_names_checked (ft : string) (fo : list string)
    (cd ed : Z) (terms : list (policy.Term IP)) :
  forall st terms' st',
    PaloAltoFW.translate_terms ft fo cd ed terms st = (terms', st', None) ->
    forall t, In t terms -> not_skipped t ->
      exists fixed,
        fixed_name t = Some fixed
        /\ In fixed (PaloAltoFW.term_dup_check st').
Proof.
  induction terms as [|t0 terms IH]; intros st terms' st' Hloop t Hin Hns;
    [contradiction|].
  simpl in Hloop.
  destruct (PaloAltoFW.translate_term ft fo cd ed t0 st)
    as [[t1 st1] o] eqn:Et.
  assert (Hrest : exists rest',
             PaloAltoFW.translate_terms ft fo cd ed terms st1
             = (rest', st', None)).
  { destruct o as [| |e1]; [| |discriminate];
      destruct (PaloAltoFW.translate_terms ft fo cd ed terms st1)
        as [[rest' st2] e2];
      injection Hloop as _ <- ->; now exists rest'. }
  destruct Hrest as [rest' Hrest].
  destruct Hin as [<- | Hin]; [|now apply (IH _ _ _ Hrest)].
  assert (Hok : forall e, o <> PaloAltoFW.Rejected e).
  { intros e ->. discriminate. }
  destruct (fixed_name t0) as [fixed|] eqn:Ef.
  2:{ rewrite (translate_term_name_error _ _ _ _ _ _ Hns Ef) in Et.
      injection Et as _ _ <-. exfalso. eapply Hok. reflexivity. }
  exists fixed. split; [reflexivity|].
  apply (translate_terms_dup_incl _ _ _ _ _ _ _ _ _ Hrest).
  destruct (in_dec string_dec fixed (PaloAltoFW.term_dup_check st))
    as [Hdup | Hnew].
  - rewrite (translate_term_duplicate _ _ _ _ _ _ _ Hns Ef Hdup) in Et.
    injection Et as _ _ <-. exfalso. eapply Hok. reflexivity.
  - destruct (translate_term_fresh _ _ _ _ _ _ _ _ _ _ Hns Ef Hnew Et)
      as (-> & _). apply in_or_app. right. now left.
Qed.

(** The shape of a step of the loop. *)
Lemma translate_terms_cons (ft : string) (fo : list string) (cd ed : Z)
    (t : policy.Term IP) (terms : list (policy.Term IP)) st terms' st' e :
  PaloAltoFW.translate_terms ft fo cd ed (t :: terms) st = (terms', st', e)
  ->
  exists t1 st1 o,
    PaloAltoFW.translate_term ft fo cd ed t st = (t1, st1, o)
    /\ ((exists e1, o = PaloAltoFW.Rejected e1 /\ e = Some e1
                    /\ terms' = t1 :: terms /\ st' = st1)
        \/ ((forall e1, o <> PaloAltoFW.Rejected e1)
            /\ exists rest',
                 PaloAltoFW.translate_terms ft fo cd ed terms st1
                 = (rest', st', e)
                 /\ terms' = t1 :: rest')).
Proof.
  simpl.
  destruct (PaloAltoFW.translate_term ft fo cd ed t st)
    as [[t1 st1] o] eqn:Et.
  intros Hloop. exists t1, st1, o. split; [reflexivity|].
  destruct o as [| |e1].
  3:{ left. exists e1. injection Hloop as <- <- <-. auto. }
  all: right; split; [discriminate|];
    destruct (PaloAltoFW.translate_terms ft fo cd ed terms st1)
      as [[rest' st2] e2];
    injection Hloop as <- <- <-; now exists rest'.
Qed.

(** The term a duplicate-term error of the loop was raised on. *)
Lemma translate_terms_duplicate_term (ft : string) (fo : list string)
    (cd ed : Z) (terms : list (policy.Term IP)) (n : string) :
  forall st terms' st',
    PaloAltoFW.translate_terms ft fo cd ed terms st
    = (terms', st', Some (PaloAltoFWDuplicateTermError n)) ->
    exists mid t2 post,
      terms = mid ++ t2 :: post /\ not_skipped t2
      /\ fixed_name t2 = Some n.
Proof.
  induction terms as [|t0 terms IH]; intros st terms' st' Hloop;
    [discriminate|].
  apply translate_terms_cons in Hloop.
  destruct Hloop as (t1 & st1 & o & Et & [Hrej | [_ Hcont]]).
  - destruct Hrej as (e1 & -> & [= <-] & _ & _).
    apply translate_term_duplicate_inv in Et.
    exists [], t0, terms. tauto.
  - destruct Hcont as (rest' & Hrest & _).
    destruct (IH _ _ _ Hrest) as (mid & t2 & post & -> & Hk).
    exists (t0 :: mid), t2, post. now split.
Qed.

(** A duplicate-term error of the loop names a fixed name that was
    checked before: it was in [term_dup_check] at the start, or two terms
    of the loop collide on it. *)
Lemma translate_terms_duplicate_origin (ft : string) (fo : list string)
    (cd ed : Z) (terms : list (policy.Term IP)) (n : string) :
  forall st terms' st',
    PaloAltoFW.translate_terms ft fo cd ed terms st
    = (terms', st', Some (PaloAltoFWDuplicateTermError n)) ->
    In n (PaloAltoFW.term_dup_check st) \/ colliding_terms terms n.
Proof.
  induction terms as [|t0 terms IH]; intros st terms' st' Hloop;
    [discriminate|].
  apply translate_terms_cons in Hloop.
  destruct Hloop as (t1 & st1 & o & Et & [Hrej | [_ Hcont]]).
  - destruct Hrej as (e1 & -> & [= <-] & _ & _).
    left. now apply translate_term_duplicate_inv in Et.
  - destruct Hcont as (rest' & Hrest & _).
    destruct (IH _ _ _ Hrest) as [Hin | Hcol].
    + destruct (translate_term_dup_check _ _ _ _ _ _ _ _ _ Et)
        as [Heq | (Hns & fixed & Hf & Hnew & Heq)].
      * left. now rewrite <- Heq.
      * rewrite Heq in Hin. apply in_app_or in Hin.
        destruct Hin as [Hin | [<- | []]]; [now left|].
        right.
        destruct (translate_terms_duplicate_term _ _ _ _ _ _ _ _ _ Hrest)
          as (mid & t2 & post & -> & Hn2 & Hf2).
        exists [], t0, mid, t2, post. auto 7.
    + right. destruct Hcol as (pre & t1' & mid & t2 & post & -> & Hk).
      exists (t0 :: pre), t1', mid, t2, post. now split.
Qed.
End LoopFacts.

Section HeaderFacts.
Context {IP : Type} `{NetworkObject IP} `{Collaborators IP}.

(** A term with the fixed name of an earlier term of the loop stops the
    loop with the duplicate-term error. *)
Lemma translate_terms_duplicate (ft : string) (fo : list string) (cd ed : Z)
    (pre post : list (policy.Term IP)) (t1 t2 : policy.Term IP)
    (st : PaloAltoFW.loop_state IP) pre' st1 :
  PaloAltoFW.translate_terms ft fo cd ed pre st = (pre', st1, None) ->
  In t1 pre -> not_skipped t1 -> not_skipped t2 ->
  policy.name t2 = policy.name t1 ->
  exists fixed,
    fixed_name t1 = Some fixed
    /\ PaloAltoFW.translate_terms ft fo cd ed (pre ++ t2 :: post) st
       = (pre' ++ policy.set_name fixed t2 :: post, st1,
          Some (PaloAltoFWDuplicateTermError fixed)).
Proof.
  intros Hpre Hin Hn1 Hn2 Hname.
  destruct (translate_terms_names_checked _ _ _ _ _ _ _ _ Hpre t1 Hin Hn1)
    as (fixed & Hf & Hdup).
  exists fixed. split; [assumption|].
  rewrite translate_terms_app, Hpre. simpl.
  assert (Hf2 : fixed_name t2 = Some fixed)
    by (unfold fixed_name in *; now rewrite Hname).
  now rewrite (translate_term_duplicate _ _ _ _ _ _ _ Hn2 Hf2 Hdup).
Qed.

Lemma service_for_error (ports : list string) (term_name p : string)
    (m m' : Service.service_map) (e : Error) :
  Rule.service_for ports term_name p m = (m', Raise e) ->
  m' = m /\ rule_error e.
Proof.
  unfold Rule.service_for.
  destruct (Service.lookup (ports, p) m); [discriminate|].
  destruct (Service.__init__ ports term_name p m) as [m1|e1] eqn:Ei.
  - revert Ei. unfold Service.__init__.
    destruct (Service.contains (ports, p) m); [discriminate|].
    destruct (existsb _ m); [discriminate|].
    destruct (Nat.ltb _ _); [discriminate|].
    intros [= <-]. unfold Service.lookup.
    now rewrite (dict_get_set_same _ key_eqb_eq).
  - intros [= <- <-]. split; [reflexivity|]. revert Ei.
    unfold Service.__init__, rule_error.
    destruct (Service.contains (ports, p) m); [intros [= <-]; eauto|].
    destruct (existsb _ m); [intros [= <-]; eauto|].
    destruct (Nat.ltb _ _); [intros [= <-]; eauto | discriminate].
Qed.

Lemma service_options_error (ports : list string) (term_name : string)
    (protocols : list string) :
  forall acc m m' e,
    Rule.service_options ports term_name protocols acc m = (m', Raise e) ->
    rule_error e.
Proof.
  induction protocols as [|p rest IH]; intros acc m m' e; simpl;
    [discriminate|].
  destruct (Rule.service_for ports term_name p m) as [m1 [n|e1]] eqn:Es.
  - apply IH.
  - intros [= _ <-]. now apply service_for_error in Es.
Qed.

Lemma Rule_init_error (fz tz : string) (term : Term.Term IP)
    (m m' : Service.service_map) (e : Error) :
  Rule.__init__ fz tz term m = (m', Raise e) -> rule_error e.
Proof.
  unfold Rule.__init__.
  destruct (_ || _); [intros [= _ <-]; now left|].
  unfold Rule.ModifyOptions.
  destruct (policy.destination_port (Term.term term)); [discriminate|].
  destruct (Rule.service_options _ _ _ _ _) as [m1 [names|e1]] eqn:Es;
    [discriminate|].
  intros [= _ <-]. now apply service_options_error in Es.
Qed.

Lemma build_ruleset_error (fz tz : string)
    (new_terms : list (Term.Term IP)) :
  forall ruleset m ruleset' m' e,
    PaloAltoFW.build_ruleset fz tz new_terms ruleset m
    = (ruleset', m', Some e) ->
    rule_error e.
Proof.
  induction new_terms as [|t rest IH]; intros ruleset m ruleset' m' e;
    simpl; [discriminate|].
  destruct (Rule.__init__ fz tz t m) as [m1 [o|e1]] eqn:Er.
  - apply IH.
  - intros [= _ _ <-]. now apply Rule_init_error in Er.
Qed.

(** A duplicate-term error of a header comes from two of its own
    terms. *)
Lemma translate_header_duplicate_origin (cd ed : Z) (header : policy.Header)
    (terms : list (policy.Term IP)) (st : PaloAltoFW.State IP)
    terms' st' (n : string) :
  PaloAltoFW.translate_header cd ed header terms st
  = (terms', st', Some (PaloAltoFWDuplicateTermError n)) ->
  colliding_terms terms n.
Proof.
  unfold PaloAltoFW.translate_header.
  destruct (negb _); [discriminate|].
  destruct (_ || _); [discriminate|].
  destruct (negb _); [discriminate|].
  destruct (PaloAltoFW.translate_terms _ _ _ _ _ _)
    as [[terms1 lst] [e|]] eqn:El.
  - intros [= _ _ ->].
    apply translate_terms_duplicate_origin in El.
    destruct El as [[] | Hcol]. exact Hcol.
  - destruct (PaloAltoFW.build_ruleset _ _ _ _ _)
      as [[ruleset m] [e|]] eqn:Eb; [|discriminate].
    intros [= _ _ ->]. apply build_ruleset_error in Eb.
    destruct Eb as [Hb | [[w Hb] | [w Hb]]]; discriminate.
Qed.

Lemma translate_filters_duplicate_origin (cd ed : Z)
    (filters : policy.Policy IP) (n : string) :
  forall st filters' st',
    PaloAltoFW.translate_filters cd ed filters st
    = (filters', st', Some (PaloAltoFWDuplicateTermError n)) ->
    exists header terms,
      In (header, terms) filters /\ colliding_terms terms n.
Proof.
  induction filters as [|[header terms] rest IH]; intros st filters' st';
    simpl; [discriminate|].
  destruct (PaloAltoFW.translate_header cd ed header terms st)
    as [[terms1 st1] [e|]] eqn:Eh.
  - intros [= _ _ ->]. apply translate_header_duplicate_origin in Eh.
    exists header, terms. split; [now left | assumption].
  - destruct (PaloAltoFW.translate_filters cd ed rest st1)
      as [[rest' st2] e2] eqn:Er.
    intros [= _ _ ->]. destruct (IH _ _ _ Er) as (h & ts & Hin & Hcol).
    exists h, ts. split; [now right | assumption].
Qed.
End HeaderFacts.

Section FrameFacts.
Context {IP : Type} `{NetworkObject IP} `{Collaborators IP}.

Lemma translated_from_refl (t : policy.Term IP) : translated_from t t.
Proof.
  split; [apply frame_refl|]. split; [now left | left; now split].
Qed.

Lemma translate_term_changes (ft : string) (fo : list string) (cd ed : Z)
    (t : policy.Term IP) (st : PaloAltoFW.loop_state IP) t' st' o :
  PaloAltoFW.translate_term ft fo cd ed t st = (t', st', o) ->
  translated_from t t'.
Proof.
  intros Ht. split; [now apply translate_term_facts in Ht|].
  revert Ht. unfold PaloAltoFW.translate_term, fixed_name.
  destruct (PaloAltoFW.skipped _ _ _) as [w|].
  { intros [= <- _ _]. split; [now left | left; now split]. }
  destruct (FixTermLength _ _) as [fixed|].
  2:{ intros [= <- _ _]. split; [now left | left; now split]. }
  destruct (Py.str_in _ _).
  { intros [= <- _ _]. split; [now right | left; now split]. }
  destruct (PaloAltoFW.expiration_check _ _ _ _ _) as [w [|]].
  { intros [= <- _ _]. split; [now right | left; now split]. }
  intros Hr. apply resolve_term_facts in Hr.
  destruct Hr as ((_ & Hname & Hsrc & Hdst) & _).
  split.
  - right. now rewrite Hname.
  - right. now rewrite Hsrc, Hdst.
Qed.

Lemma translate_terms_changes (ft : string) (fo : list string) (cd ed : Z)
    (terms : list (policy.Term IP)) :
  forall st terms' st' e,
    PaloAltoFW.translate_terms ft fo cd ed terms st = (terms', st', e) ->
    Forall2 translated_from terms terms'.
Proof.
  induction terms as [|t terms IH]; intros st terms' st' e Hloop.
  - injection Hloop as <- _ _. constructor.
  - apply translate_terms_cons in Hloop.
    destruct Hloop as (t1 & st1 & o & Et & Hcase).
    apply translate_term_changes in Et.
    destruct Hcase as [(e1 & _ & _ & -> & _) | (_ & rest' & Hrest & ->)].
    + constructor; [assumption|].
      clear. induction terms; constructor;
        [apply translated_from_refl | assumption].
    + constructor; [assumption | eapply IH; exact Hrest].
Qed.

Lemma Forall2_translated_refl (terms : list (policy.Term IP)) :
  Forall2 translated_from terms terms.
Proof.
  induction terms; constructor; [apply translated_from_refl | assumption].
Qed.

Lemma translate_header_changes (cd ed : Z) (header : policy.Header)
    (terms : list (policy.Term IP)) (st : PaloAltoFW.State IP)
    terms' st' e :
  PaloAltoFW.translate_header cd ed header terms st = (terms', st', e) ->
  Forall2 translated_from terms terms'.
Proof.
  unfold PaloAltoFW.translate_header.
  destruct (negb _); [intros [= <- _ _]; apply Forall2_translated_refl|].
  destruct (_ || _); [intros [= <- _ _]; apply Forall2_translated_refl|].
  destruct (negb _); [intros [= <- _ _]; apply Forall2_translated_refl|].
  destruct (PaloAltoFW.translate_terms _ _ _ _ _ _)
    as [[terms1 lst] [e1|]] eqn:El;
    apply translate_terms_changes in El.
  - now intros [= <- _ _].
  - destruct (PaloAltoFW.build_ruleset _ _ _ _ _) as [[ruleset m] [e2|]];
      now intros [= <- _ _].
Qed.

Lemma translate_filters_changes (cd ed : Z) (filters : policy.Policy IP) :
  forall st filters' st' e,
    PaloAltoFW.translate_filters cd ed filters st = (filters', st', e) ->
    policy_translated_from filters filters'.
Proof.
  induction filters as [|[header terms] rest IH];
    intros st filters' st' e; simpl.
  - intros [= <- _ _]. constructor.
  - destruct (PaloAltoFW.translate_header cd ed header terms st)
      as [[terms1 st1] [e1|]] eqn:Eh;
      apply translate_header_changes in Eh.
    + intros [= <- _ _]. constructor; [now split|].
      clear. induction rest as [|f rest IHr]; constructor;
        [split; [reflexivity | apply Forall2_translated_refl]
        | assumption].
    + destruct (PaloAltoFW.translate_filters cd ed rest st1)
        as [[rest' st2] e2] eqn:Er.
      intros [= <- _ _]. constructor; [now split|].
      eapply IH; exact Er.
Qed.
End FrameFacts.

Section FlowFacts.
Context {IP : Type} `{NetworkObject IP} `{Collaborators IP}.

Lemma afc_all (v : IPVersion) (l : list IP) :
  (forall a, In a l -> version a = v) -> PaloAltoFW.afc v l = length l.
Proof.
  unfold PaloAltoFW.afc. induction l as [|a l IH]; intros Hall;
    [reflexivity|].
  simpl. rewrite (Hall a) by now left.
  replace (version_eqb v v) with true by now destruct v.
  simpl. f_equal. apply IH. intros b Hb. apply Hall. now right.
Qed.

Lemma afc_none (v w : IPVersion) (l : list IP) :
  v <> w -> (forall a, In a l -> version a = w) -> PaloAltoFW.afc v l = 0.
Proof.
  unfold PaloAltoFW.afc. intros Hvw.
  induction l as [|a l IH]; intros Hall; [reflexivity|].
  simpl. rewrite (Hall a) by now left.
  replace (version_eqb w v) with false by (destruct v, w; simpl; congruence).
  apply IH. intros b Hb. apply Hall. now right.
Qed.

(** The flows of a term whose sources are all IPv4 and whose
    destinations are all IPv6. *)
Lemma flows_v4_to_v6 (t : policy.Term IP) :
  policy.source_address t <> [] ->
  (forall a, In a (policy.source_address t) -> version a = V4) ->
  policy.destination_address t <> [] ->
  (forall a, In a (policy.destination_address t) -> version a = V6) ->
  PaloAltoFW.compute_flows t
  = ["ip4-src-only"; "ip4-only"; "ip6-dst-only"; "ip6-only"].
Proof.
  intros Hs Hs4 Hd Hd6. unfold PaloAltoFW.compute_flows.
  simpl flat_map.
  rewrite (afc_all V4 _ Hs4), (afc_none V6 V4 _ ltac:(discriminate) Hs4),
    (afc_all V6 _ Hd6), (afc_none V4 V6 _ ltac:(discriminate) Hd6).
  destruct (policy.source_address t) as [|a l]; [contradiction|].
  destruct (policy.destination_address t) as [|b l']; [contradiction|].
  reflexivity.
Qed.

Lemma expiration_check_live (t : policy.Term IP) (cd ed : Z)
    (fz tz : string) :
  (forall e, policy.expiration t = Some e -> (cd < e)%Z) ->
  exists w, PaloAltoFW.expiration_check t cd ed fz tz = (w, false).
Proof.
  intros Hlive. unfold PaloAltoFW.expiration_check.
  destruct (policy.expiration t) as [e|]; [|now exists []].
  specialize (Hlive e eq_refl). apply Z.leb_gt in Hlive. rewrite Hlive.
  eexists. reflexivity.
Qed.
End FlowFacts.

Section EmittedFacts.
Context {IP : Type} `{NetworkObject IP} `{Collaborators IP}.

(** An emitted term entered [term_dup_check] under a new name. *)
Lemma translate_term_emitted (ft : string) (fo : list string) (cd ed : Z)
    (t : policy.Term IP) (st : PaloAltoFW.loop_state IP) t' st' :
  PaloAltoFW.translate_term ft fo cd ed t st
  = (t', st', PaloAltoFW.Emitted) ->
  ~ In (policy.name t') (PaloAltoFW.term_dup_check st)
  /\ PaloAltoFW.term_dup_check st'
     = PaloAltoFW.term_dup_check st ++ [policy.name t']
  /\ PaloAltoFW.new_terms st'
     = PaloAltoFW.new_terms st ++ [Term.__init__ t' ft fo].
Proof.
  intros Ht.
  destruct (PaloAltoFW.skipped t (PaloAltoFW.from_zone (PaloAltoFW.self st))
              (PaloAltoFW.to_zone (PaloAltoFW.self st))) as [w|] eqn:Es.
  { rewrite (translate_term_skipped _ _ _ _ _ _ _ Es) in Ht.
    discriminate. }
  apply not_skipped_None in Es.
  destruct (fixed_name t) as [fixed|] eqn:Ef.
  2:{ rewrite (translate_term_name_error _ _ _ _ _ _ Es Ef) in Ht.
      discriminate. }
  destruct (in_dec string_dec fixed (PaloAltoFW.term_dup_check st))
    as [Hin | Hnew].
  { rewrite (translate_term_duplicate _ _ _ _ _ _ _ Es Ef Hin) in Ht.
    discriminate. }
  destruct (translate_term_fresh _ _ _ _ _ _ _ _ _ _ Es Ef Hnew Ht)
    as (Hd & Hn & _).
  apply translate_term_facts in Ht.
  destruct Ht as (_ & _ & _ & _ & Hem & _).
  destruct (Hem eq_refl) as (Hnt & _). subst fixed. auto.
Qed.

(** The new terms of a loop carry names that the loop added to
    [term_dup_check]. *)
Lemma translate_terms_new_names (ft : string) (fo : list string)
    (cd ed : Z) (terms : list (policy.Term IP)) :
  forall st terms' st' e,
    PaloAltoFW.translate_terms ft fo cd ed terms st = (terms', st', e) ->
    forall nt, In nt (PaloAltoFW.new_terms st') ->
      In nt (PaloAltoFW.new_terms st)
      \/ (In (policy.name (Term.term nt)) (PaloAltoFW.term_dup_check st')
          /\ ~ In (policy.name (Term.term nt))
                  (PaloAltoFW.term_dup_check st)).
Proof.
  induction terms as [|t terms IH]; intros st terms' st' e Hloop nt Hnt.
  - injection Hloop as _ <- _. now left.
  - apply translate_terms_cons in Hloop.
    destruct Hloop as (t1 & st1 & o & Et & Hcase).
    assert (Hstep :
              In nt (PaloAltoFW.new_terms st1) ->
              In nt (PaloAltoFW.new_terms st)
              \/ (In (policy.name (Term.term nt))
                    (PaloAltoFW.term_dup_check st1)
                  /\ ~ In (policy.name (Term.term nt))
                          (PaloAltoFW.term_dup_check st))).
    { intros Hin1. destruct o as [| |e1].
      - apply translate_term_emitted in Et.
        destruct Et as (Hnew & Hd & Hn). rewrite Hn in Hin1.
        apply in_app_or in Hin1. destruct Hin1 as [Hin1 | [<- | []]];
          [now left|].
        right. simpl. rewrite Hd. split; [|assumption].
        apply in_or_app. right. now left.
      - apply translate_term_facts in Et.
        destruct Et as (_ & _ & _ & _ & _ & Hne).
        left. rewrite <- Hne; [assumption | discriminate].
      - apply translate_term_facts in Et.
        destruct Et as (_ & _ & _ & _ & _ & Hne).
        left. rewrite <- Hne; [assumption | discriminate]. }
    destruct Hcase as [(e1 & _ & _ & _ & ->) | (_ & rest' & Hrest & _)];
      [now apply Hstep|].
    pose proof (translate_terms_dup_incl _ _ _ _ _ _ _ _ _ Hrest) as Hincl.
    assert (Hincl0 : incl (PaloAltoFW.term_dup_check st)
                       (PaloAltoFW.term_dup_check st1)).
    { destruct (translate_term_dup_check _ _ _ _ _ _ _ _ _ Et)
        as [-> | (_ & fixed & _ & _ & ->)];
        [apply incl_refl | apply incl_appl, incl_refl]. }
    destruct (IH _ _ _ _ Hrest nt Hnt) as [Hin1 | [Hin' Hnot1]].
    + destruct (Hstep Hin1) as [Hin0 | [Hin1' Hnot0]]; [now left|].
      right. split; [now apply Hincl | assumption].
    + right. split; [assumption|]. intros Hin0. apply Hnot1.
      now apply Hincl0.
Qed.

(** The loop leaves the policies rendered so far alone. *)
Lemma translate_terms_policies (ft : string) (fo : list string)
    (cd ed : Z) (terms : list (policy.Term IP)) :
  forall st terms' st' e,
    PaloAltoFW.translate_terms ft fo cd ed terms st = (terms', st', e) ->
    PaloAltoFW.pafw_policies (PaloAltoFW.self st')
    = PaloAltoFW.pafw_policies (PaloAltoFW.self st).
Proof.
  induction terms as [|t terms IH]; intros st terms' st' e Hloop.
  - now injection Hloop as _ <- _.
  - apply translate_terms_cons in Hloop.
    destruct Hloop as (t1 & st1 & o & Et & Hcase).
    apply translate_term_facts in Et.
    destruct Et as (_ & _ & _ & Hpol & _).
    destruct Hcase as [(e1 & _ & _ & _ & ->) | (_ & rest' & Hrest & _)];
      [assumption|].
    rewrite (IH _ _ _ _ Hrest). assumption.
Qed.

(** The rules built are named after the new terms. *)
Lemma build_ruleset_keys (fz tz : string)
    (new_terms : list (Term.Term IP)) :
  forall ruleset m ruleset' m' e,
    PaloAltoFW.build_ruleset fz tz new_terms ruleset m = (ruleset', m', e)
    ->
    forall k, In k (Py.keys ruleset') ->
      In k (Py.keys ruleset)
      \/ exists nt, In nt new_terms /\ k = policy.name (Term.term nt).
Proof.
  induction new_terms as [|nt rest IH];
    intros ruleset m ruleset' m' e; simpl.
  - intros [= <- _ _] k Hk. now left.
  - destruct (Rule.__init__ fz tz nt m) as [m1 [options|e1]].
    + intros Hb k Hk. destruct (IH _ _ _ _ _ Hb k Hk) as [Hin | Hex].
      * rewrite keys_dict_set in Hin.
        destruct (Py.dict_mem _ _ _); [now left|].
        apply in_app_or in Hin. destruct Hin as [Hin | [<- | []]];
          [now left|].
        right. exists nt. split; [now left | reflexivity].
      * destruct Hex as (nt' & Hin & ->). right. exists nt'.
        split; [now right | reflexivity].
    + intros [= <- _ _] k Hk. now left.
Qed.
End EmittedFacts.

Section DroppedFacts.
Context {IP : Type} `{NetworkObject IP} `{Collaborators IP}.

(** In a loop that starts without new terms and ends without exception,
    a term that was not skipped and was not emitted leaves no new term
    under its fixed name. *)
Lemma not_emitted_no_new_term (ft : string) (fo : list string) (cd ed : Z)
    (pre post : list (policy.Term IP)) (t : policy.Term IP)
    (st : PaloAltoFW.loop_state IP) terms' st' (fixed : string) :
  PaloAltoFW.new_terms st = [] ->
  PaloAltoFW.translate_terms ft fo cd ed (pre ++ t :: post) st
  = (terms', st', None) ->
  not_skipped t -> fixed_name t = Some fixed ->
  (forall s1 t1 s2,
      ~ In fixed (PaloAltoFW.term_dup_check s1) ->
      PaloAltoFW.translate_term ft fo cd ed t s1
      <> (t1, s2, PaloAltoFW.Emitted)) ->
  forall nt, In nt (PaloAltoFW.new_terms st') ->
    policy.name (Term.term nt) <> fixed.
Proof.
  intros Hempty Hloop Hns Hf Hdrop nt Hnt.
  rewrite translate_terms_app in Hloop.
  destruct (PaloAltoFW.translate_terms ft fo cd ed pre st)
    as [[pre' s1] [e|]] eqn:Epre; [discriminate|].
  destruct (PaloAltoFW.translate_terms ft fo cd ed (t :: post) s1)
    as [[rest' s3] e3] eqn:Erest.
  injection Hloop as _ <- ->.
  apply translate_terms_cons in Erest.
  destruct Erest as (t1 & s2 & o & Et & Hcase).
  destruct Hcase as [(e1 & _ & [=] & _) | (Hok & post' & Hpost & _)].
  assert (Hnew : ~ In fixed (PaloAltoFW.term_dup_check s1)).
  { intros Hin.
    rewrite (translate_term_duplicate _ _ _ _ _ _ _ Hns Hf Hin) in Et.
    injection Et as _ _ <-. eapply Hok. reflexivity. }
  destruct (translate_term_fresh _ _ _ _ _ _ _ _ _ _ Hns Hf Hnew Et)
    as (Hd2 & _).
  assert (Hnt2 : PaloAltoFW.new_terms s2 = PaloAltoFW.new_terms s1).
  { pose proof Et as Et'. apply translate_term_facts in Et'.
    destruct Et' as (_ & _ & _ & _ & _ & Hne). apply Hne.
    intros ->. now apply (Hdrop s1 t1 s2). }
  destruct (translate_terms_new_names _ _ _ _ _ _ _ _ _ Hpost nt Hnt)
    as [Hin2 | [_ Hnot2]].
  - rewrite Hnt2 in Hin2.
    destruct (translate_terms_new_names _ _ _ _ _ _ _ _ _ Epre nt Hin2)
      as [Hin0 | [Hin1 _]].
    + rewrite Hempty in Hin0. contradiction.
    + intros Heq. apply Hnew. now rewrite <- Heq.
  - intros Heq. apply Hnot2. rewrite Hd2, Heq. apply in_or_app.
    right. now left.
Qed.

Lemma nth_4_length (l : list string) (x : string) :
  nth 4 l "" = x -> x <> "" -> Nat.ltb 4 (length l) = true.
Proof.
  intros Hn Hx.
  do 5 (destruct l as [|? l]; [simpl in Hn; congruence|]).
  reflexivity.
Qed.

(** What a header that raised nothing did. *)
Lemma translate_header_Ok (cd ed : Z) (header : policy.Header)
    (terms : list (policy.Term IP)) (st : PaloAltoFW.State IP) terms' st' :
  In PaloAltoFW._PLATFORM (policy.platforms header) ->
  PaloAltoFW.translate_header cd ed header terms st = (terms', st', None) ->
  let fo := policy.FilterOptions header PaloAltoFW._PLATFORM in
  let ft := if Nat.ltb 4 (length fo) then nth 4 fo "" else "inet" in
  exists lst ruleset m,
    PaloAltoFW.translate_terms ft fo cd ed terms
      (PaloAltoFW.Build_loop_state
         (PaloAltoFW.set_zones (nth 1 fo "") (nth 3 fo "")
            (PaloAltoFW.fw st))
         (PaloAltoFW.messages st) [] [])
    = (terms', lst, None)
    /\ PaloAltoFW.build_ruleset
         (PaloAltoFW.from_zone (PaloAltoFW.self lst))
         (PaloAltoFW.to_zone (PaloAltoFW.self lst))
         (PaloAltoFW.new_terms lst) [] (PaloAltoFW.service_map st)
       = (ruleset, m, None)
    /\ st'
       = PaloAltoFW.Build_State
           (PaloAltoFW.append_policy (header, ruleset, fo)
              (PaloAltoFW.self lst))
           m (PaloAltoFW.log lst).
Proof.
  intros Hp. unfold PaloAltoFW.translate_header.
  apply str_in_In in Hp. rewrite Hp. simpl negb.
  destruct (_ || _); [discriminate|].
  destruct (negb _); [discriminate|].
  destruct (PaloAltoFW.translate_terms _ _ _ _ _ _)
    as [[terms1 lst] [e|]]; [discriminate|].
  destruct (PaloAltoFW.build_ruleset _ _ _ _ _)
    as [[ruleset m] [e|]] eqn:Eb; [discriminate|].
  intros [= <- <-]. exists lst, ruleset, m. rewrite Eb. auto.
Qed.
End DroppedFacts.

Section LogFacts.
Context {IP : Type} `{NetworkObject IP} `{Collaborators IP}.

Lemma resolve_term_log (ft : string) (fo : list string)
    (t : policy.Term IP) (st : PaloAltoFW.loop_state IP) t' st' o :
  PaloAltoFW.resolve_term ft fo t st = (t', st', o) ->
  exists l, PaloAltoFW.log st' = PaloAltoFW.log st ++ l.
Proof.
  unfold PaloAltoFW.resolve_term.
  destruct (PaloAltoFW.address_family_gate _ _ _ _ _) as [[exclude|] w].
  2:{ intros [= _ <- _]. now exists w. }
  destruct (_ && _); [intros [= _ <- _]; now exists w|].
  destruct (PaloAltoFW.icmp_versions _ _ _ _ _) as [[t1 s1] [e|]];
    [intros [= _ <- _]; now exists w|].
  destruct (PaloAltoFW.unsupported_protocol t1);
    intros [= _ <- _]; now exists w.
Qed.

Lemma translate_term_log (ft : string) (fo : list string) (cd ed : Z)
    (t : policy.Term IP) (st : PaloAltoFW.loop_state IP) t' st' o :
  PaloAltoFW.translate_term ft fo cd ed t st = (t', st', o) ->
  exists l, PaloAltoFW.log st' = PaloAltoFW.log st ++ l.
Proof.
  unfold PaloAltoFW.translate_term.
  destruct (PaloAltoFW.skipped _ _ _) as [w|];
    [intros [= _ <- _]; now exists [w]|].
  destruct (FixTermLength _ _) as [fixed|];
    [|intros [= _ <- _]; exists []; now rewrite app_nil_r].
  destruct (Py.str_in _ _);
    [intros [= _ <- _]; exists []; now rewrite app_nil_r|].
  destruct (PaloAltoFW.expiration_check _ _ _ _ _) as [w [|]];
    [intros [= _ <- _]; now exists w|].
  intros Hr. apply resolve_term_log in Hr. destruct Hr as [l Hl].
  exists (w ++ l). rewrite Hl. simpl. now rewrite app_assoc.
Qed.

Lemma translate_terms_log (ft : string) (fo : list string) (cd ed : Z)
    (terms : list (policy.Term IP)) :
  forall st terms' st' e,
    PaloAltoFW.translate_terms ft fo cd ed terms st = (terms', st', e) ->
    exists l, PaloAltoFW.log st' = PaloAltoFW.log st ++ l.
Proof.
  induction terms as [|t terms IH]; intros st terms' st' e Hloop.
  - injection Hloop as _ <- _. exists []. now rewrite app_nil_r.
  - apply translate_terms_cons in Hloop.
    destruct Hloop as (t1 & st1 & o & Et & Hcase).
    apply translate_term_log in Et. destruct Et as [l1 Hl1].
    destruct Hcase as [(e1 & _ & _ & _ & ->) | (_ & rest' & Hrest & _)];
      [now exists l1|].
    destruct (IH _ _ _ _ Hrest) as [l2 Hl2].
    exists (l1 ++ l2). now rewrite Hl2, Hl1, app_assoc.
Qed.

(** The loop keeps the zones of the header. *)
Lemma translate_terms_zones (ft : string) (fo : list string) (cd ed : Z)
    (terms : list (policy.Term IP)) :
  forall st terms' st' e,
    PaloAltoFW.translate_terms ft fo cd ed terms st = (terms', st', e) ->
    PaloAltoFW.from_zone (PaloAltoFW.self st')
    = PaloAltoFW.from_zone (PaloAltoFW.self st)
    /\ PaloAltoFW.to_zone (PaloAltoFW.self st')
       = PaloAltoFW.to_zone (PaloAltoFW.self st).
Proof.
  induction terms as [|t terms IH]; intros st terms' st' e Hloop.
  - injection Hloop as _ <- _. now split.
  - apply translate_terms_cons in Hloop.
    destruct Hloop as (t1 & st1 & o & Et & Hcase).
    apply translate_term_facts in Et.
    destruct Et as (_ & Hfz & Htz & _).
    destruct Hcase as [(e1 & _ & _ & _ & ->) | (_ & rest' & Hrest & _)];
      [now split|].
    destruct (IH _ _ _ _ Hrest) as [Hfz' Htz']. split; congruence.
Qed.
End LogFacts.

(** ** Address families *)

(** The iteration on a term of a [mixed] header whose sources, after
    exclusion subtraction, are all IPv4 and whose destinations are all
    IPv6. *)
Lemma mixed_v4_to_v6_iteration
    {IP : Type} `{NetworkObject IP} `{Collaborators IP}
    (filter_options : list string) (cd ed : Z) (t : policy.Term IP)
    (st : PaloAltoFW.loop_state IP) (fixed : string) :
  not_skipped t ->
  fixed_name t = Some fixed ->
  ~ In fixed (PaloAltoFW.term_dup_check st) ->
  (forall e, policy.expiration t = Some e -> (cd < e)%Z) ->
  let src :=
    fold_left RemoveAddressFromList (policy.source_address_exclude t)
      (policy.source_address t) in
  let dst :=
    fold_left RemoveAddressFromList (policy.destination_address_exclude t)
      (policy.destination_address t) in
  src <> [] -> (forall a, In a src -> version a = V4) ->
  dst <> [] -> (forall a, In a dst -> version a = V6) ->
  let t1 := PaloAltoFW.subtract_excluded (policy.set_name fixed t) in
  PaloAltoFW.compute_flows t1
  = ["ip4-src-only"; "ip4-only"; "ip6-dst-only"; "ip6-only"]
  /\ exists st' w,
       PaloAltoFW.translate_term "mixed" filter_options cd ed t st
       = (t1, st', PaloAltoFW.Dropped)
       /\ PaloAltoFW.log st'
          = PaloAltoFW.log st ++ w
            ++ [PaloAltoFW.warning_different_families fixed
                  (PaloAltoFW.from_zone (PaloAltoFW.self st))
                  (PaloAltoFW.to_zone (PaloAltoFW.self st))]
       /\ PaloAltoFW.new_terms st' = PaloAltoFW.new_terms st
       /\ PaloAltoFW.self st' = PaloAltoFW.self st.
Proof.
  intros Hns Hf Hnew Hlive src dst Hs Hs4 Hd Hd6 t1.
  assert (Hflows : PaloAltoFW.compute_flows t1
                   = ["ip4-src-only"; "ip4-only"; "ip6-dst-only"; "ip6-only"])
    by now apply flows_v4_to_v6.
  split; [exact Hflows|].
  unfold PaloAltoFW.translate_term.
  apply (not_skipped_None t (PaloAltoFW.from_zone (PaloAltoFW.self st))
           (PaloAltoFW.to_zone (PaloAltoFW.self st))) in Hns.
  unfold fixed_name in Hf. rewrite Hns, Hf.
  apply str_in_not_In in Hnew. simpl policy.name. rewrite Hnew.
  destruct (expiration_check_live (policy.set_name fixed t) cd ed
              (PaloAltoFW.from_zone (PaloAltoFW.self st))
              (PaloAltoFW.to_zone (PaloAltoFW.self st)) Hlive) as [w Hw].
  rewrite Hw. unfold PaloAltoFW.resolve_term.
  fold t1. rewrite Hflows.
  eexists. exists w. split; [reflexivity|].
  simpl. rewrite <- app_assoc. auto.
Qed.

(** C3. Under a header with address-family mode [mixed], take a term that
    is not skipped, whose name is accepted and which is not expired, whose
    source addresses after exclusion subtraction are all IPv4 and whose
    destination addresses are all IPv6.  Its flows are [ip4-src-only],
    [ip4-only], [ip6-dst-only] and [ip6-only]: neither dual flow, both
    single-family flows.  Its iteration ends in [Dropped], logs the warning
    about different address families, and leaves [new_terms], the address
    book and the applications as they were.  When the header translates
    without exception, the warning is among the messages and the rules of
    the header hold no rule under the term's name. *)
Theorem C3_mixed_v4_source_v6_destination_dropped
    {IP : Type} `{NetworkObject IP} `{Collaborators IP}
    (cd ed : Z) (t : policy.Term IP) (fixed : string) :
  not_skipped t ->
  fixed_name t = Some fixed ->
  (forall e, policy.expiration t = Some e -> (cd < e)%Z) ->
  let src :=
    fold_left RemoveAddressFromList (policy.source_address_exclude t)
      (policy.source_address t) in
  let dst :=
    fold_left RemoveAddressFromList (policy.destination_address_exclude t)
      (policy.destination_address t) in
  src <> [] -> (forall a, In a src -> version a = V4) ->
  dst <> [] -> (forall a, In a dst -> version a = V6) ->
  let t1 := PaloAltoFW.subtract_excluded (policy.set_name fixed t) in
  PaloAltoFW.compute_flows t1
  = ["ip4-src-only"; "ip4-only"; "ip6-dst-only"; "ip6-only"]
  /\ (forall filter_options st,
        ~ In fixed (PaloAltoFW.term_dup_check st) ->
        exists st' w,
          PaloAltoFW.translate_term "mixed" filter_options cd ed t st
          = (t1, st', PaloAltoFW.Dropped)
          /\ PaloAltoFW.log st'
             = PaloAltoFW.log st ++ w
               ++ [PaloAltoFW.warning_different_families fixed
                     (PaloAltoFW.from_zone (PaloAltoFW.self st))
                     (PaloAltoFW.to_zone (PaloAltoFW.self st))]
          /\ PaloAltoFW.new_terms st' = PaloAltoFW.new_terms st
          /\ PaloAltoFW.self st' = PaloAltoFW.self st)
  /\ (forall header pre post st terms' st',
        let fo := policy.FilterOptions header PaloAltoFW._PLATFORM in
        In PaloAltoFW._PLATFORM (policy.platforms header) ->
        nth 4 fo "" = "mixed" ->
        PaloAltoFW.translate_header cd ed header (pre ++ t :: post) st
        = (terms', st', None) ->
        In (PaloAltoFW.warning_different_families fixed (nth 1 fo "")
              (nth 3 fo ""))
           (PaloAltoFW.messages st')
        /\ exists ruleset,
             PaloAltoFW.pafw_policies (PaloAltoFW.fw st')
             = PaloAltoFW.pafw_policies (PaloAltoFW.fw st)
               ++ [(header, ruleset, fo)]
             /\ Py.dict_get String.eqb fixed ruleset = None).
Proof.
  intros Hns Hf Hlive src dst Hs Hs4 Hd Hd6 t1.
  assert (Hiter := fun fo st Hnew =>
            mixed_v4_to_v6_iteration fo cd ed t st fixed Hns Hf Hnew Hlive
              Hs Hs4 Hd Hd6).
  split; [|split].
  - now apply flows_v4_to_v6.
  - intros fo st Hnew. now destruct (Hiter fo st Hnew).
  - intros header pre post st terms' st' fo Hp Hmixed Hh.
    destruct (translate_header_Ok _ _ _ _ _ _ _ Hp Hh)
      as (lst & ruleset & m & Hloop & Hrules & ->).
    fold fo in Hloop, Hrules |- *.
    rewrite (nth_4_length fo "mixed" Hmixed ltac:(discriminate)), Hmixed
      in Hloop.
    simpl PaloAltoFW.messages. simpl PaloAltoFW.fw.
    (* the iteration of [t] *)
    pose proof Hloop as Happ. rewrite translate_terms_app in Happ.
    destruct (PaloAltoFW.translate_terms "mixed" fo cd ed pre _)
      as [[pre' s1] [e|]] eqn:Epre; [discriminate|].
    destruct (PaloAltoFW.translate_terms "mixed" fo cd ed (t :: post) s1)
      as [[rest' s3] e3] eqn:Erest.
    injection Happ as _ <- ->.
    apply translate_terms_cons in Erest.
    destruct Erest as (t2 & s2 & o & Et & Hcase).
    destruct Hcase as [(e1 & _ & [=] & _) | (Hok & post' & Hpost & _)].
    assert (Hnew : ~ In fixed (PaloAltoFW.term_dup_check s1)).
    { intros Hin.
      rewrite (translate_term_duplicate _ _ _ _ _ _ _ Hns Hf Hin) in Et.
      injection Et as _ _ <-. eapply Hok. reflexivity. }
    destruct (Hiter fo s1 Hnew) as (_ & s2' & w & Et' & Hlog & _).
    rewrite Et in Et'. injection Et' as _ <- _.
    split.
    + destruct (translate_terms_log _ _ _ _ _ _ _ _ _ Hpost) as [l ->].
      rewrite Hlog.
      destruct (translate_terms_zones _ _ _ _ _ _ _ _ _ Epre) as [-> ->].
      simpl. apply in_or_app. left. apply in_or_app. right.
      apply in_or_app. right. now left.
    + exists ruleset. split.
      * simpl. now rewrite (translate_terms_policies _ _ _ _ _ _ _ _ _ Hloop).
      * apply (dict_get_None _ String.eqb_eq). intros Hk.
        destruct (build_ruleset_keys _ _ _ _ _ _ _ _ Hrules fixed Hk)
          as [[] | (nt & Hnt & Hname)].
        symmetry in Hname. revert Hname.
        eapply (not_emitted_no_new_term "mixed" fo cd ed pre post t);
          [| exact Hloop | exact Hns | exact Hf | | exact Hnt];
          [reflexivity|].
        intros s t' s' Hfresh Hem.
        destruct (Hiter fo s Hfresh) as (_ & s'' & w' & Hd' & _).
        rewrite Hd' in Hem. discriminate.
Qed.

(** The term from 10.0.0.0/8 to 2001:4860:8000::/33 under a mixed header
    from trust to untrust. *)
Lemma C3_witness :
  PaloAltoFW.translate_term "mixed"
    ["from-zone"; "trust"; "to-zone"; "untrust"; "mixed"] 100 114
    Example.v4_to_v6 Example.loop_start
  = (Example.v4_to_v6,
     PaloAltoFW.Build_loop_state
       (PaloAltoFW.set_zones "trust" "untrust" PaloAltoFW.new)
       [PaloAltoFW.warning_different_families "v4-to-v6" "trust" "untrust"]
       ["v4-to-v6"] [],
     PaloAltoFW.Dropped).
Proof.
  destruct (C3_mixed_v4_source_v6_destination_dropped 100 114
              Example.v4_to_v6 "v4-to-v6") as (_ & Hiter & _).
  - repeat split; simpl; intros Hin; exact Hin.
  - reflexivity.
  - discriminate.
  - discriminate.
  - intros a [<- | []]. reflexivity.
  - discriminate.
  - intros a [<- | []]. reflexivity.
  - reflexivity.
Defined.

(** ** The date of line 357 *)

(** The pass either stops at line 357 with [OverflowError], having touched
    nothing, or is the loop over the filters with the date computed
    there. *)
Lemma TranslatePolicy_cases {IP : Type} `{NetworkObject IP}
    `{Collaborators IP} (pol : policy.Policy IP) (exp_info current_date : Z)
    (st : PaloAltoFW.State IP) :
  (exists d,
      PaloAltoFW.exp_info_date current_date exp_info = Ok d
      /\ PaloAltoFW._TranslatePolicy pol exp_info current_date st
         = PaloAltoFW.translate_filters current_date d pol st)
  \/ (PaloAltoFW.exp_info_date current_date exp_info = Raise OverflowError
      /\ PaloAltoFW._TranslatePolicy pol exp_info current_date st
         = (pol, st, Some OverflowError)).
Proof.
  unfold PaloAltoFW._TranslatePolicy.
  destruct (PaloAltoFW.exp_info_date current_date exp_info) as [d|e] eqn:E.
  - left. now exists d.
  - right. revert E. unfold PaloAltoFW.exp_info_date,
      datetime.timedelta_weeks, datetime.date_add.
    destruct (Z.leb _ _); [destruct (_ && _)|]; intros [= <-]; now split.
Qed.

(** ** Term names *)

(** C6, as amended. In the loop over the terms of one header, a term that
    is not skipped and carries the name of an earlier term of the loop
    that was not skipped either stops the loop, and with it the
    translation, with the duplicate-term error.  Conversely a
    duplicate-term error of the translation always comes from two terms of
    one and the same header: [term_dup_check] starts empty at every
    header, so a name used under another header is never a duplicate
    term. *)
Theorem C6_duplicate_term_within_header
    {IP : Type} `{NetworkObject IP} `{Collaborators IP} :
  (forall filter_type filter_options cd ed pre post
          (t1 t2 : policy.Term IP) st pre' st1,
      PaloAltoFW.translate_terms filter_type filter_options cd ed pre st
      = (pre', st1, None) ->
      In t1 pre -> not_skipped t1 -> not_skipped t2 ->
      policy.name t2 = policy.name t1 ->
      exists fixed,
        fixed_name t1 = Some fixed
        /\ PaloAltoFW.translate_terms filter_type filter_options cd ed
             (pre ++ t2 :: post) st
           = (pre' ++ policy.set_name fixed t2 :: post, st1,
              Some (PaloAltoFWDuplicateTermError fixed)))
  /\ (forall pol exp_info current_date st pol' st' n,
         PaloAltoFW._TranslatePolicy pol exp_info current_date st
         = (pol', st', Some (PaloAltoFWDuplicateTermError n)) ->
         exists header terms,
           In (header, terms) pol /\ colliding_terms terms n).
Proof.
  split.
  - intros. now apply translate_terms_duplicate.
  - intros pol exp_info current_date st pol' st' n.
    destruct (TranslatePolicy_cases pol exp_info current_date st)
      as [(d & _ & ->) | (_ & ->)]; [|discriminate].
    apply translate_filters_duplicate_origin.
Qed.

(** Two terms named [rule] under one header, and under two headers. *)
Lemma C6_witness :
  snd (PaloAltoFW.__init__
         [(Example.trust_untrust, [Example.smtp "rule"; Example.icmp_only;
                                   Example.term "rule" [] [] [] [] [] []])]
         2 100 [])
  = Some (PaloAltoFWDuplicateTermError "rule")
  /\ snd (PaloAltoFW.__init__
            [(Example.trust_untrust, [Example.term "rule" [] [] [] [] [] []]);
             (Example.dmz_untrust, [Example.term "rule" [] [] [] [] [] []])]
            2 100 [])
     = None.
Proof.
  split; [|reflexivity].
  edestruct (proj1 C6_duplicate_term_within_header "inet"
               ["from-zone"; "trust"; "to-zone"; "untrust"] 100%Z 114%Z
               [Example.smtp "rule"; Example.icmp_only] []
               (Example.smtp "rule") (Example.term "rule" [] [] [] [] [] [])
               Example.loop_start)
    as (fixed & Hfixed & Hloop).
  - lazy. reflexivity.
  - now left.
  - repeat split; simpl; intros Hin; exact Hin.
  - repeat split; simpl; intros Hin; exact Hin.
  - reflexivity.
  - injection Hfixed as <-.
    assert (Hd : PaloAltoFW.exp_info_date 100 2 = Ok 114%Z)
      by (vm_compute; reflexivity).
    unfold PaloAltoFW.__init__, PaloAltoFW._TranslatePolicy. rewrite Hd.
    cbn [PaloAltoFW.translate_filters].
    unfold PaloAltoFW.translate_header.
    change (PaloAltoFW.translate_terms _ _ _ _ _ _)
      with (PaloAltoFW.translate_terms "inet"
              ["from-zone"; "trust"; "to-zone"; "untrust"] 100%Z 114%Z
              ([Example.smtp "rule"; Example.icmp_only]
               ++ [Example.term "rule" [] [] [] [] [] []])
              Example.loop_start).
    rewrite Hloop. reflexivity.
Defined.

(** C6 as stated fails on two terms named [rule] under two headers, one
    for TCP port 25 and one for TCP port 80: each header translates alone,
    but together the second term asks the registry for the service name
    of the first under other ports, and the translation stops with the
    duplicate-service error of lines 149-155. *)
Lemma C6_counterexample :
  snd (PaloAltoFW.__init__
         [(Example.trust_untrust, [Example.smtp "rule"])] 2 100 [])
  = None
  /\ snd (PaloAltoFW.__init__
            [(Example.dmz_untrust,
              [Example.term "rule" [] [] ["tcp"] [(80, 80)%Z] [] []])]
            2 100 [])
     = None
  /\ snd (PaloAltoFW.__init__
            [(Example.trust_untrust, [Example.smtp "rule"]);
             (Example.dmz_untrust,
              [Example.term "rule" [] [] ["tcp"] [(80, 80)%Z] [] []])]
            2 100 [])
     = Some (PaloAltoFWDuplicateServiceError "service-rule-tcp").
Proof. vm_compute. repeat split. Qed.

(** ** The caller's terms *)

(** C7, as amended. The translation pass returns the caller's policy with
    the same headers and, term by term, every field as it was except: the
    name, which is the original or the one [FixTermLength] returned; the
    two address lists, which are the original ones or the ones left by
    exclusion subtraction; and [pan_application], to which the pass only
    appends the ICMP applications ([icmp], [ipv6-icmp], [icmp-<type>],
    [icmp6-<type>]). *)
Theorem C7_caller_terms_frame
    {IP : Type} `{NetworkObject IP} `{Collaborators IP}
    (pol : policy.Policy IP) (exp_info current_date : Z)
    (st : PaloAltoFW.State IP) :
  policy_translated_from pol
    (fst (fst (PaloAltoFW._TranslatePolicy pol exp_info current_date st))).
Proof.
  destruct (TranslatePolicy_cases pol exp_info current_date st)
    as [(d & _ & ->) | (_ & ->)].
  - destruct (PaloAltoFW.translate_filters _ _ pol st)
      as [[pol' st'] e] eqn:E.
    simpl. eapply translate_filters_changes. exact E.
  - simpl. unfold policy_translated_from.
    induction pol as [|[header terms] rest IH]; constructor;
      [split; [reflexivity | apply Forall2_translated_refl] | exact IH].
Qed.

(** C7 as stated fails on a term with protocol [icmp] and no ICMP type:
    the pass appends [icmp] to its [pan_application]. *)
Lemma C7_counterexample :
  ~ Forall2
      (fun f f' : policy.Header * list (policy.Term nacaddr.IP) =>
         Forall2 same_but_name_addresses (snd f) (snd f'))
      [(Example.trust_untrust, [Example.icmp_only])]
      (fst (fst (PaloAltoFW.__init__
                   [(Example.trust_untrust, [Example.icmp_only])]
                   2 100 []))).
Proof.
  intros Hall. inversion Hall as [|f f' l l' Hterms _]; subst.
  simpl in Hterms. inversion Hterms as [|t t' r r' [_ Happ] _]; subst.
  discriminate Happ.
Qed.

(** ** Length-fixing *)





(** ** Logging *)

(** C8. For every rule that [ModifyOptions] built and [__str__] renders,
    the [<log-...>] elements of the rendered entry are, in this order:
    [<log-start>no</log-start>] and [<log-end>no</log-end>] when the
    logging directives of the term contain [disable], whatever else they
    contain; [<log-start>yes</log-start>] and [<log-end>yes</log-end>] when
    they contain [log-both] and not [disable]; only
    [<log-end>yes</log-end>] when they contain one of [true], [True],
    [syslog] and [local] and neither [disable] nor [log-both]. *)
Theorem C8_logging_elements
    {IP : Type} `{NetworkObject IP} (from_zone to_zone : list string)
    (terms : Term.Term IP) (m m' : Service.service_map)
    (options : Rule.options) (name : string) (lines : list string) :
  Rule.ModifyOptions from_zone to_zone terms m = (m', Ok options) ->
  PaloAltoFW.rule_entry name options = Ok lines ->
  let directives := policy.logging (Term.term terms) in
  (In "disable" directives ->
   filter is_log_element lines = [log_start "no"; log_end "no"])
  /\ (~ In "disable" directives -> In "log-both" directives ->
      filter is_log_element lines = [log_start "yes"; log_end "yes"])
  /\ (~ In "disable" directives -> ~ In "log-both" directives ->
      In "true" directives \/ In "True" directives
      \/ In "syslog" directives \/ In "local" directives ->
      filter is_log_element lines = [log_end "yes"]).
Proof.
  intros Hm Hr directives.
  apply ModifyOptions_fields in Hm.
  destruct Hm as (_ & _ & _ & _ & _ & Hlog & _).
  fold directives in Hlog.
  rewrite (log_elements_of_entry _ _ _ Hr).
  destruct (logging_lines_cases options) as (Hdis & Hboth & Hend).
  split; [|split].
  - intros Hd. apply Hdis. rewrite Hlog.
    now apply logging_options_disable.
  - intros Hnd Hb.
    assert (Hl : Rule.logging options = flat_map logging_of directives)
      by (rewrite Hlog; now apply logging_options_append).
    destruct (logging_of_both _ Hb) as [Hs He].
    apply Hboth; rewrite Hl; try assumption.
    intros Hin. apply logging_of_values in Hin.
    destruct Hin; discriminate.
  - intros Hnd Hnb Hsome.
    assert (Hl : Rule.logging options = flat_map logging_of directives)
      by (rewrite Hlog; now apply logging_options_append).
    destruct (logging_of_end_only directives Hnb) as [He Hns]; [tauto|].
    apply Hend; rewrite Hl; try assumption.
    intros Hin. apply logging_of_values in Hin.
    destruct Hin; discriminate.
Qed.

(** A term with [logging:: syslog]. *)
Lemma C8_witness :
  exists options lines,
    Rule.ModifyOptions ["trust"] ["untrust"]
      (Term.__init__ (Example.log_term ["syslog"]) "inet"
         ["from-zone"; "trust"; "to-zone"; "untrust"]) []
    = ([], Ok options)
    /\ PaloAltoFW.rule_entry "test-log" options = Ok lines
    /\ filter is_log_element lines = [log_end "yes"].
Proof.
  eexists. eexists. split; [reflexivity|]. split; [reflexivity|].
  refine (proj2 (proj2 (C8_logging_elements ["trust"] ["untrust"]
                          (Term.__init__ (Example.log_term ["syslog"]) "inet"
                             ["from-zone"; "trust"; "to-zone"; "untrust"])
                          [] [] _ "test-log" _ eq_refl eq_refl)) _ _ _).
  - simpl. intros [Hd | []]. discriminate.
  - simpl. intros [Hd | []]. discriminate.
  - simpl. tauto.
Defined.

(** ** Addresses of a rule *)

(** C9. A term the loop emitted enters [new_terms] as the loop left it,
    with the address lists that exclusion subtraction produced.  In the
    rule built from it, an empty source list gives the source members
    ["any"], rendered as the single member of [<source>], and an empty
    destination list gives the destination members ["any"], rendered as
    the single member of [<destination>]. *)
Theorem C9_empty_address_list_is_any
    {IP : Type} `{NetworkObject IP} `{Collaborators IP}
    (filter_type : string) (filter_options : list string) (cd ed : Z)
    (t t' : policy.Term IP) (st st' : PaloAltoFW.loop_state IP) :
  PaloAltoFW.translate_term filter_type filter_options cd ed t st
  = (t', st', PaloAltoFW.Emitted) ->
  exists new_term,
    PaloAltoFW.new_terms st' = PaloAltoFW.new_terms st ++ [new_term]
    /\ Term.term new_term = t'
    /\ policy.source_address t'
       = fold_left RemoveAddressFromList (policy.source_address_exclude t)
           (policy.source_address t)
    /\ policy.destination_address t'
       = fold_left RemoveAddressFromList
           (policy.destination_address_exclude t)
           (policy.destination_address t)
    /\ forall from_zone to_zone m m' options,
         Rule.__init__ from_zone to_zone new_term m = (m', Ok options) ->
         (policy.source_address t' = [] ->
          Rule.source options = ["any"]
          /\ PaloAltoFW.source_lines options
             = [ (PaloAltoFW.ind 9 ++ "<source>")%string;
                 (PaloAltoFW.ind 10 ++ "<member>any</member>")%string;
                 (PaloAltoFW.ind 9 ++ "</source>")%string ])
         /\ (policy.destination_address t' = [] ->
             Rule.destination options = ["any"]
             /\ PaloAltoFW.destination_lines options
                = [ (PaloAltoFW.ind 9 ++ "<destination>")%string;
                    (PaloAltoFW.ind 10 ++ "<member>any</member>")%string;
                    (PaloAltoFW.ind 9 ++ "</destination>")%string ]).
Proof.
  intros Ht. apply translate_term_facts in Ht.
  destruct Ht as (_ & _ & _ & _ & Hem & _).
  destruct (Hem eq_refl) as (Hnew & Hsrc & Hdst).
  exists (Term.__init__ t' filter_type filter_options).
  repeat (split; [assumption || reflexivity|]).
  intros from_zone to_zone m m' options. unfold Rule.__init__.
  destruct (_ || _); [discriminate|].
  intros Hm. apply ModifyOptions_fields in Hm.
  destruct Hm as (_ & _ & _ & Hs & Hd & _). simpl in Hs, Hd.
  split; intros Hempty.
  - unfold PaloAltoFW.source_lines. rewrite Hs, Hempty. now split.
  - unfold PaloAltoFW.destination_lines. rewrite Hd, Hempty. now split.
Qed.

(** A term without addresses, from trust to untrust. *)
Lemma C9_witness :
  exists st' options,
    PaloAltoFW.translate_term "inet"
      ["from-zone"; "trust"; "to-zone"; "untrust"] 100 114
      (Example.smtp "mail") Example.loop_start
    = (Example.smtp "mail", st', PaloAltoFW.Emitted)
    /\ PaloAltoFW.new_terms st'
       = [Term.__init__ (Example.smtp "mail") "inet"
            ["from-zone"; "trust"; "to-zone"; "untrust"]]
    /\ Rule.__init__ "trust" "untrust"
         (Term.__init__ (Example.smtp "mail") "inet"
            ["from-zone"; "trust"; "to-zone"; "untrust"]) []
       = ([((["25"], "tcp"), "service-mail-tcp")], Ok options)
    /\ Rule.source options = ["any"]
    /\ Rule.destination options = ["any"].
Proof.
  eexists. eexists.
  split; [reflexivity|]. split; [reflexivity|].
  match goal with |- ?E /\ _ => assert (Hopt : E) by reflexivity end.
  split; [exact Hopt|].
  edestruct (C9_empty_address_list_is_any "inet"
               ["from-zone"; "trust"; "to-zone"; "untrust"] 100%Z 114%Z
               (Example.smtp "mail") (Example.smtp "mail")
               Example.loop_start)
    as (new_term & Hnew & _ & _ & _ & Hrule).
  - reflexivity.
  - simpl in Hnew. injection Hnew as <-.
    destruct (Hrule _ _ _ _ _ Hopt) as [Hs Hd].
    split; [now apply Hs | now apply Hd].
Defined.

(** ** The service registry, continued *)

Lemma Service_init_Ok (ports : list string) (term_name protocol : string)
    (m m' : Service.service_map) :
  Service.__init__ ports term_name protocol m = Ok m' ->
  m' = m ++ [((ports, protocol),
              Service.final_service_name term_name protocol)]
  /\ Service.lookup (ports, protocol) m = None
  /\ forall k, ~ In (k, Service.final_service_name term_name protocol) m.
Proof.
  unfold Service.__init__.
  destruct (Service.contains (ports, protocol) m) eqn:Ec; [discriminate|].
  destruct (existsb _ m) eqn:En; [discriminate|].
  destruct (Nat.ltb _ _); [discriminate|].
  intros [= <-]. apply dict_mem_false in Ec.
  split; [now apply dict_set_absent|].
  split; [exact Ec | now apply name_free].
Qed.

Lemma dict_get_app_Some {K V : Type} (eqb : K -> K -> bool) (k : K) (v : V)
    (d d' : list (K * V)) :
  Py.dict_get eqb k d = Some v -> Py.dict_get eqb k (d ++ d') = Some v.
Proof.
  induction d as [|[k0 v0] d IH]; simpl; [discriminate|].
  destruct (eqb k k0); [trivial | exact IH].
Qed.

Lemma registered_after_trans (m m1 m2 : Service.service_map) :
  registered_after m m1 -> registered_after m1 m2 -> registered_after m m2.
Proof.
  intros H1 H2. induction H2 as [|ma mb ports n p _ IH Hp Hi];
    [assumption|].
  eapply registered_next; eassumption.
Qed.

(** A registration never changes the name of a registered pair. *)
Lemma registered_after_lookup (m m' : Service.service_map)
    (k : Service.key) (s : string) :
  registered_after m m' ->
  Service.lookup k m = Some s -> Service.lookup k m' = Some s.
Proof.
  intros Hr Hl. induction Hr as [|ma mb ports n p _ IH Hp Hi];
    [assumption|].
  apply Service_init_Ok in Hi. destruct Hi as (-> & _).
  now apply dict_get_app_Some.
Qed.

(** The invariants of the registries of a run: no key twice, no name
    twice, no empty tuple of ports. *)
Lemma registered_invariants (m : Service.service_map) :
  registered m ->
  NoDup (map fst m) /\ NoDup (map snd m)
  /\ forall kv, In kv m -> fst (fst kv) <> [].
Proof.
  intros Hr. induction Hr as [|ma mb ports n p _ IH Hp Hi].
  - repeat split; try constructor. contradiction.
  - destruct IH as (Hk & Hn & Hports).
    apply Service_init_Ok in Hi. destruct Hi as (-> & Hnone & Hfree).
    rewrite !map_app. simpl. repeat split.
    + apply NoDup_app; [assumption | repeat constructor; now intros [] |].
      intros k Hin [<- | []].
      apply (dict_get_None _ key_eqb_eq) in Hnone. contradiction.
    + apply NoDup_app; [assumption | repeat constructor; now intros [] |].
      intros s Hin [<- | []].
      apply in_map_iff in Hin. destruct Hin as [[k s] [Hs Hin]].
      simpl in Hs. subst s. now apply (Hfree k).
    + intros kv Hin. apply in_app_or in Hin.
      destruct Hin as [Hin | [<- | []]]; [now apply Hports | exact Hp].
Qed.

(** What a request does: it returns the registered name, or registers
    the new one. *)
Lemma service_for_Ok (ports : list string) (term_name p : string)
    (m m' : Service.service_map) (s : string) :
  Rule.service_for ports term_name p m = (m', Ok s) ->
  Service.lookup (ports, p) m' = Some s
  /\ (m' = m \/ Service.__init__ ports term_name p m = Ok m').
Proof.
  unfold Rule.service_for.
  destruct (Service.lookup (ports, p) m) as [n|] eqn:El.
  - intros [= <- <-]. split; [assumption | now left].
  - destruct (Service.__init__ ports term_name p m) as [m1|e];
      [|discriminate].
    destruct (Service.lookup (ports, p) m1) as [n|] eqn:El1;
      [|discriminate].
    intros [= <- <-]. split; [assumption | now right].
Qed.

Lemma service_for_known (ports : list string) (term_name p : string)
    (m : Service.service_map) (s : string) :
  Service.lookup (ports, p) m = Some s ->
  Rule.service_for ports term_name p m = (m, Ok s).
Proof. unfold Rule.service_for. now intros ->. Qed.

(** ** Rendering the services *)

Lemma concat_results_app (l1 l2 : list (result (list string)))
    (b1 b2 : list string) :
  PaloAltoFW.concat_results l1 = Ok b1 ->
  PaloAltoFW.concat_results l2 = Ok b2 ->
  PaloAltoFW.concat_results (l1 ++ l2) = Ok (b1 ++ b2).
Proof.
  revert b1. induction l1 as [|[x|e] l1 IH]; intros b1; simpl.
  - intros [= <-]. trivial.
  - destruct (PaloAltoFW.concat_results l1) as [y|e]; [|discriminate].
    intros [= <-] H2. rewrite (IH y eq_refl H2). now rewrite app_assoc.
  - discriminate.
Qed.

Lemma string_append_length (a b : string) :
  String.length (a ++ b) = String.length a + String.length b.
Proof. induction a; simpl; [reflexivity | now rewrite IHa]. Qed.

Lemma string_append_inj_l (a x y : string) :
  (a ++ x = a ++ y)%string -> x = y.
Proof. induction a; simpl; [trivial | intros [= Ha]; auto]. Qed.

Lemma string_append_inj_r (b x y : string) :
  (x ++ b = y ++ b)%string -> x = y.
Proof.
  revert y. induction x as [|c x IH]; intros [|d y]; simpl; intros Hxy.
  - reflexivity.
  - apply (f_equal String.length) in Hxy. simpl in Hxy.
    rewrite string_append_length in Hxy. lia.
  - apply (f_equal String.length) in Hxy. simpl in Hxy.
    rewrite string_append_length in Hxy. lia.
  - injection Hxy as -> Hxy. f_equal. now apply IH.
Qed.

Lemma service_entry_line_inj (a b : string) :
  service_entry_line a = service_entry_line b -> a = b.
Proof.
  unfold service_entry_line. intros Hab.
  apply (string_append_inj_l (PaloAltoFW.ind 6)) in Hab.
  apply (string_append_inj_l "<entry name=") in Hab.
  apply (string_append_inj_l dq) in Hab.
  exact (string_append_inj_r (dq ++ ">") a b Hab).
Qed.

Lemma opens_entry_line (name : string) :
  opens_entry (service_entry_line name) = true.
Proof. reflexivity. Qed.

Lemma service_entry_Ok (ports : list string) (protocol name : string) :
  ports <> [] ->
  exists rest,
    PaloAltoFW.service_entry ((ports, protocol), name)
    = Ok (service_entry_line name :: rest)
    /\ forall line, In line rest -> opens_entry line = false.
Proof.
  intros Hp. destruct ports as [|port ports]; [contradiction|].
  eexists. split; [reflexivity|].
  intros line Hin.
  repeat (destruct Hin as [<- | Hin]; [reflexivity|]). contradiction.
Qed.

(** The entries of a registry without empty port tuples: they render, and
    the opening line of a name occurs once per entry of that name. *)
Lemma service_entries_count (m : Service.service_map) (s : string) :
  (forall kv, In kv m -> fst (fst kv) <> []) ->
  exists block,
    PaloAltoFW.concat_results (map PaloAltoFW.service_entry m) = Ok block
    /\ count_occ string_dec block (service_entry_line s)
       = count_occ string_dec (map snd m) s.
Proof.
  induction m as [|[[ports p] n] m IH]; intros Hports.
  - exists []. now split.
  - destruct IH as (block & Hb & Hc).
    { intros kv Hin. apply Hports. now right. }
    destruct (service_entry_Ok ports p n) as (rest & Hr & Hrest).
    { apply (Hports ((ports, p), n)). now left. }
    exists ((service_entry_line n :: rest) ++ block). split.
    + change (map PaloAltoFW.service_entry (((ports, p), n) :: m))
        with ([PaloAltoFW.service_entry ((ports, p), n)]
              ++ map PaloAltoFW.service_entry m).
      apply concat_results_app; [|assumption].
      cbn [PaloAltoFW.concat_results]. rewrite Hr. now rewrite app_nil_r.
    + assert (Hz : count_occ string_dec rest (service_entry_line s) = 0).
      { apply count_occ_not_In. intros Hin. apply Hrest in Hin.
        rewrite opens_entry_line in Hin. discriminate. }
      rewrite count_occ_app, Hc. cbn [map snd].
      destruct (string_dec n s) as [-> | Hnn].
      * rewrite !count_occ_cons_eq by reflexivity. now rewrite Hz.
      * rewrite !count_occ_cons_neq; [now rewrite Hz | assumption |].
        intros He. now apply service_entry_line_inj in He.
Qed.

Lemma NoDup_count_one {A : Type} (dec : forall x y : A, {x = y} + {x <> y})
    (l : list A) (x : A) :
  NoDup l -> In x l -> count_occ dec l x = 1.
Proof.
  intros Hnd Hin.
  pose proof (proj1 (NoDup_count_occ dec l) Hnd x) as Hle.
  apply (count_occ_In dec) in Hin. lia.
Qed.

Lemma NoDup_split_once {A B : Type} (l : list (A * B)) (k : A) (v : B) :
  NoDup (map fst l) -> In (k, v) l ->
  exists pre post,
    l = pre ++ (k, v) :: post
    /\ forall kv, In kv (pre ++ post) -> fst kv <> k.
Proof.
  intros Hnd Hin. apply in_split in Hin. destruct Hin as (pre & post & ->).
  exists pre, post. split; [reflexivity|].
  rewrite map_app in Hnd. simpl in Hnd.
  apply NoDup_remove_2 in Hnd.
  intros kv Hkv Hk. apply Hnd. rewrite <- map_app, <- Hk.
  now apply in_map.
Qed.

(** C4. In a run, once a request for a pair of ports and protocol has
    returned a service name, every later request for the pair, whatever
    the term that makes it, returns the same name and leaves the registry
    as it is; the registry holds the pair once, and the rendered
    [<service>] section holds exactly one [<entry>] of that name. *)
Theorem C4_service_reused
    (m m1 : Service.service_map) (ports : list string)
    (term_name protocol service_name : string) :
  registered m ->
  ports <> [] ->
  Rule.service_for ports term_name protocol m = (m1, Ok service_name) ->
  forall m2, registered_after m1 m2 ->
    (forall other_term,
        Rule.service_for ports other_term protocol m2
        = (m2, Ok service_name))
    /\ (exists pre post,
           m2 = pre ++ ((ports, protocol), service_name) :: post
           /\ forall kv, In kv (pre ++ post) -> fst kv <> (ports, protocol))
    /\ exists lines,
         PaloAltoFW.service m2 = Ok lines
         /\ count_occ string_dec lines (service_entry_line service_name) = 1.
Proof.
  intros Hm Hp Hfor m2 Hafter.
  apply service_for_Ok in Hfor. destruct Hfor as [Hl1 Hm1].
  assert (Hreg1 : registered m1).
  { destruct Hm1 as [-> | Hi]; [assumption|].
    eapply registered_next; eassumption. }
  assert (Hreg2 : registered m2)
    by (eapply registered_after_trans; eassumption).
  pose proof (registered_after_lookup _ _ _ _ Hafter Hl1) as Hl2.
  destruct (registered_invariants _ Hreg2) as (Hkeys & Hnames & Hports).
  pose proof (dict_get_In _ key_eqb_eq _ _ _ Hl2) as Hin.
  split; [|split].
  - intros other_term. now apply service_for_known.
  - now apply NoDup_split_once.
  - destruct (service_entries_count m2 service_name Hports)
      as (block & Hb & Hc).
    assert (Hone : count_occ string_dec (map snd m2) service_name = 1).
    { apply NoDup_count_one; [assumption|].
      apply in_map_iff. now exists ((ports, protocol), service_name). }
    unfold PaloAltoFW.service. rewrite Hb.
    destruct m2 as [|kv m2]; [contradiction|].
    eexists. split; [reflexivity|].
    rewrite !count_occ_app, Hc, Hone.
    rewrite !count_occ_cons_neq, !count_occ_nil; [reflexivity | | |];
      intros He; apply (f_equal opens_entry) in He;
      rewrite opens_entry_line in He; discriminate He.
Qed.

(** Two terms ask for tcp port 25 in a run that starts with an empty
    registry. *)
Lemma C4_witness :
  Rule.service_for ["25"] "good-term-2" "tcp"
    [((["25"], "tcp"), "service-good-term-1-tcp")]
  = ([((["25"], "tcp"), "service-good-term-1-tcp")],
     Ok "service-good-term-1-tcp").
Proof.
  refine (proj1 (C4_service_reused [] _ ["25"] "good-term-1" "tcp"
                   "service-good-term-1-tcp" _ _ eq_refl _ _)
            "good-term-2").
  - constructor.
  - discriminate.
  - constructor.
Defined.

(** ** Custom ICMP applications *)

Section IcmpFacts.
Context {IP : Type} `{NetworkObject IP} `{Collaborators IP}.

(** The first time a type is named: the entry is built with the keyword
    and the risk of the pass, and its name is attached to the term. *)
Lemma icmp_new_entry_attached (icmp_version keyword : string) (risk : Z)
    (type_name : string) (code : Z) (term : policy.Term IP)
    (self : PaloAltoFW.PaloAltoFW IP) :
  let v := if String.eqb icmp_version "icmp" then V4 else V6 in
  let app_name :=
    ((if String.eqb icmp_version "icmp" then "icmp-" else "icmp6-")
     ++ type_name)%string in
  ICMP_TYPE v type_name = Some code ->
  Py.dict_get String.eqb app_name (PaloAltoFW.application_refs self)
  = None ->
  ~ In app_name (policy.pan_application term) ->
  exists term' self',
    PaloAltoFW.icmp_type_loop icmp_version keyword risk [type_name] term
      self
    = (term', self', None)
    /\ policy.pan_application term'
       = policy.pan_application term ++ [app_name]
    /\ Py.dict_get String.eqb app_name (PaloAltoFW.application_refs self')
       = Some (PaloAltoFW.Build_app_entry "networking" "ip-protocol"
                 "network-protocol" app_name
                 [(keyword, Py.str_int code)] (Py.str_int risk)).
Proof.
  intros v app_name Hcode Hnew Hnot. subst v app_name.
  cbn [PaloAltoFW.icmp_type_loop].
  destruct (String.eqb icmp_version "icmp"); rewrite Hcode;
    apply dict_mem_false in Hnew; rewrite Hnew;
    apply str_in_not_In in Hnot; rewrite Hnot;
    eexists; eexists; (split; [reflexivity|]);
    (split; [reflexivity|]);
    apply (dict_get_set_same _ String.eqb_eq).
Qed.

(** A type whose entry exists already: the loop goes on to the next
    type and the term is left as it was, the name not attached. *)
Lemma icmp_reused_entry_not_attached (icmp_version keyword : string)
    (risk : Z) (type_name : string) (code : Z) (term : policy.Term IP)
    (self : PaloAltoFW.PaloAltoFW IP) (entry : PaloAltoFW.app_entry) :
  let v := if String.eqb icmp_version "icmp" then V4 else V6 in
  let app_name :=
    ((if String.eqb icmp_version "icmp" then "icmp-" else "icmp6-")
     ++ type_name)%string in
  ICMP_TYPE v type_name = Some code ->
  Py.dict_get String.eqb app_name (PaloAltoFW.application_refs self)
  = Some entry ->
  PaloAltoFW.icmp_type_loop icmp_version keyword risk [type_name] term self
  = (term, self, None).
Proof.
  intros v app_name Hcode Hold. subst v app_name.
  cbn [PaloAltoFW.icmp_type_loop]. unfold Py.dict_mem.
  destruct (String.eqb icmp_version "icmp"); now rewrite Hcode, Hold.
Qed.
End IcmpFacts.

(** C2, on the code. Two terms of one header name the ICMP type
    [echo-request]. The entry [icmp-echo-request] is built for the first
    and attached to it; for the second the loop finds the entry and goes
    on without attaching it, so the second rule has no application and is
    rendered with the members [any] for its service and its
    application. *)
Lemma C2_reused_entry_is_not_attached :
  let '(pol, st, e) :=
    PaloAltoFW.__init__ [(Example.trust_untrust,
                          [Example.ping_1; Example.ping_2])] 2 100 [] in
  e = None
  /\ map (fun f => map (fun t => (policy.name t, policy.pan_application t))
                     (snd f)) pol
     = [[("ping-1", ["icmp-echo-request"]); ("ping-2", [])]]
  /\ Py.keys (PaloAltoFW.application_refs (PaloAltoFW.fw st))
     = ["icmp-echo-request"]
  /\ map (fun p =>
            map (fun r => (fst r, Rule.application (snd r),
                           PaloAltoFW.application_lines (snd r),
                           PaloAltoFW.service_lines (snd r)))
              (snd (fst p)))
       (PaloAltoFW.pafw_policies (PaloAltoFW.fw st))
     = [[("ping-1", ["icmp-echo-request"],
          [ "                  <application>";
            "                    <member>icmp-echo-request</member>";
            "                  </application>" ],
          [ "                  <service>";
            "                    <member>application-default</member>";
            "                  </service>" ]);
         ("ping-2", [],
          [ "                  <application>";
            "                    <member>any</member>";
            "                  </application>" ],
          [ "                  <service>";
            "                    <member>any</member>";
            "                  </service>" ])]].
Proof. vm_compute. repeat split. Qed.

(** ** Names of the address book *)

Lemma split_nonempty (c : ascii) (s : string) : Py.split c s <> [].
Proof.
  induction s as [|a s IH]; simpl; [discriminate|].
  destruct (Ascii.eqb a c); [discriminate|].
  now destruct (Py.split c s).
Qed.

Lemma split_lacks (c : ascii) (s : string) : lacks c s -> Py.split c s = [s].
Proof.
  induction s as [|a s IH]; simpl; [reflexivity|].
  intros [Ha Hs]. apply Ascii.eqb_neq in Ha. rewrite Ha, (IH Hs).
  reflexivity.
Qed.

Lemma split_app (c : ascii) (s d : string) :
  Py.split c (s ++ String c d) = Py.split c s ++ Py.split c d.
Proof.
  induction s as [|a s IH]; simpl.
  - now rewrite Ascii.eqb_refl.
  - destruct (Ascii.eqb a c); rewrite IH; [reflexivity|].
    pose proof (split_nonempty c s) as Hne.
    now destruct (Py.split c s).
Qed.

Lemma digits_lack_underscore (d : uint) :
  lacks "_"%char (NilEmpty.string_of_uint d).
Proof. induction d; simpl; try split; try assumption; discriminate. Qed.

Lemma to_uint_not_Nil (n : nat) : Nat.to_uint n <> Nil.
Proof.
  intros Hn. pose proof (DecimalNat.Unsigned.of_to n) as Hof. rewrite Hn in Hof.
  simpl in Hof. subst n. discriminate.
Qed.

Lemma str_nat_lacks_underscore (n : nat) : lacks "_"%char (Py.str_nat n).
Proof.
  unfold Py.str_nat, NilZero.string_of_uint.
  pose proof (digits_lack_underscore (Nat.to_uint n)) as Hd.
  destruct (Nat.to_uint n); try exact Hd. simpl. split; [discriminate|easy].
Qed.

(** Reads the next character of a literal whose head is known. *)
Ltac read_digit :=
  cbv [Py.int_step];
  repeat match goal with
  | |- context [Py.is_space ?c] =>
      let v := eval vm_compute in (Py.is_space c) in
      change (Py.is_space c) with v
  | |- context [Ascii.eqb ?c ?c'] =>
      let v := eval vm_compute in (Ascii.eqb c c') in
      change (Ascii.eqb c c') with v
  | |- context [Py.digit ?c] =>
      let v := eval vm_compute in (Py.digit c) in
      change (Py.digit c) with v
  end;
  cbv iota beta delta [option_map].

Lemma int_from_digits (negative : bool) (d : uint) (acc : nat) :
  Py.int_from (Py.Digits negative (Z.of_nat acc)) (NilEmpty.string_of_uint d)
  = Some (if negative then Z.opp (Z.of_nat (Nat.of_uint_acc d acc))
          else Z.of_nat (Nat.of_uint_acc d acc)).
Proof.
  revert acc.
  induction d as [|d IH|d IH|d IH|d IH|d IH|d IH|d IH|d IH|d IH|d IH];
    intros acc; [reflexivity|..];
    cbn [NilEmpty.string_of_uint Py.int_from Nat.of_uint_acc];
    rewrite Nat.tail_mul_spec;
    match goal with
    | |- context [Nat.of_uint_acc _ ?a] => rewrite <- (IH a)
    end;
    read_digit; do 2 f_equal; lia.
Qed.

(** [int(str(n)) == n] *)
Lemma int_str_nat (n : nat) : Py.int_ (Py.str_nat n) = Some (Z.of_nat n).
Proof.
  unfold Py.int_, Py.str_nat, NilZero.string_of_uint.
  pose proof (DecimalNat.Unsigned.of_to n) as Hof.
  pose proof (to_uint_not_Nil n) as Hnil.
  unfold Nat.of_uint in Hof.
  destruct (Nat.to_uint n) as [|d|d|d|d|d|d|d|d|d|d]; [contradiction|..];
    cbn [NilEmpty.string_of_uint Py.int_from Nat.of_uint_acc] in Hof |- *;
    rewrite <- Hof;
    match goal with
    | |- context [Nat.of_uint_acc _ ?a] =>
        rewrite <- (int_from_digits false d a)
    end; read_digit; reflexivity.
Qed.

Lemma str_nat_not_empty (n : nat) : Py.str_nat n <> "".
Proof.
  intros He. pose proof (int_str_nat n) as Hi. rewrite He in Hi.
  discriminate.
Qed.

Lemma str_nat_inj (n k : nat) : Py.str_nat n = Py.str_nat k -> n = k.
Proof.
  intros He. pose proof (int_str_nat n) as Hn. rewrite He, int_str_nat in Hn.
  injection Hn as Hn. now apply Nat2Z.inj in Hn.
Qed.

Lemma address_name_inj (token : string) (n k : nat) :
  address_name token n = address_name token k -> n = k.
Proof.
  unfold address_name. intros He.
  apply string_append_inj_l, (string_append_inj_l "_") in He.
  now apply str_nat_inj.
Qed.

Lemma last_app_one {A : Type} (l : list A) (x d : A) : last (l ++ [x]) d = x.
Proof.
  induction l as [|a l IH]; [reflexivity|].
  simpl. destruct (l ++ [x]) eqn:E; [now destruct l|exact IH].
Qed.

(** A generated name has a sort key: its ordinal is read back. *)
Lemma sort_key_of_name (token : string) (k : nat) :
  exists alpha,
    PaloAltoFW._SortAddressBookNumCheck (address_name token k)
    = Ok (alpha, Z.of_nat k).
Proof.
  unfold PaloAltoFW._SortAddressBookNumCheck, address_name.
  change (token ++ "_" ++ Py.str_nat k)%string
    with (token ++ String "_" (Py.str_nat k))%string.
  rewrite split_app, (split_lacks _ _ (str_nat_lacks_underscore k)).
  rewrite last_app_one, removelast_last.
  pose proof (split_nonempty "_"%char token) as Hne.
  destruct (Py.split "_" token) as [|w ws]; [contradiction|].
  pose proof (str_nat_not_empty k) as Hk. apply String.eqb_neq in Hk.
  rewrite Hk, int_str_nat. eexists. reflexivity.
Qed.

(** ** The address book *)

Lemma dict_set_In {K V : Type} (eqb : K -> K -> bool)
    (eqb_eq : forall a b, eqb a b = true <-> a = b)
    (k k0 : K) (v v0 : V) (d : list (K * V)) :
  In (k, v) (Py.dict_set eqb k0 v0 d) -> (k = k0 /\ v = v0) \/ In (k, v) d.
Proof.
  induction d as [|[k' v'] d IH]; simpl.
  - intros [[= <- <-] | []]. now left.
  - destruct (eqb k0 k') eqn:E.
    + apply eqb_eq in E. subst k'. intros [[= <- <-] | Hin]; [now left|].
      right. now right.
    + intros [Hin | Hin]; [right; now left|].
      destruct (IH Hin) as [Hl | Hr]; [now left | right; now right].
  Qed.

Section BookFacts.
Context {IP : Type} `{NetworkObject IP}.

Lemma get_bucket_set (token token' : string) (b : PaloAltoFW.bucket IP)
    (zb : PaloAltoFW.zonebook IP) :
  PaloAltoFW.get_bucket token' (Py.dict_set String.eqb token b zb)
  = if String.eqb token' token then b else PaloAltoFW.get_bucket token' zb.
Proof.
  unfold PaloAltoFW.get_bucket.
  destruct (String.eqb token' token) eqn:E.
  - apply String.eqb_eq in E. subst.
    now rewrite (dict_get_set_same _ String.eqb_eq).
  - apply String.eqb_neq in E.
    now rewrite (dict_get_set_other _ String.eqb_eq _ _ _ _ E).
Qed.

Lemma get_zone_set (zone : string) (zb : PaloAltoFW.zonebook IP)
    (ab : PaloAltoFW.addressbook_t IP) :
  PaloAltoFW.get_zone zone (Py.dict_set String.eqb zone zb ab) = zb.
Proof.
  unfold PaloAltoFW.get_zone.
  now rewrite (dict_get_set_same _ String.eqb_eq).
Qed.

(** The zone after a registration: the bucket of the token is the
    registered one, the others are as they were. *)
Lemma BuildAddressBook_zone (zone : string) (address : IP)
    (ab : PaloAltoFW.addressbook_t IP) :
  forall token,
    PaloAltoFW.get_bucket token
      (PaloAltoFW.get_zone zone
         (PaloAltoFW._BuildAddressBook zone address ab))
    = if String.eqb token (parent_token address)
      then registered_bucket address (bucket_of zone address ab)
      else PaloAltoFW.get_bucket token (PaloAltoFW.get_zone zone ab).
Proof.
  intros token. unfold PaloAltoFW._BuildAddressBook, registered_bucket,
    bucket_of.
  set (ab1 := if Py.dict_mem String.eqb zone ab then ab
              else Py.dict_set String.eqb zone [] ab).
  assert (Hz : PaloAltoFW.get_zone zone ab1 = PaloAltoFW.get_zone zone ab).
  { subst ab1. destruct (Py.dict_mem String.eqb zone ab) eqn:E;
      [reflexivity|].
    rewrite get_zone_set. unfold PaloAltoFW.get_zone.
    apply dict_mem_false in E. now rewrite E. }
  rewrite Hz.
  set (zb0 := PaloAltoFW.get_zone zone ab).
  set (zb1 := if Py.dict_mem String.eqb (parent_token address) zb0
              then zb0
              else Py.dict_set String.eqb (parent_token address) [] zb0).
  assert (Hb : forall t, PaloAltoFW.get_bucket t zb1
                         = PaloAltoFW.get_bucket t zb0).
  { intros t. subst zb1.
    destruct (Py.dict_mem String.eqb (parent_token address) zb0) eqn:E;
      [reflexivity|].
    rewrite get_bucket_set.
    destruct (String.eqb t (parent_token address)) eqn:Et;
      [|reflexivity].
    apply String.eqb_eq in Et. subst t. unfold PaloAltoFW.get_bucket.
    apply dict_mem_false in E. now rewrite E. }
  rewrite Hb. unfold address_name.
  destruct (existsb _ (PaloAltoFW.get_bucket (parent_token address) zb0))
    eqn:Ex.
  - rewrite get_zone_set, Hb.
    destruct (String.eqb token (parent_token address)) eqn:Et;
      [|reflexivity].
    apply String.eqb_eq in Et. now subst token.
  - rewrite get_zone_set, get_bucket_set, Hb.
    reflexivity.
Qed.

(** The entries of the book after a registration. *)
Lemma BuildAddressBook_entries (zone : string) (address : IP)
    (ab : PaloAltoFW.addressbook_t IP) (z : string)
    (zb : PaloAltoFW.zonebook IP) :
  In (z, zb) (PaloAltoFW._BuildAddressBook zone address ab) ->
  In (z, zb) ab \/ zb = []
  \/ (z = zone
      /\ zb = PaloAltoFW.get_zone zone
                (PaloAltoFW._BuildAddressBook zone address ab)).
Proof.
  intros Hin.
  assert (Hnew : exists X,
             PaloAltoFW._BuildAddressBook zone address ab
             = Py.dict_set String.eqb zone X
                 (if Py.dict_mem String.eqb zone ab then ab
                  else Py.dict_set String.eqb zone [] ab)).
  { unfold PaloAltoFW._BuildAddressBook.
    destruct (existsb _ _); eexists; reflexivity. }
  destruct Hnew as [X HX]. rewrite HX in Hin |- *.
  rewrite get_zone_set.
  apply (dict_set_In _ String.eqb_eq) in Hin.
  destruct Hin as [[-> ->] | Hin]; [right; right; now split|].
  destruct (Py.dict_mem String.eqb zone ab); [now left|].
  apply (dict_set_In _ String.eqb_eq) in Hin.
  destruct Hin as [[-> ->] | Hin]; [right; now left | now left].
Qed.

Lemma registered_bucket_ok (address : IP) (b : PaloAltoFW.bucket IP) :
  bucket_ok (parent_token address) b ->
  bucket_ok (parent_token address) (registered_bucket address b).
Proof.
  intros Hb. unfold registered_bucket.
  destruct (existsb _ b); [assumption|].
  intros k a n Hk.
  destruct (Nat.lt_ge_cases k (length b)) as [Hlt | Hge].
  - rewrite nth_error_app1 in Hk by assumption. now apply Hb in Hk.
  - rewrite nth_error_app2 in Hk by assumption.
    destruct (k - length b) as [|r] eqn:Er.
    + simpl in Hk. injection Hk as _ <-.
      replace k with (length b) by lia. reflexivity.
    + simpl in Hk. now destruct r.
Qed.

Lemma get_zone_ok (zone : string) (ab : PaloAltoFW.addressbook_t IP) :
  book_ok ab ->
  forall token,
    bucket_ok token
      (PaloAltoFW.get_bucket token (PaloAltoFW.get_zone zone ab)).
Proof.
  intros Hok token. unfold PaloAltoFW.get_zone.
  destruct (Py.dict_get String.eqb zone ab) as [zb|] eqn:E.
  - apply (dict_get_In _ String.eqb_eq) in E. now apply (Hok zone).
  - intros k a n Hk. now destruct k.
Qed.

(** Every address of a built book is named by its token and its place
    in the bucket. *)
Lemma built_ok (ab : PaloAltoFW.addressbook_t IP) : built ab -> book_ok ab.
Proof.
  intros Hb. induction Hb as [|ab zone address _ IH].
  - intros zone zb [].
  - intros z zb Hin token.
    apply BuildAddressBook_entries in Hin.
    destruct Hin as [Hin | [-> | [-> ->]]].
    + now apply (IH z).
    + intros k a n Hk. now destruct k.
    + rewrite BuildAddressBook_zone.
      destruct (String.eqb token (parent_token address)) eqn:Et.
      * apply String.eqb_eq in Et. subst token.
        apply registered_bucket_ok. now apply get_zone_ok.
      * now apply get_zone_ok.
Qed.
End BookFacts.

(** ** Rendering the addresses *)

Lemma insert_sorted_In {A : Type} (le : A -> A -> bool) (x y : A)
    (l : list A) :
  In y (Py.insert_sorted le x l) <-> y = x \/ In y l.
Proof.
  induction l as [|a l IH]; simpl; [intuition|].
  destruct (le x a); simpl; [intuition|]. rewrite IH. intuition.
Qed.

(** [sorted] keeps the elements. *)
Lemma sorted_In {A : Type} (le : A -> A -> bool) (y : A) (l : list A) :
  In y (Py.sorted le l) <-> In y l.
Proof.
  unfold Py.sorted. induction l as [|a l IH]; simpl; [tauto|].
  rewrite insert_sorted_In, IH. intuition.
Qed.

Section RenderFacts.
Context {IP : Type} `{NetworkObject IP}.

Lemma names_step_keys (names : list (string * IP)) (a : IP) (n k : string) :
  In k (Py.keys (PaloAltoFW.names_step names (a, n)))
  <-> In k (Py.keys names) \/ k = n.
Proof.
  unfold PaloAltoFW.names_step.
  assert (Hset : forall v,
             In k (Py.keys (Py.dict_set String.eqb n v names))
             <-> In k (Py.keys names) \/ k = n).
  { intros v. rewrite keys_dict_set. unfold Py.dict_mem.
    destruct (Py.dict_get String.eqb n names) eqn:E.
    - apply (dict_get_In _ String.eqb_eq) in E.
      apply (in_map fst) in E. simpl in E. split; [tauto|].
      intros [Hk | ->]; assumption.
    - rewrite in_app_iff. simpl. intuition. }
  destruct (Py.dict_get String.eqb n names) as [known|] eqn:E;
    [|apply Hset].
  destruct (supernet_of known a); [|apply Hset].
  apply (dict_get_In _ String.eqb_eq) in E.
  apply (in_map fst) in E. simpl in E. split; [tauto|].
  intros [Hk | ->]; assumption.
Qed.

Lemma names_fold_keys (b : PaloAltoFW.bucket IP) :
  forall (names : list (string * IP)) (k : string),
    In k (Py.keys (fold_left PaloAltoFW.names_step b names))
    <-> In k (Py.keys names) \/ In k (map snd b).
Proof.
  induction b as [|[a n] b IH]; intros names k; [simpl; tauto|].
  cbn [fold_left]. rewrite IH, names_step_keys. simpl. intuition.
Qed.

(** The names [zone_step] knows after a zone: those it knew and those
    of the buckets of the zone. *)
Lemma zone_step_keys (zone : string) (zb : PaloAltoFW.zonebook IP)
    (names : list (string * IP)) (gd : list (string * list string))
    (k : string) :
  In k (Py.keys (fst (PaloAltoFW.zone_step (names, gd) (zone, zb))))
  <-> In k (Py.keys names)
      \/ exists group,
           In group (Py.keys zb)
           /\ In k (map snd (PaloAltoFW.get_bucket group zb)).
Proof.
  unfold PaloAltoFW.zone_step. simpl snd.
  set (groups := Py.sorted String.leb (Py.keys zb)).
  assert (Hfold : forall l names gd,
             In k (Py.keys (fst
                (fold_left
                   (fun '(names, gd) group =>
                      (fold_left PaloAltoFW.names_step
                         (PaloAltoFW.get_bucket group zb) names,
                       PaloAltoFW.groups_step zb groups gd))
                   l (names, gd))))
             <-> In k (Py.keys names)
                 \/ exists group,
                      In group l
                      /\ In k (map snd (PaloAltoFW.get_bucket group zb))).
  { clear names gd. induction l as [|g l IH]; intros names gd; simpl.
    - split; [tauto|]. intros [Hk | (g & [] & _)]. assumption.
    - rewrite IH, names_fold_keys. split.
      + intros [[Hk | Hk] | (g' & Hg & Hk)]; [tauto | |].
        * right. exists g. tauto.
        * right. exists g'. tauto.
      + intros [Hk | (g' & [<- | Hg] & Hk)]; [tauto | tauto |].
        right. exists g'. tauto. }
  specialize (Hfold groups names gd).
  destruct (fold_left _ groups (names, gd)) as [names' gd'].
  simpl in *. rewrite Hfold. subst groups.
  split; intros [Hk | (g & Hg & Hk)]; try tauto;
    right; exists g; (split; [|assumption]);
    [now apply sorted_In in Hg | now apply sorted_In].
Qed.

Lemma book_keys (ab : PaloAltoFW.addressbook_t IP) :
  forall (acc : list (string * IP) * list (string * list string))
         (k : string),
    In k (Py.keys (fst (fold_left PaloAltoFW.zone_step ab acc)))
    <-> In k (Py.keys (fst acc))
        \/ exists zone zb group,
             In (zone, zb) ab /\ In group (Py.keys zb)
             /\ In k (map snd (PaloAltoFW.get_bucket group zb)).
Proof.
  induction ab as [|[zone zb] ab IH]; intros [names gd] k; simpl.
  - split; [tauto|]. intros [Hk | (z & b & g & [] & _)]. assumption.
  - rewrite IH, zone_step_keys. split.
    + intros [[Hk | (g & Hg & Hk)] | (z & b & g & Hin & Hg & Hk)].
      * now left.
      * right. exists zone, zb, g. tauto.
      * right. exists z, b, g. tauto.
    + intros [Hk | (z & b & g & [[= <- <-] | Hin] & Hg & Hk)].
      * tauto.
      * left. right. exists g. tauto.
      * right. exists z, b, g. tauto.
Qed.

(** The names of the buckets of a well-named book have sort keys. *)
Lemma with_keys_Ok (names : list string) :
  (forall n, In n names -> exists token k, n = address_name token k) ->
  exists l, PaloAltoFW.with_keys names = Ok l /\ map snd l = names.
Proof.
  induction names as [|n names IH]; intros Hn; simpl.
  - now exists [].
  - destruct (Hn n) as (token & k & ->); [now left|].
    destruct (sort_key_of_name token k) as [alpha ->].
    destruct IH as (l & -> & Hl).
    { intros n' Hin. apply Hn. now right. }
    eexists. split; [reflexivity|]. simpl. now rewrite Hl.
Qed.

Lemma address_book_keys_Ok (names : list string) :
  (forall n, In n names -> exists token k, n = address_name token k) ->
  exists sorted_names,
    PaloAltoFW.address_book_keys names = Ok sorted_names
    /\ forall n, In n sorted_names <-> In n names.
Proof.
  intros Hn. destruct (with_keys_Ok names Hn) as (l & Hl & Hs).
  unfold PaloAltoFW.address_book_keys. rewrite Hl.
  eexists. split; [reflexivity|].
  intros n. rewrite <- Hs, !in_map_iff.
  split; intros (x & Hx & Hin); exists x; (split; [assumption|]);
    [now apply sorted_In in Hin | now apply sorted_In].
Qed.

Lemma address_entries_lines (names : list (string * IP))
    (l : list string) :
  (forall n, In n l -> In n (Py.keys names)) ->
  exists entries,
    PaloAltoFW.concat_results (map (PaloAltoFW.address_entry names) l)
    = Ok entries
    /\ forall n, In n l -> In (address_entry_line n) entries.
Proof.
  induction l as [|n l IH]; intros Hk; simpl.
  - exists []. split; [reflexivity | contradiction].
  - destruct IH as (entries & He & Hin).
    { intros n' Hn'. apply Hk. now right. }
    unfold PaloAltoFW.address_entry at 1.
    destruct (Py.dict_get String.eqb n names) as [a|] eqn:E.
    + rewrite He. eexists. split; [reflexivity|].
      intros n' [<- | Hn']; [now left|].
      right. right. right. right. now apply Hin.
    + apply (dict_get_None _ String.eqb_eq) in E.
      elim E. apply Hk. now left.
Qed.

(** The rendered addresses of a well-named book: one [<entry>] for
    every name of every bucket. *)
Lemma address_entries_Ok (self : PaloAltoFW.PaloAltoFW IP) :
  book_ok (PaloAltoFW.addressbook self) ->
  exists lines,
    PaloAltoFW.address_entries self = Ok lines
    /\ forall zone zb group a n,
         In (zone, zb) (PaloAltoFW.addressbook self) ->
         In group (Py.keys zb) ->
         In (a, n) (PaloAltoFW.get_bucket group zb) ->
         In (address_entry_line n) lines.
Proof.
  intros Hok. unfold PaloAltoFW.address_entries,
    PaloAltoFW.address_book_dicts.
  set (names := fst (fold_left PaloAltoFW.zone_step
                       (PaloAltoFW.addressbook self) ([], []))).
  assert (Hkeys : forall k,
             In k (Py.keys names)
             <-> exists zone zb group,
                   In (zone, zb) (PaloAltoFW.addressbook self)
                   /\ In group (Py.keys zb)
                   /\ In k (map snd (PaloAltoFW.get_bucket group zb))).
  { intros k. subst names. rewrite book_keys. simpl. tauto. }
  destruct (address_book_keys_Ok (Py.keys names)) as (sorted & -> & Hs).
  { intros n Hn. apply Hkeys in Hn.
    destruct Hn as (zone & zb & group & Hin & _ & Hn).
    apply in_map_iff in Hn. destruct Hn as ([a n'] & Hn' & Hb).
    simpl in Hn'. subst n'.
    apply In_nth_error in Hb. destruct Hb as [k Hb].
    exists group, k. exact (Hok zone zb Hin group k a n Hb). }
  destruct (address_entries_lines names sorted) as (entries & -> & Hl).
  { intros n Hn. now apply Hs. }
  eexists. split; [reflexivity|].
  intros zone zb group a n Hin Hg Hb.
  apply in_or_app. right. apply in_or_app. left. apply Hl, Hs, Hkeys.
  exists zone, zb, group. repeat split; try assumption.
  apply in_map_iff. now exists (a, n).
Qed.
End RenderFacts.

Section RegisterFacts.
Context {IP : Type} `{NetworkObject IP}.

(** After a registration the bucket holds an address with the string
    form of the registered one. *)
Lemma registered_bucket_has (address : IP) (b : PaloAltoFW.bucket IP) :
  exists k a n,
    nth_error (registered_bucket address b) k = Some (a, n)
    /\ str a = str address.
Proof.
  unfold registered_bucket.
  destruct (existsb _ b) eqn:E.
  - apply existsb_exists in E. destruct E as ([a n] & Hin & He).
    apply String.eqb_eq in He. simpl in He.
    apply In_nth_error in Hin. destruct Hin as [k Hk].
    exists k, a, n. now split.
  - exists (length b), address,
      (address_name (parent_token address) (length b)).
    split; [|reflexivity].
    rewrite nth_error_app2 by lia. now rewrite Nat.sub_diag.
Qed.

(** A registration keeps what the bucket held. *)
Lemma registered_bucket_keeps (address : IP) (b : PaloAltoFW.bucket IP)
    (k : nat) (x : IP * string) :
  nth_error b k = Some x ->
  nth_error (registered_bucket address b) k = Some x.
Proof.
  intros Hk. unfold registered_bucket.
  destruct (existsb _ b); [assumption|].
  rewrite nth_error_app1; [assumption|].
  apply nth_error_Some. congruence.
Qed.

Lemma bucket_entry_in_book (ab : PaloAltoFW.addressbook_t IP)
    (zone token : string) (k : nat) (x : IP * string) :
  nth_error (PaloAltoFW.get_bucket token (PaloAltoFW.get_zone zone ab)) k
  = Some x ->
  exists zb,
    In (zone, zb) ab /\ In token (Py.keys zb)
    /\ In x (PaloAltoFW.get_bucket token zb).
Proof.
  unfold PaloAltoFW.get_zone.
  destruct (Py.dict_get String.eqb zone ab) as [zb|] eqn:Ez.
  - intros Hk. exists zb.
    split; [now apply (dict_get_In _ String.eqb_eq)|].
    split; [|now apply nth_error_In in Hk].
    unfold PaloAltoFW.get_bucket in Hk.
    destruct (Py.dict_get String.eqb token zb) as [b|] eqn:Et.
    + apply (dict_get_In _ String.eqb_eq) in Et.
      now apply (in_map fst) in Et.
    + now destruct k.
  - intros Hk. now destruct k.
Qed.
End RegisterFacts.

(** C1, as amended. In an address book the translation built, register
    [A] and then [B] under the same zone and parent token, [B] with a
    string form other than [A]'s (as every strict subnet of [A] has).
    The bucket then holds an address with the string form of [A] and one
    with the string form of [B], at two places [i] and [j] and so under
    the two names [token_i] and [token_j], and the rendered [<address>]
    section holds an [<entry>] of each name: [_BuildAddressBook] drops an
    address only when one of the same string form is in the bucket. *)
Theorem C1_subnet_is_registered_too
    {IP : Type} `{NetworkObject IP} (ab : PaloAltoFW.addressbook_t IP)
    (zone : string) (A B : IP) :
  built ab ->
  parent_token B = parent_token A ->
  str B <> str A ->
  let ab' :=
    PaloAltoFW._BuildAddressBook zone B
      (PaloAltoFW._BuildAddressBook zone A ab) in
  let b :=
    PaloAltoFW.get_bucket (parent_token A) (PaloAltoFW.get_zone zone ab') in
  exists i j A' B',
    i <> j
    /\ nth_error b i = Some (A', address_name (parent_token A) i)
    /\ nth_error b j = Some (B', address_name (parent_token A) j)
    /\ str A' = str A /\ str B' = str B
    /\ forall self,
         PaloAltoFW.addressbook self = ab' ->
         exists lines,
           PaloAltoFW.address_entries self = Ok lines
           /\ In (address_entry_line (address_name (parent_token A) i)) lines
           /\ In (address_entry_line (address_name (parent_token A) j))
                lines.
Proof.
  intros Hbuilt Htoken Hstr ab' b.
  set (ab1 := PaloAltoFW._BuildAddressBook zone A ab) in *.
  assert (Hb : b = registered_bucket B
                     (registered_bucket A (bucket_of zone A ab))).
  { subst b ab'. rewrite <- Htoken, BuildAddressBook_zone.
    rewrite String.eqb_refl. f_equal. unfold bucket_of.
    rewrite Htoken. subst ab1. rewrite BuildAddressBook_zone.
    now rewrite String.eqb_refl. }
  assert (Hbuilt' : built ab') by (do 2 apply built_next; assumption).
  pose proof (built_ok _ Hbuilt') as Hok.
  assert (Hbok : bucket_ok (parent_token A) b)
    by (apply get_zone_ok; assumption).
  destruct (registered_bucket_has A (bucket_of zone A ab))
    as (i & A' & nA & HA & HsA).
  apply (registered_bucket_keeps B) in HA. rewrite <- Hb in HA.
  destruct (registered_bucket_has B
              (registered_bucket A (bucket_of zone A ab)))
    as (j & B' & nB & HB & HsB).
  rewrite <- Hb in HB.
  pose proof (Hbok _ _ _ HA) as ->. pose proof (Hbok _ _ _ HB) as ->.
  exists i, j, A', B'.
  split; [|split; [|split; [|split; [|split]]]]; try assumption.
  - intros Hij. rewrite <- Hij in HB. rewrite HA in HB.
    injection HB as HAB. rewrite HAB in HsA. congruence.
  - intros self Hself.
    destruct (address_entries_Ok self) as (lines & Hl & Hin);
      [now rewrite Hself|].
    rewrite Hself in Hin. exists lines. split; [assumption|].
    destruct (bucket_entry_in_book _ _ _ _ _ HA) as (zbA & HzA & HgA & HiA).
    destruct (bucket_entry_in_book _ _ _ _ _ HB) as (zbB & HzB & HgB & HiB).
    split; [exact (Hin _ _ _ _ _ HzA HgA HiA)
           | exact (Hin _ _ _ _ _ HzB HgB HiB)].
Qed.

(** C1 as stated fails on 10.0.0.0/8 and its strict subnet 10.1.0.0/16,
    both named FOO and registered in this order in zone trust: the
    rendered addresses hold an entry for each. *)
Lemma C1_counterexample :
  nacaddr.supernet_of Example.net_a Example.net_b = true
  /\ nacaddr.str Example.net_a <> nacaddr.str Example.net_b
  /\ PaloAltoFW.address_entries
       (PaloAltoFW.set_addressbook
          (PaloAltoFW._BuildAddressBook "trust" Example.net_b
             (PaloAltoFW._BuildAddressBook "trust" Example.net_a []))
          PaloAltoFW.new)
     = Ok [ "          <!-- Addresses -->";
            "          <address>";
            address_entry_line "FOO_0";
            "              <description>FOO_0</description>";
            "              <ip-netmask>10.0.0.0/8</ip-netmask>";
            "            </entry>";
            address_entry_line "FOO_1";
            "              <description>FOO_1</description>";
            "              <ip-netmask>10.1.0.0/16</ip-netmask>";
            "            </entry>";
            "          </address>" ].
Proof. vm_compute. repeat split. discriminate. Qed.

(** The two networks of the counterexample, in an empty book. *)
Lemma C1_witness :
  exists lines,
    PaloAltoFW.address_entries
      (PaloAltoFW.set_addressbook
         (PaloAltoFW._BuildAddressBook "trust" Example.net_b
            (PaloAltoFW._BuildAddressBook "trust" Example.net_a []))
         PaloAltoFW.new)
    = Ok lines
    /\ In (address_entry_line "FOO_0") lines
    /\ In (address_entry_line "FOO_1") lines.
Proof.
  destruct (C1_subnet_is_registered_too [] "trust" Example.net_a
              Example.net_b built_empty)
    as (i & j & A' & B' & Hij & HA & HB & _ & _ & Hrender).
  - reflexivity.
  - discriminate.
  - assert (Hself :
              PaloAltoFW.addressbook
                (PaloAltoFW.set_addressbook
                   (PaloAltoFW._BuildAddressBook "trust" Example.net_b
                      (PaloAltoFW._BuildAddressBook "trust" Example.net_a
                         []))
                   PaloAltoFW.new)
              = PaloAltoFW._BuildAddressBook "trust" Example.net_b
                  (PaloAltoFW._BuildAddressBook "trust" Example.net_a []))
      by reflexivity.
    destruct (Hrender _ Hself) as (lines & Hl & Hi & Hj).
    exists lines. split; [exact Hl|].
    assert (Hi2 : i = 0 \/ i = 1).
    { destruct i as [|[|i]]; [tauto | tauto |]. vm_compute in HA.
      destruct i; discriminate HA. }
    assert (Hj2 : j = 0 \/ j = 1).
    { destruct j as [|[|j]]; [tauto | tauto |]. vm_compute in HB.
      destruct j; discriminate HB. }
    destruct Hi2 as [-> | ->], Hj2 as [-> | ->]; try (now elim Hij);
      split; assumption.
Defined.

(** * Further properties of the generator *)

(** ** Splitting and joining *)

Lemma concat_cons_char (sep : string) (a : ascii) (w : string)
    (ws : list string) :
  String.concat sep (String a w :: ws)
  = String a (String.concat sep (w :: ws)).
Proof. destruct ws; reflexivity. Qed.

(** [c.join(s.split(c)) == s] *)
Lemma join_split (c : ascii) (s : string) :
  Py.join (String c EmptyString) (Py.split c s) = s.
Proof.
  unfold Py.join. induction s as [|a s IH]; [reflexivity|].
  simpl. destruct (Ascii.eqb a c) eqn:E.
  - apply Ascii.eqb_eq in E. subst a.
    pose proof (split_nonempty c s) as Hne.
    destruct (Py.split c s) as [|w ws]; [contradiction|].
    change (String.concat (String c "") ("" :: w :: ws))
      with (String c (String.concat (String c "") (w :: ws))).
    now rewrite IH.
  - pose proof (split_nonempty c s) as Hne.
    destruct (Py.split c s) as [|w ws]; [contradiction|].
    rewrite concat_cons_char. now rewrite IH.
Qed.

(** A generated name is read back. *)
Lemma sort_key_name (token : string) (k : nat) :
  PaloAltoFW._SortAddressBookNumCheck (address_name token k)
  = Ok (token, Z.of_nat k).
Proof.
  unfold PaloAltoFW._SortAddressBookNumCheck, address_name.
  change (token ++ "_" ++ Py.str_nat k)%string
    with (token ++ String "_" (Py.str_nat k))%string.
  rewrite split_app, (split_lacks _ _ (str_nat_lacks_underscore k)).
  rewrite last_app_one, removelast_last.
  pose proof (split_nonempty "_"%char token) as Hne.
  pose proof (join_split "_"%char token) as Hjoin.
  destruct (Py.split "_" token) as [|w ws]; [contradiction|].
  pose proof (str_nat_not_empty k) as Hk. apply String.eqb_neq in Hk.
  rewrite Hk, int_str_nat. change (String "_" "") with "_" in Hjoin.
  now rewrite Hjoin.
Qed.

Lemma compare_same (s : string) : String.compare s s = Eq.
Proof.
  induction s as [|c s IH]; [reflexivity|]. simpl.
  unfold Ascii.compare. now rewrite N.compare_refl.
Qed.

Lemma compare_app (s a b : string) :
  String.compare (s ++ a) (s ++ b) = String.compare a b.
Proof.
  induction s as [|c s IH]; [reflexivity|]. simpl.
  unfold Ascii.compare. now rewrite N.compare_refl.
Qed.

Lemma key_leb_same_token (token : string) (k k' : nat) (n n' : string) :
  PaloAltoFW.key_leb ((token, Z.of_nat k), n) ((token, Z.of_nat k'), n')
  = Nat.leb k k'.
Proof.
  unfold PaloAltoFW.key_leb. cbn [fst snd]. rewrite compare_same.
  destruct (Nat.leb_spec k k'); [apply Z.leb_le | apply Z.leb_gt]; lia.
Qed.

Lemma insert_sorted_map {A B : Type} (f : A -> B) (le1 : A -> A -> bool)
    (le2 : B -> B -> bool) :
  (forall x y, le2 (f x) (f y) = le1 x y) ->
  forall x l,
    Py.insert_sorted le2 (f x) (map f l) = map f (Py.insert_sorted le1 x l).
Proof.
  intros Hle x l. induction l as [|y l IH]; [reflexivity|].
  simpl. rewrite Hle. destruct (le1 x y); [reflexivity|].
  simpl. now rewrite IH.
Qed.

Lemma sorted_map {A B : Type} (f : A -> B) (le1 : A -> A -> bool)
    (le2 : B -> B -> bool) :
  (forall x y, le2 (f x) (f y) = le1 x y) ->
  forall l, Py.sorted le2 (map f l) = map f (Py.sorted le1 l).
Proof.
  intros Hle l. unfold Py.sorted. induction l as [|x l IH]; [reflexivity|].
  simpl. rewrite IH. now apply insert_sorted_map.
Qed.

Lemma with_keys_names (token : string) (ks : list nat) :
  PaloAltoFW.with_keys (map (address_name token) ks)
  = Ok (map (fun k => ((token, Z.of_nat k), address_name token k)) ks).
Proof.
  induction ks as [|k ks IH]; [reflexivity|].
  cbn [map PaloAltoFW.with_keys]. now rewrite sort_key_name, IH.
Qed.

Lemma keys_of_names (token : string) (ks : list nat) :
  PaloAltoFW.address_book_keys (map (address_name token) ks)
  = Ok (map (address_name token) (Py.sorted Nat.leb ks)).
Proof.
  unfold PaloAltoFW.address_book_keys. rewrite with_keys_names.
  rewrite (sorted_map
             (fun k => ((token, Z.of_nat k), address_name token k))
             Nat.leb PaloAltoFW.key_leb).
  - now rewrite map_map.
  - intros x y. apply key_leb_same_token.
Qed.

(** X11. [_SortAddressBookNumCheck] reads a generated address-book name
    back: for the name [<token>_<k>] that [_BuildAddressBook] gives the
    [k]-th object of a token it returns the pair of the token and [k],
    whatever the token is, underscores included.  So two generated names
    are equal only for the same token and the same place.  The key of one
    name of a token is before the key of another exactly when its place
    is not after the other's, so the sort of line 776 returns the names
    of a token, in whatever order they come, by ascending place.  That is
    not the order of the strings: [<token>_10] is before [<token>_2] as a
    string and after it in the sort. *)
Theorem sort_key_round_trip :
  (forall token k,
      PaloAltoFW._SortAddressBookNumCheck (address_name token k)
      = Ok (token, Z.of_nat k))
  /\ (forall token token' k k',
         address_name token k = address_name token' k' ->
         token = token' /\ k = k')
  /\ (forall token k k' n n',
         PaloAltoFW.key_leb
           ((token, Z.of_nat k), n) ((token, Z.of_nat k'), n') = true
         <-> k <= k')
  /\ (forall token ks,
         PaloAltoFW.address_book_keys (map (address_name token) ks)
         = Ok (map (address_name token) (Py.sorted Nat.leb ks)))
  /\ (forall token,
         String.leb (address_name token 10) (address_name token 2) = true
         /\ PaloAltoFW.address_book_keys
              [address_name token 10; address_name token 2]
            = Ok [address_name token 2; address_name token 10]).
Proof.
  split; [exact sort_key_name|]. split; [|split; [|split]].
  - intros token token' k k' He.
    pose proof (sort_key_name token k) as Hk.
    rewrite He, sort_key_name in Hk. injection Hk as -> Hk.
    split; [reflexivity | now apply Nat2Z.inj in Hk].
  - intros token k k' n n'. rewrite key_leb_same_token.
    apply Nat.leb_le.
  - exact keys_of_names.
  - intros token. split.
    + unfold String.leb, address_name. now rewrite compare_app.
    + apply (keys_of_names token [10; 2]).
Qed.

Lemma sort_key_witness :
  PaloAltoFW.address_book_keys ["FOO_10"; "FOO_2"; "FOO_0"]
  = Ok ["FOO_0"; "FOO_2"; "FOO_10"].
Proof.
  destruct sort_key_round_trip as (_ & _ & _ & Hsort & _).
  exact (Hsort "FOO" [10; 2; 0]).
Defined.

(** ** Literals *)

Lemma int_step_char (st st' : Py.int_state) (c : ascii) :
  Py.int_step st c = Some st' -> int_char c = true.
Proof.
  unfold int_char, Py.int_step.
  destruct st; destruct (Py.is_space c); destruct (Ascii.eqb c "+");
    destruct (Ascii.eqb c "-"); destruct (Ascii.eqb c "_");
    destruct (Py.digit c); simpl; intros Hs; try reflexivity;
    discriminate Hs.
Qed.

Lemma int_from_chars (s : string) :
  forall st n,
    Py.int_from st s = Some n ->
    forall c, In c (list_ascii_of_string s) -> int_char c = true.
Proof.
  induction s as [|a s IH]; intros st n Hn c; [intros []|].
  cbn [Py.int_from] in Hn.
  destruct (Py.int_step st a) as [st'|] eqn:Es; [|discriminate].
  intros [<- | Hin].
  - now apply int_step_char in Es.
  - now apply (IH st' n).
Qed.

Lemma int_from_sign_str_nat (negative : bool) (k : nat) :
  Py.int_from (Py.Sign negative) (Py.str_nat k)
  = Some (if negative then Z.opp (Z.of_nat k) else Z.of_nat k).
Proof.
  unfold Py.str_nat, NilZero.string_of_uint.
  pose proof (DecimalNat.Unsigned.of_to k) as Hof.
  pose proof (to_uint_not_Nil k) as Hnil.
  unfold Nat.of_uint in Hof.
  destruct (Nat.to_uint k) as [|d|d|d|d|d|d|d|d|d|d]; [contradiction|..];
    cbn [NilEmpty.string_of_uint Py.int_from Nat.of_uint_acc] in Hof |- *;
    rewrite <- Hof;
    match goal with
    | |- context [Nat.of_uint_acc _ ?a] =>
        rewrite <- (int_from_digits negative d a)
    end; read_digit; reflexivity.
Qed.

Lemma sort_key_of_parts (alpha num : string) :
  lacks "_"%char num -> num <> "" ->
  PaloAltoFW._SortAddressBookNumCheck (alpha ++ "_" ++ num)
  = match Py.int_ num with
    | Some n => Ok (alpha, n)
    | None => Raise (ValueError num)
    end.
Proof.
  intros Hl Hne. unfold PaloAltoFW._SortAddressBookNumCheck.
  change (alpha ++ "_" ++ num)%string
    with (alpha ++ String "_" num)%string.
  rewrite split_app, (split_lacks _ _ Hl).
  rewrite last_app_one, removelast_last.
  pose proof (split_nonempty "_"%char alpha) as Hs.
  pose proof (join_split "_"%char alpha) as Hjoin.
  destruct (Py.split "_" alpha) as [|w ws]; [contradiction|].
  apply String.eqb_neq in Hne. rewrite Hne.
  change (String "_" "") with "_" in Hjoin. now rewrite Hjoin.
Qed.

(** X12. [_SortAddressBookNumCheck] on the names it did not generate.
    A name without an underscore raises [IndexError] (after [pop] the list
    is empty and [item_list[-1]] fails); a name that ends in an underscore
    has the ordinal 0; for any other name the ordinal is what [int] reads
    in the part after the last underscore, and the name raises
    [ValueError] when [int] does.  So a last part made of a sign and
    digits has an ordinal, negative after [-]; and a last part that holds
    a character that is no digit, sign or blank raises [ValueError].  The
    ordinals are stated for last parts of 640 characters at most, which
    are below any cap an interpreter can put on the digits of a
    literal. *)
Theorem sort_key_edges :
  (forall item, lacks "_"%char item ->
     PaloAltoFW._SortAddressBookNumCheck item
     = Raise (IndexError "list index out of range"))
  /\ (forall alpha,
        PaloAltoFW._SortAddressBookNumCheck (alpha ++ "_")
        = Ok (alpha, 0%Z))
  /\ (forall alpha num n,
        lacks "_"%char num -> String.length num <= 640 ->
        Py.int_ num = Some n ->
        PaloAltoFW._SortAddressBookNumCheck (alpha ++ "_" ++ num)
        = Ok (alpha, n))
  /\ (forall alpha num,
        lacks "_"%char num -> num <> "" -> Py.int_ num = None ->
        PaloAltoFW._SortAddressBookNumCheck (alpha ++ "_" ++ num)
        = Raise (ValueError num))
  /\ (forall alpha k,
        String.length (Py.str_nat k) < 640 ->
        PaloAltoFW._SortAddressBookNumCheck (alpha ++ "_-" ++ Py.str_nat k)
        = Ok (alpha, (- Z.of_nat k)%Z)
        /\ PaloAltoFW._SortAddressBookNumCheck
             (alpha ++ "_+" ++ Py.str_nat k)
           = Ok (alpha, Z.of_nat k))
  /\ (forall alpha num c,
        lacks "_"%char num ->
        In c (list_ascii_of_string num) -> int_char c = false ->
        PaloAltoFW._SortAddressBookNumCheck (alpha ++ "_" ++ num)
        = Raise (ValueError num)).
Proof.
  split; [|split; [|split; [|split; [|split]]]].
  - intros item Hl. unfold PaloAltoFW._SortAddressBookNumCheck.
    now rewrite (split_lacks _ _ Hl).
  - intros alpha. unfold PaloAltoFW._SortAddressBookNumCheck.
    change (alpha ++ "_")%string with (alpha ++ String "_" "")%string.
    rewrite split_app. simpl (Py.split "_" "").
    rewrite last_app_one, removelast_last.
    pose proof (split_nonempty "_"%char alpha) as Hne.
    pose proof (join_split "_"%char alpha) as Hjoin.
    destruct (Py.split "_" alpha) as [|w ws]; [contradiction|].
    change (String "_" "") with "_" in Hjoin. now rewrite Hjoin.
  - intros alpha num n Hl _ Hn.
    rewrite sort_key_of_parts, Hn; [reflexivity | exact Hl |].
    intros ->. discriminate Hn.
  - intros alpha num Hl Hne Hn. now rewrite sort_key_of_parts, Hn.
  - intros alpha k _.
    pose proof (str_nat_lacks_underscore k) as Hl.
    split.
    + change (alpha ++ "_-" ++ Py.str_nat k)%string
        with (alpha ++ "_" ++ String "-" (Py.str_nat k))%string.
      rewrite sort_key_of_parts;
        [|split; [discriminate | exact Hl] | discriminate].
      unfold Py.int_. cbn [Py.int_from]. read_digit.
      now rewrite int_from_sign_str_nat.
    + change (alpha ++ "_+" ++ Py.str_nat k)%string
        with (alpha ++ "_" ++ String "+" (Py.str_nat k))%string.
      rewrite sort_key_of_parts;
        [|split; [discriminate | exact Hl] | discriminate].
      unfold Py.int_. cbn [Py.int_from]. read_digit.
      now rewrite int_from_sign_str_nat.
  - intros alpha num c Hl Hin Hc.
    rewrite sort_key_of_parts; [|exact Hl | now destruct num].
    destruct (Py.int_ num) as [n|] eqn:En; [|reflexivity].
    apply (int_from_chars num _ _ En) in Hin. congruence.
Qed.

Lemma sort_key_edges_witness :
  PaloAltoFW._SortAddressBookNumCheck "FOO"
  = Raise (IndexError "list index out of range")
  /\ PaloAltoFW._SortAddressBookNumCheck "FOO_"
     = Ok ("FOO", 0%Z)
  /\ PaloAltoFW._SortAddressBookNumCheck "FOO_ 7"
     = Ok ("FOO", 7%Z)
  /\ PaloAltoFW._SortAddressBookNumCheck "FOO_-5"
     = Ok ("FOO", (-5)%Z)
  /\ PaloAltoFW._SortAddressBookNumCheck "FOO_1-5"
     = Raise (ValueError "1-5")
  /\ PaloAltoFW._SortAddressBookNumCheck "FOO_BAR"
     = Raise (ValueError "BAR").
Proof.
  destruct sort_key_edges
    as (Hindex & Hzero & Hsome & Hnone & Hsign & Hvalue).
  split; [|split; [|split; [|split; [|split]]]].
  - apply Hindex. now repeat split.
  - exact (Hzero "FOO").
  - apply (Hsome "FOO" " 7");
      [now repeat split | simpl; lia | reflexivity].
  - apply (Hsign "FOO" 5). simpl. lia.
  - apply (Hnone "FOO" "1-5");
      [now repeat split | discriminate | reflexivity].
  - apply (Hvalue "FOO" "BAR" "B"%char);
      [now repeat split | now left | reflexivity].
Defined.

(** ** Ports *)

Lemma lacks_app (c : ascii) (a b : string) :
  lacks c (a ++ b) <-> lacks c a /\ lacks c b.
Proof.
  induction a as [|x a IH]; simpl; [tauto|]. rewrite IH. tauto.
Qed.

Lemma digits_lack_dash (d : uint) :
  lacks "-"%char (NilEmpty.string_of_uint d).
Proof. induction d; simpl; try split; try assumption; discriminate. Qed.

Lemma to_int_nonneg (z : Z) :
  (0 <= z)%Z -> exists d, Z.to_int z = Pos d /\ d <> Nil.
Proof.
  destruct z as [|p|p]; intros Hz.
  - exists (D0 Nil). split; [reflexivity|discriminate].
  - exists (Pos.to_uint p). split; [reflexivity|].
    apply DecimalPos.Unsigned.to_uint_nonnil.
  - lia.
Qed.

Lemma str_int_lacks_dash (z : Z) :
  (0 <= z)%Z -> lacks "-"%char (Py.str_int z).
Proof.
  intros Hz. destruct (to_int_nonneg z Hz) as (d & Hd & Hnil).
  unfold Py.str_int. rewrite Hd. simpl.
  unfold NilZero.string_of_uint.
  pose proof (digits_lack_dash d) as Hl.
  destruct d; try exact Hl. contradiction.
Qed.

Lemma to_int_not_nil (z : Z) :
  Z.to_int z <> Pos Nil /\ Z.to_int z <> Neg Nil.
Proof.
  destruct z as [|p|p]; simpl; split; try discriminate;
    intros [= Hp]; now apply DecimalPos.Unsigned.to_uint_nonnil in Hp.
Qed.

(** [str] is injective on the integers. *)
Lemma str_int_inj (a b : Z) : Py.str_int a = Py.str_int b -> a = b.
Proof.
  unfold Py.str_int. intros He.
  apply DecimalZ.to_int_inj.
  destruct (to_int_not_nil a) as [Ha1 Ha2].
  destruct (to_int_not_nil b) as [Hb1 Hb2].
  pose proof (NilZero.isi _ Ha1 Ha2) as Ia.
  rewrite He, (NilZero.isi _ Hb1 Hb2) in Ia. now injection Ia.
Qed.

(** Two texts without the separator, each followed by the separator and a
    rest: equal wholes have equal parts. *)
Lemma sep_inj (c : ascii) (a b x y : string) :
  lacks c a -> lacks c b ->
  (a ++ String c x = b ++ String c y)%string -> a = b /\ x = y.
Proof.
  revert b. induction a as [|p a IH]; intros [|q b]; simpl.
  - intros _ _ [= ->]. tauto.
  - intros _ [Hq _] [= Hc _]. now elim Hq.
  - intros [Hp _] _ [= Hc _]. now elim Hp.
  - intros [_ Ha] [_ Hb] [= -> He].
    destruct (IH b Ha Hb He) as [-> ->]. tauto.
Qed.

Lemma no_sep (c : ascii) (a b x : string) :
  lacks c a -> a <> (b ++ String c x)%string.
Proof.
  revert a. induction b as [|q b IH]; intros [|p a]; simpl;
    try discriminate.
  - intros [Hp _] [= Hc]. now elim Hp.
  - intros [_ Ha] [= _ He]. now apply (IH a).
Qed.

(** The string of one port or range, as [ModifyOptions] prints it. *)
Lemma port_string_inj (p q : Z * Z) :
  port_range p -> port_range q ->
  Rule.port_strings [p] = Rule.port_strings [q] -> p = q.
Proof.
  destruct p as [a b], q as [c d]. unfold port_range, Rule.port_strings.
  simpl. intros [Ha Hb] [Hc Hd].
  destruct (Z.eqb_spec a b) as [->|Hab];
    destruct (Z.eqb_spec c d) as [->|Hcd]; simpl; intros [= He].
  - apply str_int_inj in He. now subst.
  - exfalso. revert He. apply no_sep. now apply str_int_lacks_dash.
  - exfalso. symmetry in He. revert He. apply no_sep.
    now apply str_int_lacks_dash.
  - apply sep_inj in He; try now apply str_int_lacks_dash.
    destruct He as [H1 H2]. apply str_int_inj in H1, H2. now subst.
Qed.

(** X18. [_BuildPort] and the loop of [ModifyOptions] print a list of
    ports alike, and on ports that are not negative the printing is
    injective: two lists of destination ports with the same tuple of
    strings, the key of the service registry, are the same list. *)
Theorem port_strings_agree_and_are_injective :
  (forall ports, PaloAltoFW._BuildPort ports = Rule.port_strings ports)
  /\ (forall ports ports',
        Forall port_range ports -> Forall port_range ports' ->
        Rule.port_strings ports = Rule.port_strings ports' ->
        ports = ports').
Proof.
  split.
  - intros ports. unfold PaloAltoFW._BuildPort, Rule.port_strings.
    apply map_ext. intros [a b]. simpl. now destruct (Z.eqb a b).
  - induction ports as [|p ports IH]; intros [|q ports'] Hp Hq;
      try discriminate; [reflexivity|].
    inversion Hp as [|? ? Hp1 Hp2]. inversion Hq as [|? ? Hq1 Hq2]. subst.
    unfold Rule.port_strings. simpl. intros [= H1 H2].
    f_equal.
    + apply port_string_inj; try assumption.
      unfold Rule.port_strings. simpl. now rewrite H1.
    + now apply IH.
Qed.

Lemma port_strings_witness :
  PaloAltoFW._BuildPort [(80, 80); (8000, 8080)]%Z = ["80"; "8000-8080"]
  /\ [(80, 80); (8000, 8080)]%Z = [(80, 80); (8000, 8080)]%Z.
Proof.
  destruct port_strings_agree_and_are_injective as [Hagree Hinj].
  split.
  - now rewrite Hagree.
  - apply Hinj.
    + repeat constructor; simpl; lia.
    + repeat constructor; simpl; lia.
    + reflexivity.
Defined.

(** ** The description of a rule *)

Lemma substring_length (n : nat) (s : string) :
  String.length (substring 0 n s) <= n.
Proof.
  revert s. induction n as [|n IH]; intros [|c s]; simpl; try lia.
  specialize (IH s). lia.
Qed.

Lemma substring_prefix (n : nat) (s : string) :
  String.prefix (substring 0 n s) s = true.
Proof.
  revert s. induction n as [|n IH]; intros [|c s]; simpl;
    try reflexivity.
  destruct (ascii_dec c c) as [_|Hc]; [apply IH|now elim Hc].
Qed.

Lemma prefix_refl (s : string) : String.prefix s s = true.
Proof.
  induction s as [|c s IH]; simpl; [reflexivity|].
  destruct (ascii_dec c c) as [_|Hc]; [exact IH|now elim Hc].
Qed.

(** X19. A rule is rendered with at most one description line; its text
    is the start of the comment lines joined by blanks and never has more
    than [_MAX_RULE_DESCRIPTION_LENGTH] (1024) characters; a rule without
    comment has none. *)
Theorem description_is_capped (options : Rule.options) :
  (Rule.description options = []
   /\ PaloAltoFW.description_lines options = [])
  \/ exists descr,
       PaloAltoFW.description_lines options = [description_line descr]
       /\ String.length descr <= 1024
       /\ String.prefix descr (Py.join " " (Rule.description options))
          = true
       /\ (String.length (Py.join " " (Rule.description options)) <= 1024
           -> descr = Py.join " " (Rule.description options)).
Proof.
  unfold PaloAltoFW.description_lines.
  destruct (Rule.description options) as [|d ds] eqn:E; [now left|].
  right.
  change PaloAltoFW._MAX_RULE_DESCRIPTION_LENGTH with 1024.
  destruct (Nat.ltb 1024 (String.length (Py.join " " (d :: ds)))) eqn:L.
  - exists (Py.take 1024 (Py.join " " (d :: ds))).
    split; [reflexivity|]. unfold Py.take.
    split; [apply substring_length|].
    split; [apply substring_prefix|].
    apply Nat.ltb_lt in L. lia.
  - exists (Py.join " " (d :: ds)).
    split; [reflexivity|]. apply Nat.ltb_ge in L.
    split; [exact L|]. split; [apply prefix_refl|reflexivity].
Qed.

(** ** The applications of the protocols *)

Lemma protocol_applications_fold (protocols : list string) :
  forall acc,
    Rule.protocol_applications protocols acc
    = fold_left
        (fun acc p =>
           match protocol_application p with
           | Some a => if Py.str_in a acc then acc else acc ++ [a]
           | None => acc
           end)
        protocols acc.
Proof.
  induction protocols as [|p rest IH]; intros acc; [reflexivity|].
  cbn [Rule.protocol_applications fold_left]. rewrite <- IH.
  unfold protocol_application.
  destruct (Py.str_in p ["icmp"; "icmpv6"]); [reflexivity|].
  destruct (Py.str_in p ["igmp"; "sctp"]); [reflexivity|].
  destruct (Py.str_in p ["tcp"; "udp"]); reflexivity.
Qed.

(** Adding what is not there yet, item by item. *)
Lemma add_absent_fold {A : Type} (f : A -> option string) (l : list A) :
  forall acc,
    exists added,
      fold_left
        (fun acc p =>
           match f p with
           | Some a => if Py.str_in a acc then acc else acc ++ [a]
           | None => acc
           end)
        l acc
      = acc ++ added
      /\ NoDup added
      /\ forall x, In x added
                   <-> ~ In x acc /\ exists p, In p l /\ f p = Some x.
Proof.
  induction l as [|p rest IH]; intros acc; simpl.
  - exists []. rewrite app_nil_r. split; [reflexivity|].
    split; [constructor|]. intros x. split; [contradiction|].
    now intros (_ & q & [] & _).
  - destruct (f p) as [a|] eqn:Ef.
    + destruct (Py.str_in a acc) eqn:Ea.
      * destruct (IH acc) as (added & -> & Hnd & Hin).
        exists added. split; [reflexivity|]. split; [assumption|].
        intros x. rewrite Hin. apply str_in_In in Ea. split.
        -- intros (Hx & q & Hq & Hfq). split; [assumption|].
           exists q. split; [now right | assumption].
        -- intros (Hx & q & [<- | Hq] & Hfq).
           ++ rewrite Ef in Hfq. injection Hfq as <-. contradiction.
           ++ split; [assumption|]. now exists q.
      * destruct (IH (acc ++ [a])) as (added & -> & Hnd & Hin).
        apply str_in_not_In in Ea.
        exists (a :: added). rewrite <- app_assoc. simpl.
        split; [reflexivity|]. split.
        -- constructor; [|assumption]. intros Ha. apply Hin in Ha.
           destruct Ha as [Ha _]. apply Ha, in_or_app. right. now left.
        -- intros x. simpl. rewrite Hin. split.
           ++ intros [<- | (Hx & q & Hq & Hfq)].
              ** split; [assumption|]. exists p. split; [now left|].
                 assumption.
              ** split.
                 --- intros Hacc. apply Hx, in_or_app. now left.
                 --- exists q. split; [now right | assumption].
           ++ intros (Hx & q & Hq & Hfq).
              destruct (string_dec a x) as [->|Hax]; [now left|].
              right. split.
              ** intros Hacc. apply in_app_or in Hacc.
                 destruct Hacc as [Hacc | [-> | []]];
                   [contradiction | now elim Hax].
              ** destruct Hq as [<- | Hq].
                 --- rewrite Ef in Hfq. injection Hfq as ->.
                     now elim Hax.
                 --- now exists q.
    + destruct (IH acc) as (added & -> & Hnd & Hin).
      exists added. split; [reflexivity|]. split; [assumption|].
      intros x. rewrite Hin. split.
      * intros (Hx & q & Hq & Hfq). split; [assumption|].
        exists q. split; [now right | assumption].
      * intros (Hx & q & [<- | Hq] & Hfq).
        -- rewrite Ef in Hfq. discriminate.
        -- split; [assumption|]. now exists q.
Qed.

Lemma protocol_application_Some (p x : string) :
  protocol_application p = Some x
  <-> (x = "any" /\ (p = "tcp" \/ p = "udp"))
      \/ (x = p /\ (p = "igmp" \/ p = "sctp")).
Proof.
  unfold protocol_application.
  destruct (Py.str_in p ["icmp"; "icmpv6"]) eqn:E1.
  - apply str_in_In in E1. split; [discriminate|].
    destruct E1 as [<- | [<- | []]];
      intros [(_ & [H | H]) | (_ & [H | H])]; discriminate.
  - apply str_in_not_In in E1.
    destruct (Py.str_in p ["igmp"; "sctp"]) eqn:E2.
    + apply str_in_In in E2. split.
      * intros [= <-]. right. split; [reflexivity|].
        destruct E2 as [<- | [<- | []]]; auto.
      * intros [(_ & [-> | ->]) | (-> & _)]; try reflexivity;
          destruct E2 as [E2 | [E2 | []]]; discriminate.
    + apply str_in_not_In in E2.
      destruct (Py.str_in p ["tcp"; "udp"]) eqn:E3.
      * apply str_in_In in E3. split.
        -- intros [= <-]. left. split; [reflexivity|].
           destruct E3 as [<- | [<- | []]]; auto.
        -- intros [(-> & _) | (_ & [-> | ->])]; try reflexivity;
             elim E2; simpl; auto.
      * apply str_in_not_In in E3. split; [discriminate|].
        intros [(_ & [-> | ->]) | (_ & [-> | ->])].
        -- elim E3. simpl. auto.
        -- elim E3. simpl. auto.
        -- elim E2. simpl. auto.
        -- elim E2. simpl. auto.
Qed.

(** X15. The loop over the protocols of a term (lines 256-268) only
    appends to the applications, never twice the same and never one that
    is there already: [any] when the term has [tcp] or [udp], [igmp] and
    [sctp] when the term has them, and nothing for any other protocol,
    [icmp] and [icmpv6] included. *)
Theorem protocol_applications_appends_once (protocols acc : list string) :
  exists added,
    Rule.protocol_applications protocols acc = acc ++ added
    /\ NoDup added
    /\ forall x,
         In x added
         <-> ~ In x acc
             /\ ((x = "any" /\ (In "tcp" protocols \/ In "udp" protocols))
                 \/ ((x = "igmp" \/ x = "sctp") /\ In x protocols)).
Proof.
  rewrite protocol_applications_fold.
  destruct (add_absent_fold protocol_application protocols acc)
    as (added & -> & Hnd & Hin).
  exists added. split; [reflexivity|]. split; [assumption|].
  intros x. rewrite Hin. split.
  - intros (Hx & p & Hp & Hf). split; [assumption|].
    apply protocol_application_Some in Hf.
    destruct Hf as [(-> & [-> | ->]) | (-> & Hp')]; auto.
  - intros (Hx & [(-> & [Hp | Hp]) | (Hx' & Hp)]); (split; [assumption|]).
    + exists "tcp". split; [assumption | reflexivity].
    + exists "udp". split; [assumption | reflexivity].
    + exists x. split; [assumption|].
      apply protocol_application_Some. right. split; [reflexivity|].
      assumption.
Qed.

(** ** The members of source and destination *)

Lemma set_add_In (x y : string) (s : list string) :
  In y (Py.set_add x s) <-> In y s \/ y = x.
Proof.
  unfold Py.set_add. destruct (Py.str_in x s) eqn:E.
  - apply str_in_In in E. split; [auto|]. now intros [H | ->].
  - rewrite in_app_iff. simpl. split.
    + intros [H | [<- | []]]; auto.
    + intros [H | ->]; auto.
Qed.

Lemma set_add_NoDup (x : string) (s : list string) :
  NoDup s -> NoDup (Py.set_add x s).
Proof.
  intros Hs. unfold Py.set_add. destruct (Py.str_in x s) eqn:E;
    [assumption|].
  apply str_in_not_In in E. apply NoDup_app; [assumption | |].
  - repeat constructor. now intros [].
  - intros y Hy [<- | []]. contradiction.
Qed.

Lemma set_of_fold (l : list string) :
  forall s,
    NoDup s ->
    NoDup (fold_left (fun s x => Py.set_add x s) l s)
    /\ forall y, In y (fold_left (fun s x => Py.set_add x s) l s)
                 <-> In y s \/ In y l.
Proof.
  induction l as [|x l IH]; intros s Hs; simpl.
  - split; [assumption|]. intros y. tauto.
  - destruct (IH (Py.set_add x s) (set_add_NoDup x s Hs)) as [Hnd Hin].
    split; [assumption|]. intros y. rewrite Hin, set_add_In.
    split; [intros [[H | ->] | H] | intros [H | [-> | H]]]; auto.
Qed.

Lemma insert_sorted_NoDup {A : Type} (le : A -> A -> bool) (x : A)
    (l : list A) :
  ~ In x l -> NoDup l -> NoDup (Py.insert_sorted le x l).
Proof.
  induction l as [|y l IH]; simpl; intros Hx Hl.
  - repeat constructor. now intros [].
  - destruct (le x y).
    + constructor; assumption.
    + inversion Hl as [|? ? Hy Hl']. subst. constructor.
      * rewrite insert_sorted_In. intros [-> | H]; [|contradiction].
        apply Hx. now left.
      * apply IH; [|assumption]. intros H. apply Hx. now right.
Qed.

Lemma sorted_NoDup {A : Type} (le : A -> A -> bool) (l : list A) :
  NoDup l -> NoDup (Py.sorted le l).
Proof.
  induction l as [|x l IH]; intros Hl; [constructor|].
  inversion Hl as [|? ? Hx Hl']. subst. simpl.
  apply insert_sorted_NoDup; [|now apply IH].
  change (fold_right (Py.insert_sorted le) [] l) with (Py.sorted le l).
  now rewrite sorted_In.
Qed.

Lemma insert_sorted_Sorted (x : string) (l : list string) :
  Sorted (fun a b => String.leb a b = true) l ->
  Sorted (fun a b => String.leb a b = true) (Py.insert_sorted String.leb x l).
Proof.
  induction l as [|y l IH]; simpl; intros Hl.
  - repeat constructor.
  - destruct (String.leb x y) eqn:E.
    + constructor; [assumption|]. now constructor.
    + inversion Hl as [|? ? Hl' Hhd]. subst.
      constructor; [now apply IH|].
      assert (Hyx : String.leb y x = true).
      { destruct (String.leb_total x y) as [H | H]; [congruence|exact H]. }
      destruct l as [|z l]; simpl.
      * now constructor.
      * destruct (String.leb x z); constructor; [assumption|].
        now inversion Hhd.
Qed.

Lemma sorted_Sorted (l : list string) :
  Sorted (fun a b => String.leb a b = true) (Py.sorted String.leb l).
Proof.
  induction l as [|x l IH]; simpl; [constructor|].
  now apply insert_sorted_Sorted.
Qed.

(** X16. The members [ModifyOptions] gives a rule for its source (and,
    by the same code, its destination): [any] alone for a term without
    addresses; otherwise the parent tokens of the addresses, each one
    once, in ascending order. *)
Theorem address_options_are_the_sorted_tokens
    {IP : Type} `{NetworkObject IP} (addresses : list IP) :
  (addresses = [] -> Rule.address_options addresses = ["any"])
  /\ (addresses <> [] ->
      NoDup (Rule.address_options addresses)
      /\ Sorted (fun a b => String.leb a b = true)
           (Rule.address_options addresses)
      /\ forall x,
           In x (Rule.address_options addresses)
           <-> exists a, In a addresses /\ parent_token a = x).
Proof.
  split; [now intros ->|].
  destruct addresses as [|a0 l]; [now intros []|]. intros _.
  unfold Rule.address_options, Py.set_of.
  destruct (set_of_fold (map parent_token (a0 :: l)) [] (NoDup_nil _))
    as [Hnd Hin].
  split; [now apply sorted_NoDup|].
  split; [apply sorted_Sorted|].
  intros x. rewrite sorted_In, Hin, in_map_iff. split.
  - intros [[] | (a & Ha & Hl)]. now exists a.
  - intros (a & Hl & Ha). right. now exists a.
Qed.

(** ** The zones of a rule *)

(** X6. [Rule.__init__] raises the option error when a zone is empty,
    before anything else.  A rule it builds has exactly the two zones it
    was given, and [__str__] marks it [interzone] exactly when they
    differ. *)
Theorem rule_zones {IP : Type} `{NetworkObject IP}
    (fz tz : string) (term : Term.Term IP) (m : Service.service_map) :
  (fz = "" \/ tz = "" ->
   Rule.__init__ fz tz term m = (m, Raise PaloAltoFWOptionError))
  /\ forall m' options,
       Rule.__init__ fz tz term m = (m', Ok options) ->
       fz <> "" /\ tz <> ""
       /\ Rule.from_zone options = [fz] /\ Rule.to_zone options = [tz]
       /\ (fz <> tz -> PaloAltoFW.rule_type_lines options = [interzone_line])
       /\ (fz = tz -> PaloAltoFW.rule_type_lines options = []).
Proof.
  unfold Rule.__init__. split.
  - intros [-> | ->]; [reflexivity|].
    now rewrite orb_true_r.
  - intros m' options.
    destruct (String.eqb fz "") eqn:Ef; [discriminate|].
    destruct (String.eqb tz "") eqn:Et; [discriminate|].
    simpl. intros Hm. apply ModifyOptions_fields in Hm.
    destruct Hm as (Hfz & Htz & _).
    apply String.eqb_neq in Ef, Et.
    unfold PaloAltoFW.rule_type_lines. rewrite Hfz, Htz. simpl.
    repeat split; try assumption.
    + intros Hne. apply String.eqb_neq in Hne. now rewrite Hne.
    + intros <-. now rewrite String.eqb_refl.
Qed.

Lemma rule_zones_witness :
  Rule.__init__ "" "untrust"
    (Term.__init__ (Example.smtp "mail") "inet"
       ["from-zone"; ""; "to-zone"; "untrust"]) []
  = ([], Raise PaloAltoFWOptionError)
  /\ exists m' options,
       Rule.__init__ "trust" "untrust"
         (Term.__init__ (Example.smtp "mail") "inet"
            ["from-zone"; "trust"; "to-zone"; "untrust"]) []
       = (m', Ok options)
       /\ PaloAltoFW.rule_type_lines options = [interzone_line].
Proof.
  split.
  - apply rule_zones. now left.
  - destruct (Rule.__init__ "trust" "untrust"
                (Term.__init__ (Example.smtp "mail") "inet"
                   ["from-zone"; "trust"; "to-zone"; "untrust"]) [])
      as [m' [options|e]] eqn:E; [|discriminate E].
    exists m', options. split; [reflexivity|].
    destruct (proj2 (rule_zones "trust" "untrust" _ _) _ _ E)
      as (_ & _ & _ & _ & Hinter & _).
    apply Hinter. discriminate.
Defined.

(** ** The service registry of a run *)

Lemma port_strings_not_empty (ports : list (Z * Z)) :
  ports <> [] -> Rule.port_strings ports <> [].
Proof. destruct ports; [now intros [] | discriminate]. Qed.

Lemma service_for_registered (ports : list string) (term_name p : string)
    (m m' : Service.service_map) (r : result string) :
  ports <> [] ->
  Rule.service_for ports term_name p m = (m', r) ->
  registered_after m m'.
Proof.
  intros Hp. destruct r as [s|e]; intros Hs.
  - apply service_for_Ok in Hs. destruct Hs as [_ [-> | Hi]].
    + constructor.
    + eapply registered_next; [constructor | exact Hp | exact Hi].
  - apply service_for_error in Hs. destruct Hs as [-> _]. constructor.
Qed.

Lemma service_options_registered (ports : list string) (term_name : string)
    (protocols : list string) :
  ports <> [] ->
  forall acc m m' r,
    Rule.service_options ports term_name protocols acc m = (m', r) ->
    registered_after m m'.
Proof.
  intros Hp. induction protocols as [|p rest IH]; intros acc m m' r; simpl.
  - intros [= <- _]. constructor.
  - destruct (Rule.service_for ports term_name p m) as [m1 [n|e1]] eqn:Es;
      pose proof (service_for_registered _ _ _ _ _ _ Hp Es) as H1.
    + intros Hr. apply IH in Hr. eapply registered_after_trans; eassumption.
    + now intros [= <- _].
Qed.

Lemma Rule_init_registered {IP : Type} `{NetworkObject IP}
    (fz tz : string) (term : Term.Term IP)
    (m m' : Service.service_map) (r : result Rule.options) :
  Rule.__init__ fz tz term m = (m', r) -> registered_after m m'.
Proof.
  unfold Rule.__init__.
  destruct (_ || _); [intros [= <- _]; constructor|].
  unfold Rule.ModifyOptions.
  destruct (policy.destination_port (Term.term term)) as [|d ds] eqn:Ed.
  - intros [= <- _]. constructor.
  - destruct (Rule.service_options _ _ _ _ _) as [m1 [names|e1]] eqn:Es;
      intros [= <- _];
      (eapply service_options_registered; [|exact Es]);
      now apply port_strings_not_empty.
Qed.

Lemma build_ruleset_registered {IP : Type} `{NetworkObject IP}
    (fz tz : string) (new_terms : list (Term.Term IP)) :
  forall ruleset m ruleset' m' e,
    PaloAltoFW.build_ruleset fz tz new_terms ruleset m = (ruleset', m', e) ->
    registered_after m m'.
Proof.
  induction new_terms as [|t rest IH]; intros ruleset m ruleset' m' e;
    simpl.
  - intros [= _ <- _]. constructor.
  - destruct (Rule.__init__ fz tz t m) as [m1 [o|e1]] eqn:Er;
      pose proof (Rule_init_registered _ _ _ _ _ _ Er) as H1.
    + intros Hr. apply IH in Hr. eapply registered_after_trans; eassumption.
    + now intros [= _ <- _].
Qed.

Lemma translate_header_registered {IP : Type} `{NetworkObject IP}
    `{Collaborators IP} (cd ed : Z) (header : policy.Header)
    (terms : list (policy.Term IP)) (st : PaloAltoFW.State IP)
    terms' st' e :
  PaloAltoFW.translate_header cd ed header terms st = (terms', st', e) ->
  registered_after (PaloAltoFW.service_map st) (PaloAltoFW.service_map st').
Proof.
  unfold PaloAltoFW.translate_header.
  destruct (negb (Py.str_in _ _)); [intros [= _ <- _]; constructor|].
  destruct (_ || _); [intros [= _ <- _]; constructor|].
  destruct (negb (Py.str_in _ PaloAltoFW._SUPPORTED_AF));
    [intros [= _ <- _]; constructor|].
  destruct (PaloAltoFW.translate_terms _ _ _ _ _ _) as [[ts lst] [e1|]];
    [intros [= _ <- _]; constructor|].
  destruct (PaloAltoFW.build_ruleset _ _ _ _ _) as [[rs m1] [e1|]] eqn:Er;
    intros [= _ <- _]; simpl;
    now apply build_ruleset_registered in Er.
Qed.

Lemma translate_filters_registered {IP : Type} `{NetworkObject IP}
    `{Collaborators IP} (cd ed : Z) (filters : policy.Policy IP) :
  forall st filters' st' e,
    PaloAltoFW.translate_filters cd ed filters st = (filters', st', e) ->
    registered_after (PaloAltoFW.service_map st)
      (PaloAltoFW.service_map st').
Proof.
  induction filters as [|[header terms] rest IH]; intros st filters' st' e;
    simpl.
  - intros [= _ <- _]. constructor.
  - destruct (PaloAltoFW.translate_header cd ed header terms st)
      as [[ts st1] [e1|]] eqn:Eh;
      pose proof (translate_header_registered _ _ _ _ _ _ _ _ Eh) as H1.
    + now intros [= _ <- _].
    + destruct (PaloAltoFW.translate_filters cd ed rest st1)
        as [[rest' st2] e2] eqn:Ef.
      intros [= _ <- _]. apply IH in Ef.
      eapply registered_after_trans; eassumption.
Qed.

Lemma registered_after_extends (m m' : Service.service_map) :
  registered_after m m' -> exists added, m' = m ++ added.
Proof.
  intros Hr. induction Hr as [|ma mb ports n p _ IH Hp Hi].
  - exists []. now rewrite app_nil_r.
  - destruct IH as [added ->]. apply Service_init_Ok in Hi.
    destruct Hi as (-> & _). rewrite <- app_assoc. eauto.
Qed.

Lemma registered_entries (m : Service.service_map) :
  registered m -> Forall service_entry_ok m.
Proof.
  intros Hr. induction Hr as [|ma mb ports n p _ IH Hp Hi];
    [constructor|].
  pose proof Hi as Hi'. apply Service_init_Ok in Hi'.
  destruct Hi' as (-> & _). apply Forall_app. split; [assumption|].
  constructor; [|constructor]. unfold service_entry_ok. cbn [fst snd].
  split; [assumption|]. split.
  - revert Hi. unfold Service.__init__.
    destruct (Service.contains _ _); [discriminate|].
    destruct (existsb _ _); [discriminate|].
    destruct (Nat.ltb 63 _) eqn:L; [discriminate|].
    intros _. apply Nat.ltb_ge in L. exact L.
  - now exists n.
Qed.

(** X1. The invariant of the service registry.  In every registry the
    generator builds, starting from the empty one, no pair of ports and
    protocol is registered twice and no name is given twice; every entry
    has ports, and its name is ["service-" + term name + "-" + protocol]
    with the protocol of its key and has at most 63 characters. *)
Theorem service_registry_invariant (m : Service.service_map) :
  registered m ->
  NoDup (map fst m) /\ NoDup (map snd m) /\ Forall service_entry_ok m.
Proof.
  intros Hr. destruct (registered_invariants m Hr) as (Hk & Hn & _).
  split; [assumption|]. split; [assumption|].
  now apply registered_entries.
Qed.

Lemma service_registry_witness :
  let m := [((["25"], "tcp"), "service-mail-tcp");
            ((["53"], "udp"), "service-dns-udp")] in
  NoDup (map fst m) /\ NoDup (map snd m) /\ Forall service_entry_ok m.
Proof.
  apply service_registry_invariant.
  apply (registered_next [] [((["25"], "tcp"), "service-mail-tcp")] _
           ["53"] "dns" "udp").
  - apply (registered_next [] [] _ ["25"] "mail" "tcp").
    + apply registered_same.
    + discriminate.
    + reflexivity.
  - discriminate.
  - reflexivity.
Defined.

(** X2. [Service.service_map] is a class attribute that nothing resets:
    whatever a translation does, and also when it ends in an exception,
    the registry afterwards is the registry before followed by the
    services registered meanwhile, and a registry that satisfied the
    invariant still does. *)
Theorem translation_extends_the_registry
    {IP : Type} `{NetworkObject IP} `{Collaborators IP}
    (pol : policy.Policy IP) (exp_info current_date : Z)
    (st : PaloAltoFW.State IP) :
  let st' :=
    snd (fst (PaloAltoFW._TranslatePolicy pol exp_info current_date st)) in
  (exists added,
      PaloAltoFW.service_map st' = PaloAltoFW.service_map st ++ added)
  /\ (forall k s,
         Service.lookup k (PaloAltoFW.service_map st) = Some s ->
         Service.lookup k (PaloAltoFW.service_map st') = Some s)
  /\ (registered (PaloAltoFW.service_map st) ->
      registered (PaloAltoFW.service_map st')).
Proof.
  destruct (TranslatePolicy_cases pol exp_info current_date st)
    as [(d & _ & ->) | (_ & ->)].
  - destruct (PaloAltoFW.translate_filters _ _ pol st)
      as [[pol' st'] e] eqn:E.
    simpl. apply translate_filters_registered in E.
    split; [now apply registered_after_extends|].
    split.
    + intros k s. now apply registered_after_lookup.
    + intros Hr. unfold registered in *.
      eapply registered_after_trans; eassumption.
  - cbv zeta. simpl. split; [exists []; now rewrite app_nil_r|].
    split; auto.
Qed.

(** ** The flows of a term *)

Section FlowCases.
Context {IP : Type} `{NetworkObject IP}.

Lemma version_eqb_eq (a b : IPVersion) : version_eqb a b = true <-> a = b.
Proof. destruct a, b; simpl; split; congruence. Qed.

Lemma afc_positive (v : IPVersion) (l : list IP) :
  Nat.ltb 0 (PaloAltoFW.afc v l) = true
  <-> exists a, In a l /\ version a = v.
Proof.
  unfold PaloAltoFW.afc. induction l as [|x l IH]; simpl.
  - split; [discriminate | now intros (a & [] & _)].
  - destruct (version_eqb (version x) v) eqn:E.
    + simpl. split; [|reflexivity]. intros _. exists x.
      apply version_eqb_eq in E. auto.
    + rewrite IH. split.
      * intros (a & Ha & Hv). exists a. auto.
      * intros (a & [<- | Ha] & Hv).
        -- apply version_eqb_eq in Hv. congruence.
        -- now exists a.
Qed.

Lemma has_family_bool (v : IPVersion) (l : list IP) :
  has_family v l
  <-> PaloAltoFW.is_empty l || Nat.ltb 0 (PaloAltoFW.afc v l) = true.
Proof.
  unfold has_family. rewrite orb_true_iff, afc_positive.
  destruct l; simpl; split; intros [Hl | Hl]; auto; discriminate.
Qed.

Lemma flows_of_version_cases (v : IPVersion) (src_any dst_any : bool)
    (src dst : nat) :
  let S := src_any || Nat.ltb 0 src in
  let D := dst_any || Nat.ltb 0 dst in
  PaloAltoFW.flows_of_version v src_any dst_any src dst
  = if S && D then [PaloAltoFW.flow_dual v]
    else if S then [PaloAltoFW.flow_src_only v; PaloAltoFW.flow_only v]
    else if D then [PaloAltoFW.flow_dst_only v; PaloAltoFW.flow_only v]
    else [].
Proof.
  unfold PaloAltoFW.flows_of_version.
  destruct src_any, dst_any, src, dst; reflexivity.
Qed.

(** X7. The flows computed for a term (lines 436-479), for each of the
    two address families: the dual flow [ipN-ipN] is there exactly when
    both sides admit the family, a side admitting it when it has no
    address at all or an address of the family; [ipN-src-only] exactly
    when only the source does, [ipN-dst-only] exactly when only the
    destination does, and [ipN-only] in these two cases. *)
Theorem flows_characterised (t : policy.Term IP) (v : IPVersion) :
  let flows := PaloAltoFW.compute_flows t in
  let S := has_family v (policy.source_address t) in
  let D := has_family v (policy.destination_address t) in
  (In (PaloAltoFW.flow_dual v) flows <-> S /\ D)
  /\ (In (PaloAltoFW.flow_src_only v) flows <-> S /\ ~ D)
  /\ (In (PaloAltoFW.flow_dst_only v) flows <-> ~ S /\ D)
  /\ (In (PaloAltoFW.flow_only v) flows <-> (S /\ ~ D) \/ (~ S /\ D)).
Proof.
  intros flows S D. subst flows S D.
  rewrite !has_family_bool.
  unfold PaloAltoFW.compute_flows. cbn [flat_map].
  rewrite !flows_of_version_cases, app_nil_r.
  set (sa := PaloAltoFW.is_empty (policy.source_address t)).
  set (da := PaloAltoFW.is_empty (policy.destination_address t)).
  destruct v.
  - destruct (sa || Nat.ltb 0 (PaloAltoFW.afc V4 (policy.source_address t)));
    destruct (da
              || Nat.ltb 0 (PaloAltoFW.afc V4 (policy.destination_address t)));
    destruct (sa || Nat.ltb 0 (PaloAltoFW.afc V6 (policy.source_address t)));
    destruct (da
              || Nat.ltb 0 (PaloAltoFW.afc V6 (policy.destination_address t)));
    vm_compute; intuition (discriminate || congruence).
  - destruct (sa || Nat.ltb 0 (PaloAltoFW.afc V4 (policy.source_address t)));
    destruct (da
              || Nat.ltb 0 (PaloAltoFW.afc V4 (policy.destination_address t)));
    destruct (sa || Nat.ltb 0 (PaloAltoFW.afc V6 (policy.source_address t)));
    destruct (da
              || Nat.ltb 0 (PaloAltoFW.afc V6 (policy.destination_address t)));
    vm_compute; intuition (discriminate || congruence).
Qed.

End FlowCases.

(** ** Terms that are left out *)

Section LeftOut.
Context {IP : Type} `{NetworkObject IP} `{Collaborators IP}.

(** X20. A term that is not skipped, whose name is accepted and new, and
    that is expired, or that an [inet] ([inet6]) filter cannot take
    because it names [icmpv6] ([icmp]) or has no IPv4 (IPv6) flow, is
    dropped with a warning.  Its name was checked and recorded before:
    it stays reserved in the header although no rule will carry it.
    Nothing else changes: no new term, and the address book and the
    applications are as they were. *)
Theorem terms_left_out_reserve_their_name
    (filter_type : string) (filter_options : list string) (cd ed : Z)
    (t : policy.Term IP) (st : PaloAltoFW.loop_state IP) (fixed : string) :
  not_skipped t ->
  fixed_name t = Some fixed ->
  ~ In fixed (PaloAltoFW.term_dup_check st) ->
  left_out filter_type cd t ->
  exists t' st' w,
    PaloAltoFW.translate_term filter_type filter_options cd ed t st
    = (t', st', PaloAltoFW.Dropped)
    /\ policy.name t' = fixed
    /\ PaloAltoFW.term_dup_check st'
       = PaloAltoFW.term_dup_check st ++ [fixed]
    /\ PaloAltoFW.new_terms st' = PaloAltoFW.new_terms st
    /\ PaloAltoFW.self st' = PaloAltoFW.self st
    /\ PaloAltoFW.log st' = PaloAltoFW.log st ++ w
    /\ w <> [].
Proof.
  intros Hns Hf Hnew Hout.
  unfold PaloAltoFW.translate_term.
  apply (not_skipped_None t (PaloAltoFW.from_zone (PaloAltoFW.self st))
           (PaloAltoFW.to_zone (PaloAltoFW.self st))) in Hns.
  unfold fixed_name in Hf. rewrite Hns, Hf.
  pose proof Hnew as Hnew'. apply str_in_not_In in Hnew'.
  simpl policy.name. rewrite Hnew'.
  assert (Hdup : Py.set_add fixed (PaloAltoFW.term_dup_check st)
                 = PaloAltoFW.term_dup_check st ++ [fixed])
    by (unfold Py.set_add; now rewrite Hnew').
  destruct Hout as [(e & He & Hle) | (Hlive & Hfam)].
  - unfold PaloAltoFW.expiration_check. simpl policy.expiration.
    rewrite He. apply Z.leb_le in Hle. rewrite Hle.
    do 3 eexists. split; [reflexivity|]. simpl.
    repeat split; try assumption.
    now destruct (Z.leb e ed).
  - destruct (expiration_check_live (policy.set_name fixed t) cd ed
                (PaloAltoFW.from_zone (PaloAltoFW.self st))
                (PaloAltoFW.to_zone (PaloAltoFW.self st)) Hlive)
      as [w Hw].
    rewrite Hw. unfold PaloAltoFW.resolve_term.
    change (PaloAltoFW.compute_flows
              (PaloAltoFW.subtract_excluded (policy.set_name fixed t)))
      with (PaloAltoFW.compute_flows (PaloAltoFW.subtract_excluded t)).
    unfold PaloAltoFW.address_family_gate.
    change (policy.protocol
              (PaloAltoFW.subtract_excluded (policy.set_name fixed t)))
      with (policy.protocol t).
    destruct Hfam as [(-> & Hcase) | (-> & Hcase)]; simpl String.eqb; cbv iota.
    + destruct (Py.str_in "icmpv6" (policy.protocol t)) eqn:Ep.
      * do 3 eexists. split; [reflexivity|]. simpl.
        repeat split; try assumption.
        rewrite <- app_assoc. reflexivity.
        now destruct w.
      * destruct Hcase as [Hcase | Hcase];
          [apply str_in_In in Hcase; congruence|].
        apply str_in_not_In in Hcase. rewrite Hcase. simpl negb. cbv iota.
        do 3 eexists. split; [reflexivity|]. simpl.
        repeat split; try assumption.
        rewrite <- app_assoc. reflexivity.
        now destruct w.
    + destruct (Py.str_in "icmp" (policy.protocol t)) eqn:Ep.
      * do 3 eexists. split; [reflexivity|]. simpl.
        repeat split; try assumption.
        rewrite <- app_assoc. reflexivity.
        now destruct w.
      * destruct Hcase as [Hcase | Hcase];
          [apply str_in_In in Hcase; congruence|].
        apply str_in_not_In in Hcase. rewrite Hcase. simpl negb. cbv iota.
        do 3 eexists. split; [reflexivity|]. simpl.
        repeat split; try assumption.
        rewrite <- app_assoc. reflexivity.
        now destruct w.
Qed.

End LeftOut.

(** A term that expired on day 50, translated on day 100. *)
Lemma terms_left_out_witness :
  exists t' st' w,
    PaloAltoFW.translate_term "inet"
      ["from-zone"; "trust"; "to-zone"; "untrust"] 100 114
      (policy.Build_Term nacaddr.IP "old" [] [] [] [] [] ["tcp"] []
         [(25, 25)%Z] [] [] ["accept"] [] [] (Some 50%Z) false None [] None
         false)
      Example.loop_start
    = (t', st', PaloAltoFW.Dropped)
    /\ policy.name t' = "old"
    /\ PaloAltoFW.term_dup_check st' = ["old"]
    /\ PaloAltoFW.new_terms st' = []
    /\ PaloAltoFW.self st' = PaloAltoFW.self Example.loop_start
    /\ PaloAltoFW.log st' = [] ++ w
    /\ w <> [].
Proof.
  apply (terms_left_out_reserve_their_name "inet"
           ["from-zone"; "trust"; "to-zone"; "untrust"] 100 114 _
           Example.loop_start "old").
  - repeat split; simpl; intros Hin; exact Hin.
  - reflexivity.
  - simpl. now intros [].
  - left. exists 50%Z. split; [reflexivity | lia].
Defined.

(** ** What the pass does to the generator *)

Section Evolution.
Context {IP : Type} `{NetworkObject IP} `{Collaborators IP}.

Lemma set_addressbook_same (s : PaloAltoFW.PaloAltoFW IP) :
  PaloAltoFW.set_addressbook (PaloAltoFW.addressbook s) s = s.
Proof. now destruct s. Qed.

Lemma build_addresses_evolves (s : PaloAltoFW.PaloAltoFW IP)
    (zone : string) (exclude : list IPVersion) (addresses : list IP) :
  forall s1,
    evolves s s1 ->
    evolves s
      (PaloAltoFW.set_addressbook
         (PaloAltoFW.build_addresses zone exclude addresses
            (PaloAltoFW.addressbook s1)) s1).
Proof.
  unfold PaloAltoFW.build_addresses.
  induction addresses as [|a l IH]; intros s1 Hs; simpl.
  - now rewrite set_addressbook_same.
  - destruct (existsb (version_eqb (version a)) exclude); [now apply IH|].
    apply (IH (PaloAltoFW.set_addressbook
                 (PaloAltoFW._BuildAddressBook zone a
                    (PaloAltoFW.addressbook s1)) s1)).
    now constructor.
Qed.

Lemma icmp_type_loop_evolves (s : PaloAltoFW.PaloAltoFW IP)
    (icmp_version keyword : string) (risk : Z) (names : list string) :
  (icmp_version = "icmp" /\ keyword = "ident-by-icmp-type" /\ risk = 4%Z)
  \/ (String.eqb icmp_version "icmp" = false
      /\ keyword = "ident-by-icmp6-type" /\ risk = 2%Z) ->
  forall (t : policy.Term IP) (self : PaloAltoFW.PaloAltoFW IP) t' self' e,
    PaloAltoFW.icmp_type_loop icmp_version keyword risk names t self
    = (t', self', e) ->
    evolves s self -> evolves s self'.
Proof.
  intros Hv. induction names as [|n rest IH]; intros t self t' self' e;
    cbn [PaloAltoFW.icmp_type_loop].
  - now intros [= _ <- _].
  - destruct Hv as [(-> & -> & ->) | (Hv & -> & ->)].
    + change (String.eqb "icmp" "icmp") with true. cbv iota.
      destruct (ICMP_TYPE V4 n) as [code|] eqn:Ec;
        [|now intros [= _ <- _]].
      destruct (Py.dict_mem String.eqb ("icmp-" ++ n)%string
                  (PaloAltoFW.application_refs self)) eqn:Em.
      * apply IH.
      * intros Hloop Hs. eapply IH; [exact Hloop |].
        constructor; [assumption | now apply dict_mem_false |].
        exists n, code. left. auto.
    + rewrite Hv.
      destruct (ICMP_TYPE V6 n) as [code|] eqn:Ec;
        [|now intros [= _ <- _]].
      destruct (Py.dict_mem String.eqb ("icmp6-" ++ n)%string
                  (PaloAltoFW.application_refs self)) eqn:Em.
      * apply IH.
      * intros Hloop Hs. eapply IH; [exact Hloop |].
        constructor; [assumption | now apply dict_mem_false |].
        exists n, code. right. auto.
Qed.

Lemma icmp_version_body_evolves (s : PaloAltoFW.PaloAltoFW IP)
    (icmp_version filter_type : string) (flows : list string)
    (t : policy.Term IP) (self : PaloAltoFW.PaloAltoFW IP) t' self' e :
  PaloAltoFW.icmp_version_body icmp_version filter_type flows t self
  = (t', self', e) ->
  evolves s self -> evolves s self'.
Proof.
  unfold PaloAltoFW.icmp_version_body.
  destruct (_ && _); [now intros [= _ <- _]|].
  destruct (_ && _); [now intros [= _ <- _]|].
  destruct (String.eqb icmp_version "icmp") eqn:Ev.
  - destruct (String.eqb filter_type "inet6"); [now intros [= _ <- _]|].
    destruct (PaloAltoFW.is_empty _); [now intros [= _ <- _]|].
    apply icmp_type_loop_evolves. left. apply String.eqb_eq in Ev. auto.
  - destruct (String.eqb filter_type "inet"); [now intros [= _ <- _]|].
    destruct (PaloAltoFW.is_empty _); [now intros [= _ <- _]|].
    apply icmp_type_loop_evolves. right. auto.
Qed.

Lemma icmp_versions_evolves (s : PaloAltoFW.PaloAltoFW IP)
    (versions : list string) (filter_type : string) (flows : list string) :
  forall (t : policy.Term IP) (self : PaloAltoFW.PaloAltoFW IP) t' self' e,
    PaloAltoFW.icmp_versions versions filter_type flows t self
    = (t', self', e) ->
    evolves s self -> evolves s self'.
Proof.
  induction versions as [|v rest IH]; intros t self t' self' e; simpl.
  - now intros [= _ <- _].
  - destruct (negb _); [now intros [= _ <- _]|].
    destruct (PaloAltoFW.icmp_version_body v filter_type flows t self)
      as [[t1 s1] [e1|]] eqn:Eb.
    + intros [= _ <- _]. now apply (icmp_version_body_evolves _ _ _ _ _ _ _ _ _ Eb).
    + intros Hrest Hs. eapply IH; [exact Hrest|].
      now apply (icmp_version_body_evolves _ _ _ _ _ _ _ _ _ Eb).
Qed.

Lemma resolve_term_evolves (s : PaloAltoFW.PaloAltoFW IP)
    (ft : string) (fo : list string) (t : policy.Term IP)
    (st : PaloAltoFW.loop_state IP) t' st' o :
  PaloAltoFW.resolve_term ft fo t st = (t', st', o) ->
  evolves s (PaloAltoFW.self st) -> evolves s (PaloAltoFW.self st').
Proof.
  unfold PaloAltoFW.resolve_term.
  destruct (PaloAltoFW.address_family_gate _ _ _ _ _) as [[ex|] w];
    [|intros [= _ <- _] Hs; exact Hs].
  intros Hr Hs.
  assert (Hab :
    evolves s
      (PaloAltoFW.set_addressbook
         (PaloAltoFW.build_addresses
            (PaloAltoFW.to_zone (PaloAltoFW.self st)) ex
            (policy.destination_address (PaloAltoFW.subtract_excluded t))
            (PaloAltoFW.build_addresses
               (PaloAltoFW.from_zone (PaloAltoFW.self st)) ex
               (policy.source_address (PaloAltoFW.subtract_excluded t))
               (PaloAltoFW.addressbook (PaloAltoFW.self st))))
         (PaloAltoFW.self st))).
  { apply (build_addresses_evolves s
             (PaloAltoFW.from_zone (PaloAltoFW.self st)) ex
             (policy.source_address (PaloAltoFW.subtract_excluded t))) in Hs.
    apply (build_addresses_evolves s
             (PaloAltoFW.to_zone (PaloAltoFW.self st)) ex
             (policy.destination_address (PaloAltoFW.subtract_excluded t)))
      in Hs.
    exact Hs. }
  revert Hr.
  destruct (_ && _); [intros [= _ <- _]; exact Hab|].
  destruct (PaloAltoFW.icmp_versions _ _ _ _ _) as [[t1 s1] [e1|]] eqn:Ei.
  - intros [= _ <- _].
    exact (icmp_versions_evolves s _ _ _ _ _ _ _ _ Ei Hab).
  - destruct (PaloAltoFW.unsupported_protocol t1); intros [= _ <- _];
      exact (icmp_versions_evolves s _ _ _ _ _ _ _ _ Ei Hab).
Qed.

Lemma translate_term_evolves (s : PaloAltoFW.PaloAltoFW IP)
    (ft : string) (fo : list string) (cd ed : Z) (t : policy.Term IP)
    (st : PaloAltoFW.loop_state IP) t' st' o :
  PaloAltoFW.translate_term ft fo cd ed t st = (t', st', o) ->
  evolves s (PaloAltoFW.self st) -> evolves s (PaloAltoFW.self st').
Proof.
  unfold PaloAltoFW.translate_term.
  destruct (PaloAltoFW.skipped _ _ _); [intros [= _ <- _] Hs; exact Hs|].
  destruct (FixTermLength _ _); [|intros [= _ <- _] Hs; exact Hs].
  destruct (Py.str_in _ _); [intros [= _ <- _] Hs; exact Hs|].
  destruct (PaloAltoFW.expiration_check _ _ _ _ _) as [w [|]];
    [intros [= _ <- _] Hs; exact Hs|].
  intros Hr Hs. exact (resolve_term_evolves s _ _ _ _ _ _ _ Hr Hs).
Qed.

Lemma translate_terms_evolves (s : PaloAltoFW.PaloAltoFW IP)
    (ft : string) (fo : list string) (cd ed : Z)
    (terms : list (policy.Term IP)) :
  forall st terms' st' e,
    PaloAltoFW.translate_terms ft fo cd ed terms st = (terms', st', e) ->
    evolves s (PaloAltoFW.self st) -> evolves s (PaloAltoFW.self st').
Proof.
  induction terms as [|t rest IH]; intros st terms' st' e; simpl.
  - now intros [= _ <- _].
  - destruct (PaloAltoFW.translate_term ft fo cd ed t st)
      as [[t1 st1] o] eqn:Et.
    pose proof (translate_term_evolves s _ _ _ _ _ _ _ _ _ Et) as H1.
    destruct o as [| |e1].
    + destruct (PaloAltoFW.translate_terms ft fo cd ed rest st1)
        as [[rest' st2] e2] eqn:Er.
      intros [= _ <- _] Hs. eapply IH; [exact Er | auto].
    + destruct (PaloAltoFW.translate_terms ft fo cd ed rest st1)
        as [[rest' st2] e2] eqn:Er.
      intros [= _ <- _] Hs. eapply IH; [exact Er | auto].
    + intros [= _ <- _]. exact H1.
Qed.

Lemma translate_header_evolves (s : PaloAltoFW.PaloAltoFW IP) (cd ed : Z)
    (header : policy.Header) (terms : list (policy.Term IP))
    (st : PaloAltoFW.State IP) terms' st' e :
  PaloAltoFW.translate_header cd ed header terms st = (terms', st', e) ->
  evolves s (PaloAltoFW.fw st) -> evolves s (PaloAltoFW.fw st').
Proof.
  unfold PaloAltoFW.translate_header.
  destruct (negb (Py.str_in _ _)); [now intros [= _ <- _]|].
  destruct (_ || _); [now intros [= _ <- _]|].
  destruct (negb (Py.str_in _ PaloAltoFW._SUPPORTED_AF)).
  { intros [= _ <- _] Hs. simpl. now constructor. }
  destruct (PaloAltoFW.translate_terms _ _ _ _ _ _) as [[ts lst] e1] eqn:Et.
  intros Hr Hs.
  assert (Hl : evolves s (PaloAltoFW.self lst)).
  { eapply translate_terms_evolves; [exact Et|]. simpl. now constructor. }
  destruct e1 as [e1|]; [now injection Hr as _ <- _|].
  destruct (PaloAltoFW.build_ruleset _ _ _ _ _) as [[rs m1] [e1|]];
    injection Hr as _ <- _; simpl; [assumption | now constructor].
Qed.

Lemma translate_filters_evolves (s : PaloAltoFW.PaloAltoFW IP) (cd ed : Z)
    (filters : policy.Policy IP) :
  forall st filters' st' e,
    PaloAltoFW.translate_filters cd ed filters st = (filters', st', e) ->
    evolves s (PaloAltoFW.fw st) -> evolves s (PaloAltoFW.fw st').
Proof.
  induction filters as [|[header terms] rest IH]; intros st filters' st' e;
    simpl.
  - now intros [= _ <- _].
  - destruct (PaloAltoFW.translate_header cd ed header terms st)
      as [[ts st1] [e1|]] eqn:Eh;
      pose proof (translate_header_evolves s _ _ _ _ _ _ _ _ Eh) as H1.
    + now intros [= _ <- _].
    + destruct (PaloAltoFW.translate_filters cd ed rest st1)
        as [[rest' st2] e2] eqn:Ef.
      intros [= _ <- _] Hs. eapply IH; [exact Ef | auto].
Qed.

(** X22. The translation pass changes the generator object only by four
    operations: setting the two zones, registering an address with
    [_BuildAddressBook], adding a custom ICMP application under a name
    that had none, and appending the policy of a header.  It never
    removes or replaces an address, an application or a policy, also
    when it ends in an exception. *)
Theorem translation_evolves (pol : policy.Policy IP)
    (exp_info current_date : Z) (st : PaloAltoFW.State IP) :
  evolves (PaloAltoFW.fw st)
    (PaloAltoFW.fw
       (snd (fst (PaloAltoFW._TranslatePolicy pol exp_info current_date
                    st)))).
Proof.
  destruct (TranslatePolicy_cases pol exp_info current_date st)
    as [(d & _ & ->) | (_ & ->)]; [|constructor].
  destruct (PaloAltoFW.translate_filters _ _ pol st) as [[pol' st'] e] eqn:E.
  simpl. eapply translate_filters_evolves; [exact E | constructor].
Qed.

(** ** The custom applications *)

Lemma evolves_applications (s s' : PaloAltoFW.PaloAltoFW IP) :
  evolves s s' -> applications_ok s -> applications_ok s'.
Proof.
  intros Hev Hs. induction Hev as [|s1 fz tz _ IH|s1 zone a _ IH
                                   |s1 n e _ IH Hn He|s1 p _ IH];
    try assumption.
  destruct IH as (Hk & Hnd & Hin). unfold applications_ok. simpl.
  rewrite (keys_dict_set String.eqb).
  assert (Hm : Py.dict_mem String.eqb n (PaloAltoFW.application_refs s1)
               = false) by now apply dict_mem_false.
  rewrite Hm, Hk. split; [reflexivity|]. split.
  - apply NoDup_app; [assumption | repeat constructor; now intros [] |].
    intros x Hx [<- | []]. rewrite <- Hk in Hx.
    now apply (dict_get_None _ String.eqb_eq) in Hn.
  - intros n' e' Hin'. apply (dict_set_In _ String.eqb_eq) in Hin'.
    destruct Hin' as [[-> ->] | Hin']; [assumption | now apply Hin].
Qed.

Lemma dict_get_fresh {V : Type} (k : string) (v : V)
    (d : list (string * V)) :
  NoDup (Py.keys ((k, v) :: d)) ->
  forall n, In n (Py.keys d) ->
    Py.dict_get String.eqb n ((k, v) :: d) = Py.dict_get String.eqb n d.
Proof.
  intros Hnd n Hn. simpl. destruct (String.eqb n k) eqn:E; [|reflexivity].
  apply String.eqb_eq in E. subst n. inversion Hnd. contradiction.
Qed.

Lemma flat_map_agree {A B : Type} (f g : A -> list B) (l : list A) :
  (forall x, In x l -> f x = g x) -> flat_map f l = flat_map g l.
Proof.
  induction l as [|a l IH]; intros Hfg; [reflexivity|].
  simpl. rewrite (Hfg a) by now left. f_equal. apply IH.
  intros x Hx. apply Hfg. now right.
Qed.

Lemma lookups_of_keys {V B : Type} (f : string -> V -> B)
    (d : list (string * V)) :
  NoDup (Py.keys d) ->
  flat_map
    (fun n =>
       match Py.dict_get String.eqb n d with
       | None => []
       | Some v => [f n v]
       end)
    (Py.keys d)
  = map (fun kv => f (fst kv) (snd kv)) d.
Proof.
  induction d as [|[k v] d IH]; intros Hnd; [reflexivity|].
  cbn [Py.keys map flat_map fst snd].
  assert (Hhead : Py.dict_get String.eqb k ((k, v) :: d) = Some v)
    by (simpl; now rewrite String.eqb_refl).
  rewrite Hhead. rewrite <- IH by now inversion Hnd.
  change ([f k v] ++ ?l) with (f k v :: l). f_equal.
  apply flat_map_agree. intros n Hn.
  now rewrite (dict_get_fresh k v d Hnd n Hn).
Qed.

(** X14. After any translation by a fresh generator, the list
    [applications] and the keys of [application_refs] are the same list
    without repetition, and every entry is a custom ICMP application as
    lines 601-610 build it: [icmp-<type>] with risk 4 or [icmp6-<type>]
    with risk 2, identified by the code of the type.  So [__str__]
    (lines 707-712) skips none of the applications and prints one
    [<entry>] for each, in the order they were built. *)
Theorem applications_are_the_custom_icmp_entries
    (pol : policy.Policy IP) (exp_info current_date : Z)
    (m : Service.service_map) :
  let self :=
    PaloAltoFW.fw
      (snd (fst (PaloAltoFW.__init__ pol exp_info current_date m))) in
  applications_ok self
  /\ PaloAltoFW.app_entries self
     = PaloAltoFW.element "application" [] ""
         (map (fun kv =>
                 PaloAltoFW.element "entry" [("name", fst kv)] ""
                   (PaloAltoFW.app_children (snd kv)))
            (PaloAltoFW.application_refs self)).
Proof.
  intros self.
  assert (Hok : applications_ok self).
  { subst self. unfold PaloAltoFW.__init__.
    match goal with
    | |- context [PaloAltoFW._TranslatePolicy _ _ _ ?s0] =>
        destruct (TranslatePolicy_cases pol exp_info current_date s0)
          as [(d & _ & ->) | (_ & ->)]
    end.
    - destruct (PaloAltoFW.translate_filters _ _ pol _)
        as [[pol' st'] e] eqn:E.
      simpl. eapply evolves_applications.
      + eapply translate_filters_evolves; [exact E | constructor].
      + simpl. repeat split; [constructor | now intros n e0 []].
    - simpl. repeat split; [constructor | now intros n e0 []]. }
  split; [exact Hok|].
  destruct Hok as (Hk & Hnd & _). unfold PaloAltoFW.app_entries.
  rewrite <- Hk in Hnd |- *. f_equal.
  apply (lookups_of_keys
           (fun n v =>
              PaloAltoFW.element "entry" [("name", n)] ""
                (PaloAltoFW.app_children v))).
  exact Hnd.
Qed.

End Evolution.

(** ** The address book, continued *)

Section BookInvariants.
Context {IP : Type} `{NetworkObject IP}.

Lemma dict_set_twice {V : Type} (k : string) (v : V)
    (d : list (string * V)) :
  Py.dict_set String.eqb k v (Py.dict_set String.eqb k v d)
  = Py.dict_set String.eqb k v d.
Proof.
  induction d as [|[k' v'] d IH]; simpl.
  - now rewrite String.eqb_refl.
  - destruct (String.eqb k k') eqn:E; simpl; rewrite E; [reflexivity|].
    now rewrite IH.
Qed.

Lemma dict_mem_set {V : Type} (k : string) (v : V) (d : list (string * V)) :
  Py.dict_mem String.eqb k (Py.dict_set String.eqb k v d) = true.
Proof.
  unfold Py.dict_mem. now rewrite (dict_get_set_same _ String.eqb_eq).
Qed.

Lemma get_zone_other (zone z : string) (zb : PaloAltoFW.zonebook IP)
    (ab : PaloAltoFW.addressbook_t IP) :
  z <> zone ->
  PaloAltoFW.get_zone z (Py.dict_set String.eqb zone zb ab)
  = PaloAltoFW.get_zone z ab.
Proof.
  intros Hz. unfold PaloAltoFW.get_zone.
  now rewrite (dict_get_set_other _ String.eqb_eq _ _ _ _ Hz).
Qed.

(** The book after a registration: the zone is set, on the book that
    has the zone. *)
Lemma BuildAddressBook_shape (zone : string) (address : IP)
    (ab : PaloAltoFW.addressbook_t IP) :
  exists Z,
    PaloAltoFW._BuildAddressBook zone address ab
    = Py.dict_set String.eqb zone Z
        (if Py.dict_mem String.eqb zone ab then ab
         else Py.dict_set String.eqb zone [] ab)
    /\ Py.dict_mem String.eqb (parent_token address) Z = true.
Proof.
  unfold PaloAltoFW._BuildAddressBook.
  set (ab1 := if Py.dict_mem String.eqb zone ab then ab
              else Py.dict_set String.eqb zone [] ab).
  set (zb0 := PaloAltoFW.get_zone zone ab1).
  destruct (existsb _ _).
  - eexists. split; [reflexivity|].
    destruct (Py.dict_mem String.eqb (parent_token address) zb0) eqn:E;
      [exact E | apply dict_mem_set].
  - eexists. split; [reflexivity|]. apply dict_mem_set.
Qed.

Lemma BuildAddressBook_other_zone (zone z : string) (address : IP)
    (ab : PaloAltoFW.addressbook_t IP) :
  z <> zone ->
  PaloAltoFW.get_zone z (PaloAltoFW._BuildAddressBook zone address ab)
  = PaloAltoFW.get_zone z ab.
Proof.
  intros Hz. destruct (BuildAddressBook_shape zone address ab)
    as (Z & -> & _).
  rewrite get_zone_other by assumption.
  destruct (Py.dict_mem String.eqb zone ab); [reflexivity|].
  now apply get_zone_other.
Qed.

(** The buckets after a registration. *)
Lemma BuildAddressBook_bucket (zone : string) (address : IP)
    (ab : PaloAltoFW.addressbook_t IP) (z token : string) :
  bucket_at (PaloAltoFW._BuildAddressBook zone address ab) z token
  = if String.eqb z zone && String.eqb token (parent_token address)
    then registered_bucket address (bucket_at ab zone (parent_token address))
    else bucket_at ab z token.
Proof.
  unfold bucket_at. destruct (String.eqb z zone) eqn:Ez.
  - apply String.eqb_eq in Ez. subst z. rewrite BuildAddressBook_zone.
    simpl. reflexivity.
  - apply String.eqb_neq in Ez. simpl.
    now rewrite BuildAddressBook_other_zone.
Qed.

Lemma registered_bucket_found (address : IP) (b : PaloAltoFW.bucket IP) :
  existsb (fun ip => String.eqb (str address) (str (fst ip)))
    (registered_bucket address b) = true.
Proof.
  unfold registered_bucket.
  destruct (existsb _ b) eqn:E; [exact E|].
  rewrite existsb_app. simpl. rewrite String.eqb_refl.
  now rewrite orb_true_r.
Qed.

Lemma registered_bucket_distinct (address : IP)
    (b : PaloAltoFW.bucket IP) :
  NoDup (map (fun e => str (fst e)) b) ->
  NoDup (map (fun e => str (fst e)) (registered_bucket address b)).
Proof.
  intros Hb. unfold registered_bucket.
  destruct (existsb _ b) eqn:E; [assumption|].
  rewrite map_app. simpl.
  apply NoDup_app; [assumption | repeat constructor; now intros [] |].
  intros x Hx [<- | []]. apply in_map_iff in Hx.
  destruct Hx as (ip & Hs & Hin).
  assert (Ht : existsb (fun ip => String.eqb (str address) (str (fst ip))) b
               = true).
  { apply existsb_exists. exists ip. split; [assumption|].
    rewrite Hs. apply String.eqb_refl. }
  congruence.
Qed.

Lemma registered_bucket_adds (address : IP) (b : PaloAltoFW.bucket IP)
    (x : IP * string) :
  In x (registered_bucket address b) -> In x b \/ fst x = address.
Proof.
  unfold registered_bucket. destruct (existsb _ b); [now left|].
  intros Hin. apply in_app_or in Hin.
  destruct Hin as [Hin | [<- | []]]; [now left | now right].
Qed.

(** X9. [_BuildAddressBook] is idempotent, and it touches one bucket
    only: registering an address a second time changes nothing, and the
    bucket of any other zone or parent token is as it was.  The bucket
    of the address itself keeps its entries and their order. *)
Theorem BuildAddressBook_idempotent_and_local (zone : string)
    (address : IP) (ab : PaloAltoFW.addressbook_t IP) :
  let ab' := PaloAltoFW._BuildAddressBook zone address ab in
  PaloAltoFW._BuildAddressBook zone address ab' = ab'
  /\ (forall z token,
         z <> zone \/ token <> parent_token address ->
         bucket_at ab' z token = bucket_at ab z token)
  /\ exists added,
       bucket_at ab' zone (parent_token address)
       = bucket_at ab zone (parent_token address) ++ added.
Proof.
  intros ab'. split; [|split].
  - destruct (BuildAddressBook_shape zone address ab) as (Z & HZ & Hmem).
    assert (Hz : PaloAltoFW.get_zone zone ab' = Z)
      by (subst ab'; rewrite HZ; apply get_zone_set).
    assert (Hb : PaloAltoFW.get_bucket (parent_token address) Z
                 = registered_bucket address
                     (bucket_at ab zone (parent_token address))).
    { rewrite <- Hz. subst ab'.
      pose proof (BuildAddressBook_bucket zone address ab zone
                    (parent_token address)) as Hbk.
      rewrite !String.eqb_refl in Hbk. exact Hbk. }
    assert (Hm : Py.dict_mem String.eqb zone ab' = true)
      by (subst ab'; rewrite HZ; apply dict_mem_set).
    unfold PaloAltoFW._BuildAddressBook at 1.
    rewrite Hm, Hz, Hmem, Hb, registered_bucket_found.
    subst ab'. rewrite HZ. apply dict_set_twice.
  - intros z token Hother. subst ab'. rewrite BuildAddressBook_bucket.
    destruct (String.eqb z zone) eqn:Ez;
      destruct (String.eqb token (parent_token address)) eqn:Et;
      try reflexivity.
    apply String.eqb_eq in Ez, Et. now destruct Hother.
  - subst ab'. rewrite BuildAddressBook_bucket, !String.eqb_refl. simpl.
    unfold registered_bucket. destruct (existsb _ _).
    + exists []. now rewrite app_nil_r.
    + eexists. reflexivity.
Qed.

Lemma built_buckets (ab : PaloAltoFW.addressbook_t IP) :
  built ab ->
  forall zone token,
    bucket_ok token (bucket_at ab zone token)
    /\ NoDup (map (fun e => str (fst e)) (bucket_at ab zone token)).
Proof.
  intros Hb. induction Hb as [|ab zone address _ IH]; intros z token.
  - split; [|constructor]. intros k a n Hk. now destruct k.
  - rewrite BuildAddressBook_bucket.
    destruct (String.eqb z zone && String.eqb token (parent_token address))
      eqn:E; [|apply IH].
    apply andb_true_iff in E. destruct E as [Ez Et].
    apply String.eqb_eq in Ez, Et. subst z token.
    destruct (IH zone (parent_token address)) as [Hok Hnd]. split.
    + now apply registered_bucket_ok.
    + now apply registered_bucket_distinct.
Qed.

Lemma built_bucket_places (ab : PaloAltoFW.addressbook_t IP) :
  built ab ->
  forall zone token k x,
    nth_error (bucket_at ab zone token) k = Some x ->
    snd x = address_name token k.
Proof.
  intros Hb zone token k [a n] Hk.
  destruct (built_buckets ab Hb zone token) as [Hok _].
  now apply (Hok k a n).
Qed.

Lemma NoDup_map_nth {A B : Type} (f : A -> B) (l : list A) :
  NoDup (map f l) ->
  forall i j x y,
    nth_error l i = Some x -> nth_error l j = Some y -> f x = f y ->
    i = j.
Proof.
  intros Hnd i j x y Hi Hj Hf.
  apply (proj1 (NoDup_nth_error (map f l)) Hnd).
  - rewrite length_map. apply nth_error_Some. congruence.
  - rewrite !nth_error_map, Hi, Hj. simpl. now rewrite Hf.
Qed.

(** X10. The invariant of the address book.  In a book built by
    [_BuildAddressBook] from the empty one, the object at place [k] of
    the bucket of a token is named [<token>_<k>]; no two objects of a
    bucket have the same string form; and within one zone a name
    belongs to one place of one token only, however the tokens are
    spelt. *)
Theorem address_book_invariant (ab : PaloAltoFW.addressbook_t IP) :
  built ab ->
  forall zone,
    (forall token k a n,
        nth_error (bucket_at ab zone token) k = Some (a, n) ->
        n = address_name token k)
    /\ (forall token i j a b n m,
           nth_error (bucket_at ab zone token) i = Some (a, n) ->
           nth_error (bucket_at ab zone token) j = Some (b, m) ->
           str a = str b -> i = j)
    /\ (forall token token' i j a b n,
           nth_error (bucket_at ab zone token) i = Some (a, n) ->
           nth_error (bucket_at ab zone token') j = Some (b, n) ->
           token = token' /\ i = j).
Proof.
  intros Hb zone. split; [|split].
  - intros token k a n Hk.
    now apply (built_bucket_places ab Hb zone token k (a, n)).
  - intros token i j a b n m Hi Hj Hs.
    destruct (built_buckets ab Hb zone token) as [_ Hnd].
    exact (NoDup_map_nth (fun e => str (fst e)) _ Hnd i j _ _ Hi Hj Hs).
  - intros token token' i j a b n Hi Hj.
    apply (built_bucket_places ab Hb) in Hi, Hj. simpl in Hi, Hj.
    pose proof (sort_key_name token i) as Ki.
    rewrite <- Hi, Hj, sort_key_name in Ki.
    injection Ki as -> Hij. split; [reflexivity|].
    now apply Nat2Z.inj in Hij.
Qed.

End BookInvariants.

(** The second object of the token [FOO] in the zone [trust]. *)
Lemma address_book_invariant_witness :
  "FOO_1" = address_name "FOO" 1.
Proof.
  refine (proj1 (address_book_invariant
                   (PaloAltoFW._BuildAddressBook "trust" Example.net_b
                      (PaloAltoFW._BuildAddressBook "trust" Example.net_a
                         []))
                   _ "trust") "FOO" 1 Example.net_b "FOO_1" _).
  - repeat constructor.
  - reflexivity.
Defined.

(** ** The addresses a filter registers *)

Section Families.
Context {IP : Type} `{NetworkObject IP} `{Collaborators IP}.

Lemma BuildAddressBook_adds (zone : string) (address : IP)
    (ab : PaloAltoFW.addressbook_t IP) (z token : string)
    (x : IP * string) :
  In x (bucket_at (PaloAltoFW._BuildAddressBook zone address ab) z token) ->
  In x (bucket_at ab z token) \/ fst x = address.
Proof.
  rewrite BuildAddressBook_bucket.
  destruct (String.eqb z zone && String.eqb token (parent_token address))
    eqn:E; [|now left].
  apply andb_true_iff in E. destruct E as [Ez Et].
  apply String.eqb_eq in Ez, Et. subst z token.
  apply registered_bucket_adds.
Qed.

Lemma build_addresses_adds (zone : string) (exclude : list IPVersion)
    (addresses : list IP) :
  forall (ab : PaloAltoFW.addressbook_t IP) (z token : string)
         (x : IP * string),
    In x (bucket_at (PaloAltoFW.build_addresses zone exclude addresses ab)
            z token) ->
    In x (bucket_at ab z token)
    \/ existsb (version_eqb (version (fst x))) exclude = false.
Proof.
  unfold PaloAltoFW.build_addresses.
  induction addresses as [|a l IH]; intros ab z token x; simpl;
    [now left|].
  destruct (existsb (version_eqb (version a)) exclude) eqn:E;
    [apply IH|].
  intros Hin. apply IH in Hin. destruct Hin as [Hin | Hin]; [|now right].
  apply BuildAddressBook_adds in Hin.
  destruct Hin as [Hin | ->]; [now left | now right].
Qed.

Lemma gate_family (ft : string) (v : IPVersion) (t : policy.Term IP)
    (flows : list string) (fz tz : string) (ex : list IPVersion)
    (w : list PaloAltoFW.LogRecord) :
  family_of ft = Some v ->
  PaloAltoFW.address_family_gate ft t flows fz tz = (Some ex, w) ->
  forall a : IP, existsb (version_eqb (version a)) ex = false ->
    version a = v.
Proof.
  unfold family_of, PaloAltoFW.address_family_gate.
  destruct (String.eqb ft "inet") eqn:E4.
  - intros [= <-]. destruct (Py.str_in _ _); [discriminate|].
    destruct (negb _); [discriminate|]. intros [= <- _] a. simpl.
    now destruct (version a).
  - destruct (String.eqb ft "inet6") eqn:E6; [|discriminate].
    intros [= <-]. destruct (Py.str_in _ _); [discriminate|].
    destruct (negb _); [discriminate|]. intros [= <- _] a. simpl.
    now destruct (version a).
Qed.

Lemma resolve_term_family (ft : string) (v : IPVersion)
    (fo : list string) (t : policy.Term IP)
    (st : PaloAltoFW.loop_state IP) t' st' o :
  family_of ft = Some v ->
  PaloAltoFW.resolve_term ft fo t st = (t', st', o) ->
  forall z token x,
    In x (bucket_at (PaloAltoFW.addressbook (PaloAltoFW.self st')) z token)
    -> In x (bucket_at (PaloAltoFW.addressbook (PaloAltoFW.self st)) z
               token)
       \/ version (fst x) = v.
Proof.
  intros Hv. unfold PaloAltoFW.resolve_term.
  destruct (PaloAltoFW.address_family_gate _ _ _ _ _) as [[ex|] w] eqn:Eg;
    [|intros [= _ <- _]; now left].
  pose proof (gate_family _ _ _ _ _ _ _ _ Hv Eg) as Hex.
  assert (Hab : forall z token x,
    In x (bucket_at
            (PaloAltoFW.build_addresses
               (PaloAltoFW.to_zone (PaloAltoFW.self st)) ex
               (policy.destination_address (PaloAltoFW.subtract_excluded t))
               (PaloAltoFW.build_addresses
                  (PaloAltoFW.from_zone (PaloAltoFW.self st)) ex
                  (policy.source_address (PaloAltoFW.subtract_excluded t))
                  (PaloAltoFW.addressbook (PaloAltoFW.self st))))
            z token) ->
    In x (bucket_at (PaloAltoFW.addressbook (PaloAltoFW.self st)) z token)
    \/ version (fst x) = v).
  { intros z token x Hin. apply build_addresses_adds in Hin.
    destruct Hin as [Hin | Hin]; [|right; now apply Hex].
    apply build_addresses_adds in Hin.
    destruct Hin as [Hin | Hin]; [now left | right; now apply Hex]. }
  destruct (_ && _); [intros [= _ <- _]; exact Hab|].
  destruct (PaloAltoFW.icmp_versions _ _ _ _ _) as [[t1 s1] e1] eqn:Ei.
  apply icmp_versions_frame in Ei. destruct Ei as (_ & Hbook & _).
  simpl in Hbook.
  destruct e1 as [e1|].
  - intros [= _ <- _]. simpl. rewrite Hbook. exact Hab.
  - destruct (PaloAltoFW.unsupported_protocol t1); intros [= _ <- _];
      simpl; rewrite Hbook; exact Hab.
Qed.

Lemma translate_term_family (ft : string) (v : IPVersion)
    (fo : list string) (cd ed : Z) (t : policy.Term IP)
    (st : PaloAltoFW.loop_state IP) t' st' o :
  family_of ft = Some v ->
  PaloAltoFW.translate_term ft fo cd ed t st = (t', st', o) ->
  forall z token x,
    In x (bucket_at (PaloAltoFW.addressbook (PaloAltoFW.self st')) z token)
    -> In x (bucket_at (PaloAltoFW.addressbook (PaloAltoFW.self st)) z
               token)
       \/ version (fst x) = v.
Proof.
  intros Hv. unfold PaloAltoFW.translate_term.
  destruct (PaloAltoFW.skipped _ _ _); [intros [= _ <- _]; now left|].
  destruct (FixTermLength _ _); [|intros [= _ <- _]; now left].
  destruct (Py.str_in _ _); [intros [= _ <- _]; now left|].
  destruct (PaloAltoFW.expiration_check _ _ _ _ _) as [w [|]];
    [intros [= _ <- _]; now left|].
  intros Hr. exact (resolve_term_family _ _ _ _ _ _ _ _ Hv Hr).
Qed.

(** X8. The loop over the terms of an [inet] filter registers IPv4
    addresses only, and the loop of an [inet6] filter IPv6 addresses
    only: every entry of a bucket of the address book after the loop was
    there before or has the family of the filter, whatever the terms
    hold and also when the loop ends in an exception. *)
Theorem filters_register_their_family_only
    (ft : string) (v : IPVersion) (fo : list string) (cd ed : Z)
    (terms : list (policy.Term IP)) :
  family_of ft = Some v ->
  forall st,
    let st' :=
      snd (fst (PaloAltoFW.translate_terms ft fo cd ed terms st)) in
    forall z token x,
      In x (bucket_at (PaloAltoFW.addressbook (PaloAltoFW.self st')) z
              token) ->
      In x (bucket_at (PaloAltoFW.addressbook (PaloAltoFW.self st)) z token)
      \/ version (fst x) = v.
Proof.
  intros Hv. induction terms as [|t rest IH]; intros st; simpl;
    [now left|].
  destruct (PaloAltoFW.translate_term ft fo cd ed t st)
    as [[t1 st1] o] eqn:Et.
  pose proof (translate_term_family _ _ _ _ _ _ _ _ _ _ Hv Et) as H1.
  assert (Hgo : forall z token x,
    In x (bucket_at
            (PaloAltoFW.addressbook
               (PaloAltoFW.self
                  (snd (fst (PaloAltoFW.translate_terms ft fo cd ed rest
                               st1))))) z token) ->
    In x (bucket_at (PaloAltoFW.addressbook (PaloAltoFW.self st)) z token)
    \/ version (fst x) = v).
  { intros z token x Hin. apply IH in Hin.
    destruct Hin as [Hin | Hin]; [now apply H1 | now right]. }
  destruct o as [| |e1]; simpl.
  - destruct (PaloAltoFW.translate_terms ft fo cd ed rest st1)
      as [[rest' st2] e2]. exact Hgo.
  - destruct (PaloAltoFW.translate_terms ft fo cd ed rest st1)
      as [[rest' st2] e2]. exact Hgo.
  - exact H1.
Qed.

End Families.

(** A term from 10.0.0.0/8 and 2001:4860:8000::/33 under an [inet]
    filter: only the first is registered. *)
Lemma filters_register_their_family_witness :
  version (fst (Example.net_a, "FOO_0")) = V4.
Proof.
  destruct (filters_register_their_family_only "inet" V4
              ["from-zone"; "trust"; "to-zone"; "untrust"] 100 114
              [Example.term "both" [Example.net_a; Example.net6] [] ["tcp"] []
                 [] []]
              eq_refl Example.loop_start "trust" "FOO"
              (Example.net_a, "FOO_0")) as [Hin | Hv].
  - vm_compute. now left.
  - vm_compute in Hin. contradiction.
  - exact Hv.
Defined.

(** ** The exceptions of the translation *)

Section Exceptions.
Context {IP : Type} `{NetworkObject IP} `{Collaborators IP}.

Lemma icmp_type_loop_bad_type (icmp_version keyword : string) (risk : Z)
    (names : list string) :
  forall (t : policy.Term IP) (self : PaloAltoFW.PaloAltoFW IP) t' self' e,
    PaloAltoFW.icmp_type_loop icmp_version keyword risk names t self
    = (t', self', Some e) ->
    term_error e.
Proof.
  induction names as [|n rest IH]; intros t self t' self' e;
    cbn [PaloAltoFW.icmp_type_loop]; [discriminate|].
  destruct (String.eqb icmp_version "icmp").
  - destruct (ICMP_TYPE V4 n) as [code|] eqn:Ec.
    + destruct (Py.dict_mem _ _ _); apply IH.
    + intros [= _ _ <-]. right. right. right. left. eauto.
  - destruct (ICMP_TYPE V6 n) as [code|] eqn:Ec.
    + destruct (Py.dict_mem _ _ _); apply IH.
    + intros [= _ _ <-]. right. right. right. left. eauto.
Qed.

Lemma icmp_versions_bad_type (versions : list string) (filter_type : string)
    (flows : list string) :
  forall (t : policy.Term IP) (self : PaloAltoFW.PaloAltoFW IP) t' self' e,
    PaloAltoFW.icmp_versions versions filter_type flows t self
    = (t', self', Some e) ->
    term_error e.
Proof.
  induction versions as [|v rest IH]; intros t self t' self' e; simpl;
    [discriminate|].
  destruct (negb _); [discriminate|].
  destruct (PaloAltoFW.icmp_version_body v filter_type flows t self)
    as [[t1 s1] [e1|]] eqn:Eb; [|apply IH].
  intros [= _ _ <-]. revert Eb. unfold PaloAltoFW.icmp_version_body.
  destruct (_ && _); [discriminate|].
  destruct (_ && _); [discriminate|].
  destruct (String.eqb v "icmp").
  - destruct (String.eqb filter_type "inet6"); [discriminate|].
    destruct (PaloAltoFW.is_empty _); [discriminate|].
    apply icmp_type_loop_bad_type.
  - destruct (String.eqb filter_type "inet"); [discriminate|].
    destruct (PaloAltoFW.is_empty _); [discriminate|].
    apply icmp_type_loop_bad_type.
Qed.

Lemma resolve_term_error (ft : string) (fo : list string)
    (t : policy.Term IP) (st : PaloAltoFW.loop_state IP) t' st' e :
  PaloAltoFW.resolve_term ft fo t st = (t', st', PaloAltoFW.Rejected e) ->
  term_error e.
Proof.
  unfold PaloAltoFW.resolve_term.
  destruct (PaloAltoFW.address_family_gate _ _ _ _ _) as [[ex|] w];
    [|discriminate].
  destruct (_ && _); [intros [= _ _ <-]; left; eauto|].
  destruct (PaloAltoFW.icmp_versions _ _ _ _ _) as [[t1 s1] [e1|]] eqn:Ei.
  - intros [= _ _ <-]. now apply icmp_versions_bad_type in Ei.
  - destruct (PaloAltoFW.unsupported_protocol t1) as [p|] eqn:Ep;
      [|discriminate].
    intros [= _ _ <-]. right. right. right. right. exists p.
    split; [reflexivity|]. unfold PaloAltoFW.unsupported_protocol in Ep.
    apply find_some in Ep. destruct Ep as [_ Ep].
    apply negb_true_iff in Ep. now apply str_in_not_In in Ep.
Qed.

Lemma translate_term_error (ft : string) (fo : list string) (cd ed : Z)
    (t : policy.Term IP) (st : PaloAltoFW.loop_state IP) t' st' e :
  PaloAltoFW.translate_term ft fo cd ed t st
  = (t', st', PaloAltoFW.Rejected e) ->
  term_error e.
Proof.
  unfold PaloAltoFW.translate_term.
  destruct (PaloAltoFW.skipped _ _ _); [discriminate|].
  destruct (FixTermLength _ _) eqn:Ef.
  - destruct (Py.str_in _ _); [intros [= _ _ <-]; right; left; eauto|].
    destruct (PaloAltoFW.expiration_check _ _ _ _ _) as [w [|]];
      [discriminate|].
    apply resolve_term_error.
  - intros [= _ _ <-]. right. right. left. eauto.
Qed.

Lemma translate_terms_error (ft : string) (fo : list string) (cd ed : Z)
    (terms : list (policy.Term IP)) :
  forall st terms' st' e,
    PaloAltoFW.translate_terms ft fo cd ed terms st = (terms', st', Some e)
    -> term_error e.
Proof.
  induction terms as [|t rest IH]; intros st terms' st' e; simpl;
    [discriminate|].
  destruct (PaloAltoFW.translate_term ft fo cd ed t st)
    as [[t1 st1] o] eqn:Et.
  destruct o as [| |e1].
  - destruct (PaloAltoFW.translate_terms ft fo cd ed rest st1)
      as [[rest' st2] e2] eqn:Er.
    intros [= _ _ ->]. now apply IH in Er.
  - destruct (PaloAltoFW.translate_terms ft fo cd ed rest st1)
      as [[rest' st2] e2] eqn:Er.
    intros [= _ _ ->]. now apply IH in Er.
  - intros [= _ _ <-]. now apply translate_term_error in Et.
Qed.

Lemma translate_header_error (cd ed : Z) (header : policy.Header)
    (terms : list (policy.Term IP)) (st : PaloAltoFW.State IP)
    terms' st' e :
  PaloAltoFW.translate_header cd ed header terms st = (terms', st', Some e)
  -> translation_error e.
Proof.
  unfold PaloAltoFW.translate_header.
  destruct (negb (Py.str_in _ _)); [discriminate|].
  destruct (_ || _); [intros [= _ _ <-]; left; left; eauto|].
  destruct (negb (Py.str_in _ PaloAltoFW._SUPPORTED_AF)) eqn:Ea.
  { intros [= _ _ <-]. right. left. eexists. split; [reflexivity|].
    apply negb_true_iff in Ea. now apply str_in_not_In in Ea. }
  destruct (PaloAltoFW.translate_terms _ _ _ _ _ _)
    as [[ts lst] [e1|]] eqn:Et.
  - intros [= _ _ <-]. left. now apply translate_terms_error in Et.
  - destruct (PaloAltoFW.build_ruleset _ _ _ _ _) as [[rs m1] [e1|]] eqn:Eb;
      [|discriminate].
    intros [= _ _ <-]. right. right. now apply build_ruleset_error in Eb.
Qed.

Lemma translate_filters_error (cd ed : Z) (filters : policy.Policy IP) :
  forall st filters' st' e,
    PaloAltoFW.translate_filters cd ed filters st = (filters', st', Some e)
    -> translation_error e.
Proof.
  induction filters as [|[header terms] rest IH]; intros st filters' st' e;
    simpl; [discriminate|].
  destruct (PaloAltoFW.translate_header cd ed header terms st)
    as [[ts st1] [e1|]] eqn:Eh.
  - intros [= _ _ <-]. now apply translate_header_error in Eh.
  - destruct (PaloAltoFW.translate_filters cd ed rest st1)
      as [[rest' st2] e2] eqn:Ef.
    intros [= _ _ ->]. now apply IH in Ef.
Qed.

(** X3. The exceptions of [_TranslatePolicy] and their reasons.  The
    pass ends in [OverflowError] exactly when the date of line 357 has no
    value: the window of [exp_info] weeks is more than 999999999 days, or
    the day it ends on is before the year 1 or after the year 9999; then
    neither the policy nor the generator nor the registry was touched.
    Otherwise an exception is one of the loop over the filters: a filter
    error; a header error for an address family that is none of the
    supported ones; a duplicate term; a name [FixTermLength] rejected; a
    bad ICMP type, missing from the table of its family; a protocol outside
    the supported ones; or one of the three errors of [Rule].  The pass
    never ends in a [KeyError], [IndexError], [TypeError] or
    [ValueError]. *)
Theorem translation_exceptions (pol : policy.Policy IP)
    (exp_info current_date : Z) (st : PaloAltoFW.State IP) :
  (~ date_in_range current_date exp_info <->
   PaloAltoFW._TranslatePolicy pol exp_info current_date st
   = (pol, st, Some OverflowError))
  /\ (date_in_range current_date exp_info <->
      PaloAltoFW._TranslatePolicy pol exp_info current_date st
      = PaloAltoFW.translate_filters current_date
          (current_date + 7 * exp_info) pol st)
  /\ match
       snd (PaloAltoFW._TranslatePolicy pol exp_info current_date st)
     with
     | Some e =>
         (e = OverflowError \/ translation_error e)
         /\ (e = OverflowError -> ~ date_in_range current_date exp_info)
         /\ (forall w,
                e <> KeyError w /\ e <> IndexError w /\ e <> TypeError w
                /\ e <> ValueError w)
     | None => True
     end.
Proof.
  assert (Hloop : forall d,
             match snd (PaloAltoFW.translate_filters current_date d pol st)
             with
             | Some e =>
                 translation_error e /\ e <> OverflowError
                 /\ (forall w,
                        e <> KeyError w /\ e <> IndexError w
                        /\ e <> TypeError w /\ e <> ValueError w)
             | None => True
             end).
  { intros d.
    destruct (PaloAltoFW.translate_filters _ _ pol st)
      as [[pol' st'] [e|]] eqn:E; simpl; [|exact I].
    apply translate_filters_error in E. split; [exact E|].
    destruct E as [[(msg & ->) | [(n & ->) | [(n & -> & _)
                   | [(n & ty & -> & _) | (p & -> & _)]]]]
                   | [(ft & -> & _) | [-> | [(x & ->) | (x & ->)]]]];
      (split; [discriminate | intros w; repeat split; discriminate]). }
  assert (Hdate : (date_in_range current_date exp_info
                   /\ PaloAltoFW.exp_info_date current_date exp_info
                      = Ok (current_date + 7 * exp_info)%Z)
                  \/ (~ date_in_range current_date exp_info
                      /\ PaloAltoFW.exp_info_date current_date exp_info
                         = Raise OverflowError)).
  { unfold date_in_range, PaloAltoFW.exp_info_date,
      datetime.timedelta_weeks, datetime.date_add.
    destruct (Z.leb_spec (Z.abs (7 * exp_info)) 999999999) as [Ha|Ha];
      [|right; split; [lia | reflexivity]].
    cbv zeta.
    destruct (Z.ltb_spec 0 (current_date + 7 * exp_info)) as [Hl|Hl];
      [|right; split; [lia | reflexivity]].
    destruct (Z.leb_spec (current_date + 7 * exp_info) datetime._MAXORDINAL)
      as [Hu|Hu]; [left | right]; (split; [lia | reflexivity]). }
  unfold PaloAltoFW._TranslatePolicy.
  specialize (Hloop (current_date + 7 * exp_info)%Z).
  destruct Hdate as [[Hin ->] | [Hout ->]].
  - split; [|split].
    + split; [contradiction|]. intros He.
      rewrite He in Hloop. simpl in Hloop. now destruct Hloop as (_ & Hn & _).
    + now split.
    + destruct (snd (PaloAltoFW.translate_filters _ _ pol st)) as [e|];
        [|exact I].
      destruct Hloop as (He & Hn & Hw).
      split; [now right|]. split; [contradiction | exact Hw].
  - split; [|split].
    + now split.
    + split; [contradiction|]. intros He. exfalso.
      specialize (Hloop). rewrite <- He in Hloop. simpl in Hloop.
      now destruct Hloop as (_ & Hn & _).
    + simpl. split; [now left|]. split; [auto|].
      intros w. repeat split; discriminate.
Qed.

(** ** Filters of other platforms *)

(** X4. [_TranslatePolicy] reads the filters that name the platform
    [paloalto] and no other: the generator, the registry, the messages
    and the exception are those of the translation of these filters
    alone. *)
Theorem filters_of_other_platforms_are_ignored (cd ed : Z)
    (pol : policy.Policy IP) (st : PaloAltoFW.State IP) :
  snd (fst (PaloAltoFW.translate_filters cd ed pol st))
  = snd (fst (PaloAltoFW.translate_filters cd ed (for_platform pol) st))
  /\ snd (PaloAltoFW.translate_filters cd ed pol st)
     = snd (PaloAltoFW.translate_filters cd ed (for_platform pol) st).
Proof.
  revert st. induction pol as [|[header terms] rest IH]; intros st;
    [now split|].
  unfold for_platform. cbn [filter fst]. fold (for_platform rest).
  destruct (Py.str_in PaloAltoFW._PLATFORM (policy.platforms header)) eqn:Ep.
  - cbn [PaloAltoFW.translate_filters].
    destruct (PaloAltoFW.translate_header cd ed header terms st)
      as [[ts st1] [e1|]]; [now split|].
    specialize (IH st1).
    destruct (PaloAltoFW.translate_filters cd ed rest st1)
      as [[r1 s1] e1].
    destruct (PaloAltoFW.translate_filters cd ed (for_platform rest) st1)
      as [[r2 s2] e2].
    exact IH.
  - cbn [PaloAltoFW.translate_filters].
    assert (Hh : PaloAltoFW.translate_header cd ed header terms st
                 = (terms, st, None))
      by (unfold PaloAltoFW.translate_header; now rewrite Ep).
    rewrite Hh. specialize (IH st).
    destruct (PaloAltoFW.translate_filters cd ed rest st) as [[r1 s1] e1].
    exact IH.
Qed.

(** ** Skipped terms *)

Lemma is_skipped_false (t : policy.Term IP) (fz tz : string) :
  is_skipped t = false <-> PaloAltoFW.skipped t fz tz = None.
Proof.
  unfold is_skipped, PaloAltoFW.skipped.
  destruct (policy.stateless_reply t); simpl; [split; discriminate|].
  destruct (Py.str_in "established" _); simpl; [split; discriminate|].
  destruct (Py.str_in "tcp-established" _); simpl; split;
    try discriminate; reflexivity.
Qed.

Lemma is_skipped_true (t : policy.Term IP) (fz tz : string) :
  is_skipped t = true -> exists w, PaloAltoFW.skipped t fz tz = Some w.
Proof.
  intros Hs. destruct (PaloAltoFW.skipped t fz tz) as [w|] eqn:E;
    [now exists w|].
  apply is_skipped_false in E. congruence.
Qed.

Lemma translate_term_log_irrelevant (ft : string) (fo : list string)
    (cd ed : Z) (t : policy.Term IP)
    (st1 st2 : PaloAltoFW.loop_state IP) :
  same_but_log st1 st2 ->
  fst (fst (PaloAltoFW.translate_term ft fo cd ed t st1))
  = fst (fst (PaloAltoFW.translate_term ft fo cd ed t st2))
  /\ snd (PaloAltoFW.translate_term ft fo cd ed t st1)
     = snd (PaloAltoFW.translate_term ft fo cd ed t st2)
  /\ same_but_log
       (snd (fst (PaloAltoFW.translate_term ft fo cd ed t st1)))
       (snd (fst (PaloAltoFW.translate_term ft fo cd ed t st2))).
Proof.
  destruct st1 as [s1 l1 d1 n1], st2 as [s2 l2 d2 n2].
  unfold same_but_log. simpl. intros (<- & <- & <-).
  unfold PaloAltoFW.translate_term, PaloAltoFW.resolve_term.
  cbn [PaloAltoFW.self PaloAltoFW.log PaloAltoFW.term_dup_check
       PaloAltoFW.new_terms PaloAltoFW.add_log PaloAltoFW.add_dup_check
       PaloAltoFW.set_self PaloAltoFW.append_new_term].
  destruct (PaloAltoFW.skipped _ _ _); [now simpl|].
  destruct (FixTermLength _ _); [|now simpl].
  destruct (Py.str_in _ d1); [now simpl|].
  destruct (PaloAltoFW.expiration_check _ _ _ _ _) as [w [|]];
    [now simpl|].
  cbn [PaloAltoFW.self PaloAltoFW.log PaloAltoFW.term_dup_check
       PaloAltoFW.new_terms PaloAltoFW.add_log PaloAltoFW.add_dup_check
       PaloAltoFW.set_self PaloAltoFW.append_new_term].
  destruct (PaloAltoFW.address_family_gate _ _ _ _ _) as [[ex|] w'];
    [|now simpl].
  cbn [PaloAltoFW.self PaloAltoFW.log PaloAltoFW.term_dup_check
       PaloAltoFW.new_terms PaloAltoFW.add_log PaloAltoFW.add_dup_check
       PaloAltoFW.set_self PaloAltoFW.append_new_term].
  destruct (negb _ && negb _); [now simpl|].
  destruct (PaloAltoFW.icmp_versions _ _ _ _ _) as [[t1 s3] [e1|]];
    [now simpl|].
  destruct (PaloAltoFW.unsupported_protocol t1); now simpl.
Qed.

(** X5. Terms that are skipped as stateless replies or for the options
    [established] and [tcp-established] leave nothing but a warning:
    the loop over all the terms and the loop over the terms that are not
    skipped end in the same exception or none, with the same generator,
    the same set of checked names and the same new terms.  In
    particular the name of a skipped term is neither capped nor
    checked. *)
Theorem skipped_terms_leave_a_warning_only
    (ft : string) (fo : list string) (cd ed : Z)
    (terms : list (policy.Term IP)) (st : PaloAltoFW.loop_state IP) :
  let all := PaloAltoFW.translate_terms ft fo cd ed terms st in
  let kept :=
    PaloAltoFW.translate_terms ft fo cd ed
      (filter (fun t => negb (is_skipped t)) terms) st in
  snd all = snd kept /\ same_but_log (snd (fst all)) (snd (fst kept)).
Proof.
  assert (Hgen : forall terms st1 st2,
    same_but_log st1 st2 ->
    snd (PaloAltoFW.translate_terms ft fo cd ed terms st1)
    = snd (PaloAltoFW.translate_terms ft fo cd ed
             (filter (fun t => negb (is_skipped t)) terms) st2)
    /\ same_but_log
         (snd (fst (PaloAltoFW.translate_terms ft fo cd ed terms st1)))
         (snd (fst (PaloAltoFW.translate_terms ft fo cd ed
                      (filter (fun t => negb (is_skipped t)) terms) st2)))).
  { clear terms st. induction terms as [|t rest IH]; intros st1 st2 Hst;
      [now split|].
    cbn [filter]. destruct (is_skipped t) eqn:Es; simpl negb; cbv iota.
    - destruct (is_skipped_true t
                  (PaloAltoFW.from_zone (PaloAltoFW.self st1))
                  (PaloAltoFW.to_zone (PaloAltoFW.self st1)) Es) as [w Hw].
      cbn [PaloAltoFW.translate_terms].
      rewrite (translate_term_skipped _ _ _ _ _ _ _ Hw).
      assert (Hst' : same_but_log (PaloAltoFW.add_log [w] st1) st2)
        by exact Hst.
      specialize (IH _ _ Hst').
      destruct (PaloAltoFW.translate_terms ft fo cd ed rest
                  (PaloAltoFW.add_log [w] st1)) as [[r1 s1] e1].
      exact IH.
    - cbn [PaloAltoFW.translate_terms].
      destruct (translate_term_log_irrelevant ft fo cd ed t st1 st2 Hst)
        as (Ht & Ho & Hs).
      destruct (PaloAltoFW.translate_term ft fo cd ed t st1)
        as [[t1 s1] o1].
      destruct (PaloAltoFW.translate_term ft fo cd ed t st2)
        as [[t2 s2] o2].
      simpl in Ht, Ho, Hs. subst t2 o2.
      specialize (IH _ _ Hs).
      destruct o1 as [| |e1].
      + destruct (PaloAltoFW.translate_terms ft fo cd ed rest s1)
          as [[r1 x1] e1].
        destruct (PaloAltoFW.translate_terms ft fo cd ed
                    (filter (fun t => negb (is_skipped t)) rest) s2)
          as [[r2 x2] e2].
        exact IH.
      + destruct (PaloAltoFW.translate_terms ft fo cd ed rest s1)
          as [[r1 x1] e1].
        destruct (PaloAltoFW.translate_terms ft fo cd ed
                    (filter (fun t => negb (is_skipped t)) rest) s2)
          as [[r2 x2] e2].
        exact IH.
      + now split. }
  intros all kept. subst all kept. apply Hgen. now repeat split.
Qed.

(** ** The rules of a header *)

Lemma translate_terms_dup_origin (ft : string) (fo : list string)
    (cd ed : Z) (terms : list (policy.Term IP)) :
  forall st terms' st' e,
    PaloAltoFW.translate_terms ft fo cd ed terms st = (terms', st', e) ->
    forall n, In n (PaloAltoFW.term_dup_check st') ->
      In n (PaloAltoFW.term_dup_check st)
      \/ exists t, In t terms /\ not_skipped t /\ fixed_name t = Some n.
Proof.
  induction terms as [|t rest IH]; intros st terms' st' e.
  - simpl. intros [= _ <- _] n Hn. now left.
  - intros Hloop n Hn. apply translate_terms_cons in Hloop.
    destruct Hloop as (t1 & st1 & o & Et & Hcase).
    assert (H1 : In n (PaloAltoFW.term_dup_check st1) ->
                 In n (PaloAltoFW.term_dup_check st)
                 \/ exists t0, In t0 (t :: rest) /\ not_skipped t0
                               /\ fixed_name t0 = Some n).
    { intros Hin. apply translate_term_dup_check in Et.
      destruct Et as [Heq | (Hns & fixed & Hf & _ & Heq)].
      - left. now rewrite <- Heq.
      - rewrite Heq in Hin. apply in_app_or in Hin.
        destruct Hin as [Hin | [<- | []]]; [now left|].
        right. exists t. split; [now left | auto]. }
    destruct Hcase as [(e1 & _ & _ & _ & ->) | (_ & rest' & Hrest & _)];
      [now apply H1|].
    destruct (IH _ _ _ _ Hrest n Hn) as [Hin | (t0 & Ht0 & Hrest0)];
      [now apply H1|].
    right. exists t0. split; [now right | assumption].
Qed.

Lemma build_ruleset_NoDup (fz tz : string)
    (new_terms : list (Term.Term IP)) :
  forall ruleset m ruleset' m' e,
    PaloAltoFW.build_ruleset fz tz new_terms ruleset m = (ruleset', m', e)
    -> NoDup (Py.keys ruleset) -> NoDup (Py.keys ruleset').
Proof.
  induction new_terms as [|t rest IH]; intros ruleset m ruleset' m' e;
    simpl.
  - now intros [= <- _ _].
  - destruct (Rule.__init__ fz tz t m) as [m1 [o|e1]].
    + intros Hb Hnd. eapply IH; [exact Hb|].
      rewrite (keys_dict_set String.eqb).
      destruct (Py.dict_mem String.eqb _ ruleset) eqn:Em; [assumption|].
      apply dict_mem_false in Em.
      apply (dict_get_None _ String.eqb_eq) in Em.
      apply NoDup_app; [assumption | repeat constructor; now intros [] |].
      intros x Hx [<- | []]. contradiction.
    + now intros [= <- _ _].
Qed.

(** X21. The rules of a header that translates without exception: the
    generator gains one policy; its rules have pairwise different names,
    and each rule carries the name [FixTermLength] returns for a term of
    the header that is not skipped. *)
Theorem rules_are_named_after_terms (cd ed : Z) (header : policy.Header)
    (terms : list (policy.Term IP)) (st : PaloAltoFW.State IP) terms' st' :
  In PaloAltoFW._PLATFORM (policy.platforms header) ->
  PaloAltoFW.translate_header cd ed header terms st = (terms', st', None) ->
  exists ruleset,
    PaloAltoFW.pafw_policies (PaloAltoFW.fw st')
    = PaloAltoFW.pafw_policies (PaloAltoFW.fw st)
      ++ [(header, ruleset,
           policy.FilterOptions header PaloAltoFW._PLATFORM)]
    /\ NoDup (Py.keys ruleset)
    /\ length ruleset <= length terms
    /\ forall name,
         In name (Py.keys ruleset) ->
         exists t, In t terms /\ not_skipped t /\ fixed_name t = Some name.
Proof.
  intros Hp Hh.
  destruct (translate_header_Ok _ _ _ _ _ _ _ Hp Hh)
    as (lst & ruleset & m & Hloop & Hrules & ->).
  exists ruleset. simpl.
  rewrite (translate_terms_policies _ _ _ _ _ _ _ _ _ Hloop). simpl.
  split; [reflexivity|].
  assert (Hnd : NoDup (Py.keys ruleset)).
  { eapply build_ruleset_NoDup; [exact Hrules | constructor]. }
  assert (Hnames : forall name,
    In name (Py.keys ruleset) ->
    exists t, In t terms /\ not_skipped t /\ fixed_name t = Some name).
  { intros name Hk.
    destruct (build_ruleset_keys _ _ _ _ _ _ _ _ Hrules name Hk)
      as [[] | (nt & Hnt & ->)].
    destruct (translate_terms_new_names _ _ _ _ _ _ _ _ _ Hloop nt Hnt)
      as [[] | [Hin _]].
    destruct (translate_terms_dup_origin _ _ _ _ _ _ _ _ _ Hloop _ Hin)
      as [[] | Ht]. exact Ht. }
  split; [exact Hnd|]. split; [|exact Hnames].
  (* no more rules than checked names, no more names than terms *)
  assert (Hdup : NoDup (PaloAltoFW.term_dup_check lst)
                 /\ length (PaloAltoFW.term_dup_check lst) <= length terms).
  { clear Hrules Hnd Hnames Hh.
    assert (Hgen : forall terms st0 terms0 st1 e,
      PaloAltoFW.translate_terms
        (if Nat.ltb 4 (length (policy.FilterOptions header
                                  PaloAltoFW._PLATFORM))
         then nth 4 (policy.FilterOptions header PaloAltoFW._PLATFORM) ""
         else "inet")
        (policy.FilterOptions header PaloAltoFW._PLATFORM) cd ed terms st0
      = (terms0, st1, e) ->
      NoDup (PaloAltoFW.term_dup_check st0) ->
      NoDup (PaloAltoFW.term_dup_check st1)
      /\ length (PaloAltoFW.term_dup_check st1)
         <= length (PaloAltoFW.term_dup_check st0) + length terms).
    { clear. induction terms as [|t rest IH]; intros st0 terms0 st1 e.
      - simpl. intros [= _ <- _] Hnd. split; [assumption | lia].
      - intros Hl Hnd. apply translate_terms_cons in Hl.
        destruct Hl as (t1 & s1 & o & Et & Hcase).
        assert (H1 : NoDup (PaloAltoFW.term_dup_check s1)
                     /\ length (PaloAltoFW.term_dup_check s1)
                        <= length (PaloAltoFW.term_dup_check st0) + 1).
        { apply translate_term_dup_check in Et.
          destruct Et as [-> | (_ & fixed & _ & Hnew & ->)];
            [split; [assumption | lia]|].
          split.
          - apply NoDup_app; [assumption | repeat constructor; now intros []
                              |].
            intros x Hx [<- | []]. contradiction.
          - rewrite length_app. simpl. lia. }
        destruct H1 as [Hnd1 Hlen1].
        destruct Hcase as [(e1 & _ & _ & _ & ->) | (_ & rest' & Hrest & _)].
        + split; [assumption | simpl; lia].
        + destruct (IH _ _ _ _ Hrest Hnd1) as [Hnd2 Hlen2].
          split; [assumption | simpl; lia]. }
    destruct (Hgen _ _ _ _ _ Hloop) as [Ha Hb]; [constructor|].
    split; [exact Ha | simpl in Hb; lia]. }
  destruct Hdup as [Hdnd Hdlen].
  assert (Hincl : incl (Py.keys ruleset) (PaloAltoFW.term_dup_check lst)).
  { intros name Hk.
    destruct (build_ruleset_keys _ _ _ _ _ _ _ _ Hrules name Hk)
      as [[] | (nt & Hnt & ->)].
    destruct (translate_terms_new_names _ _ _ _ _ _ _ _ _ Hloop nt Hnt)
      as [[] | [Hin _]]. exact Hin. }
  pose proof (NoDup_incl_length Hnd Hincl) as Hlen.
  unfold Py.keys in Hlen. rewrite length_map in Hlen. lia.
Qed.

End Exceptions.

(** The header from trust to untrust with a term for SMTP and a term
    that is a stateless reply. *)
Lemma rules_are_named_after_terms_witness :
  exists ruleset,
    PaloAltoFW.pafw_policies
      (PaloAltoFW.fw
         (snd (fst (PaloAltoFW.translate_header 100 114
                      Example.trust_untrust
                      [Example.smtp "mail"] Example.start))))
    = [] ++ [(Example.trust_untrust, ruleset,
              policy.FilterOptions Example.trust_untrust
                PaloAltoFW._PLATFORM)]
    /\ NoDup (Py.keys ruleset)
    /\ length ruleset <= 1.
Proof.
  destruct (PaloAltoFW.translate_header 100 114 Example.trust_untrust
              [Example.smtp "mail"] Example.start)
    as [[terms' st'] e] eqn:E.
  assert (He : e = None) by (now vm_compute in E; injection E as _ _ <-).
  subst e.
  destruct (rules_are_named_after_terms 100 114 Example.trust_untrust
              [Example.smtp "mail"] Example.start terms' st')
    as (ruleset & Hp & Hnd & Hlen & _).
  - vm_compute. now left.
  - exact E.
  - exists ruleset. simpl fst. simpl snd.
    split; [exact Hp|]. split; [exact Hnd | exact Hlen].
Defined.

(** ** Rendering after a translation *)

Section Rendering.
Context {IP : Type} `{NetworkObject IP} `{Collaborators IP}.

Lemma evolves_built (s s' : PaloAltoFW.PaloAltoFW IP) :
  evolves s s' ->
  built (PaloAltoFW.addressbook s) -> built (PaloAltoFW.addressbook s').
Proof.
  intros Hev Hs. induction Hev as [|s1 fz tz _ IH|s1 zone a _ IH
                                   |s1 n e _ IH Hn He|s1 p _ IH];
    try assumption.
  simpl. now constructor.
Qed.

Lemma translate_terms_new_actions (ft : string) (fo : list string)
    (cd ed : Z) (terms : list (policy.Term IP)) :
  forall st terms' st' e,
    PaloAltoFW.translate_terms ft fo cd ed terms st = (terms', st', e) ->
    forall nt, In nt (PaloAltoFW.new_terms st') ->
      In nt (PaloAltoFW.new_terms st)
      \/ exists t, In t terms
                   /\ policy.action (Term.term nt) = policy.action t.
Proof.
  induction terms as [|t rest IH]; intros st terms' st' e Hloop nt Hnt.
  - injection Hloop as _ <- _. now left.
  - apply translate_terms_cons in Hloop.
    destruct Hloop as (t1 & st1 & o & Et & Hcase).
    assert (Hstep :
      In nt (PaloAltoFW.new_terms st1) ->
      In nt (PaloAltoFW.new_terms st)
      \/ exists t0, In t0 (t :: rest)
                    /\ policy.action (Term.term nt) = policy.action t0).
    { intros Hin1. apply translate_term_facts in Et.
      destruct Et as (Hsame & _ & _ & _ & Hem & Hne).
      destruct o as [| |e1].
      - destruct (Hem eq_refl) as (Hn & _). rewrite Hn in Hin1.
        apply in_app_or in Hin1. destruct Hin1 as [Hin1 | [<- | []]];
          [now left|].
        right. exists t. split; [now left|]. simpl.
        now destruct Hsame as (_ & _ & _ & _ & _ & _ & _ & Ha & _).
      - left. rewrite <- Hne; [assumption | discriminate].
      - left. rewrite <- Hne; [assumption | discriminate]. }
    destruct Hcase as [(e1 & _ & _ & _ & ->) | (_ & rest' & Hrest & _)];
      [now apply Hstep|].
    destruct (IH _ _ _ _ Hrest nt Hnt) as [Hin1 | (t0 & Ht0 & Ha)];
      [now apply Hstep|].
    right. exists t0. split; [now right | assumption].
Qed.

Lemma build_ruleset_render (fz tz : string)
    (new_terms : list (Term.Term IP)) :
  forall ruleset m ruleset' m' e,
    PaloAltoFW.build_ruleset fz tz new_terms ruleset m = (ruleset', m', e)
    ->
    (forall nt, In nt new_terms -> valid_action (Term.term nt)) ->
    (forall name o, In (name, o) ruleset ->
       exists lines, PaloAltoFW.action_lines o = Ok lines) ->
    forall name o, In (name, o) ruleset' ->
      exists lines, PaloAltoFW.action_lines o = Ok lines.
Proof.
  induction new_terms as [|t rest IH]; intros ruleset m ruleset' m' e;
    simpl.
  - intros [= <- _ _] _ Hrs. exact Hrs.
  - destruct (Rule.__init__ fz tz t m) as [m1 [o1|e1]] eqn:Er.
    + intros Hb Hv Hrs. eapply IH; [exact Hb | |].
      * intros nt Hnt. apply Hv. now right.
      * intros name o Hin. apply (dict_set_In _ String.eqb_eq) in Hin.
        destruct Hin as [[_ ->] | Hin]; [|now apply (Hrs name)].
        revert Er. unfold Rule.__init__.
        destruct (_ || _); [discriminate|]. intros Hm.
        apply ModifyOptions_fields in Hm.
        destruct Hm as (_ & _ & _ & _ & _ & _ & Ha).
        destruct (Hv t (or_introl eq_refl)) as (a & r & act & Hact & Hok).
        unfold PaloAltoFW.action_lines. rewrite Ha, Hact. simpl.
        rewrite Hok. eauto.
    + intros [= <- _ _] _ Hrs. exact Hrs.
Qed.

Lemma translate_header_render (cd ed : Z) (header : policy.Header)
    (terms : list (policy.Term IP)) (st : PaloAltoFW.State IP)
    terms' st' :
  PaloAltoFW.translate_header cd ed header terms st = (terms', st', None) ->
  (forall t, In t terms -> valid_action t) ->
  rules_render (PaloAltoFW.fw st) -> rules_render (PaloAltoFW.fw st').
Proof.
  intros Hh Hv Hr.
  destruct (Py.str_in PaloAltoFW._PLATFORM (policy.platforms header)) eqn:Ep.
  - apply str_in_In in Ep.
    destruct (translate_header_Ok _ _ _ _ _ _ _ Ep Hh)
      as (lst & ruleset & m & Hloop & Hrules & ->).
    intros hd rs fo name options Hin Hrule. simpl in Hin.
    rewrite (translate_terms_policies _ _ _ _ _ _ _ _ _ Hloop) in Hin.
    simpl in Hin. apply in_app_or in Hin.
    destruct Hin as [Hin | [[= <- <- <-] | []]];
      [now apply (Hr hd rs fo name)|].
    eapply (build_ruleset_render _ _ _ _ _ _ _ _ Hrules);
      [| now intros n0 o0 [] | exact Hrule].
    intros nt Hnt.
    destruct (translate_terms_new_actions _ _ _ _ _ _ _ _ _ Hloop nt Hnt)
      as [[] | (t & Ht & Ha)].
    destruct (Hv t Ht) as (a & r & act & Hact & Hok).
    exists a, r, act. split; [congruence | assumption].
  - revert Hh. unfold PaloAltoFW.translate_header. rewrite Ep. simpl.
    now intros [= _ <-].
Qed.

Lemma translate_filters_render (cd ed : Z) (filters : policy.Policy IP) :
  forall st filters' st',
    PaloAltoFW.translate_filters cd ed filters st = (filters', st', None) ->
    (forall header terms t,
        In (header, terms) filters -> In t terms -> valid_action t) ->
    rules_render (PaloAltoFW.fw st) -> rules_render (PaloAltoFW.fw st').
Proof.
  induction filters as [|[header terms] rest IH]; intros st filters' st';
    simpl.
  - now intros [= _ <-].
  - destruct (PaloAltoFW.translate_header cd ed header terms st)
      as [[ts st1] [e1|]] eqn:Eh; [discriminate|].
    destruct (PaloAltoFW.translate_filters cd ed rest st1)
      as [[rest' st2] e2] eqn:Ef.
    intros [= _ <- ->] Hv Hr.
    eapply IH; [exact Ef | |].
    + intros hd ts0 t Hin. apply (Hv hd ts0 t). now right.
    + eapply translate_header_render; [exact Eh | | exact Hr].
      intros t. apply (Hv header terms t). now left.
Qed.

Lemma concat_results_Ok (l : list (result (list string))) :
  (forall r, In r l -> exists x, r = Ok x) ->
  exists y, PaloAltoFW.concat_results l = Ok y.
Proof.
  induction l as [|r l IH]; intros Hl; simpl; [eauto|].
  destruct (Hl r (or_introl eq_refl)) as [x ->].
  destruct IH as [y ->]; [|eauto].
  intros r' Hr'. apply Hl. now right.
Qed.

Lemma rules_Ok (s : PaloAltoFW.PaloAltoFW IP) :
  rules_render s -> exists lines, PaloAltoFW.rules s = Ok lines.
Proof.
  intros Hr. unfold PaloAltoFW.rules.
  destruct (concat_results_Ok
              (flat_map
                 (fun '(_, pa_rules, _) =>
                    map (fun '(name, options) =>
                           PaloAltoFW.rule_entry name options)
                      (pa_rules : PaloAltoFW.ruleset_t))
                 (PaloAltoFW.pafw_policies s))) as [y ->]; [|eauto].
  intros r Hin. apply in_flat_map in Hin.
  destruct Hin as ([[hd rs] fo] & Hp & Hin).
  apply in_map_iff in Hin. destruct Hin as ([name options] & <- & Hin).
  destruct (Hr hd rs fo name options Hp Hin) as [lines Hl].
  unfold PaloAltoFW.rule_entry. rewrite Hl. eauto.
Qed.

Lemma service_Ok (m : Service.service_map) :
  registered m -> exists lines, PaloAltoFW.service m = Ok lines.
Proof.
  intros Hr. destruct (registered_invariants m Hr) as (_ & _ & Hports).
  unfold PaloAltoFW.service. destruct m as [|kv m]; [eauto|].
  destruct (service_entries_count (kv :: m) "" Hports) as (block & -> & _).
  eauto.
Qed.

(** X13. Rendering after a translation.  When a fresh generator
    translates a policy without exception, the registry being one the
    generator built before, and every term of the policy has an action
    of [Term.ACTIONS], then [__str__] returns the document: no lookup of
    lines 749-934 fails.  The address book is one built by
    [_BuildAddressBook], so every name has the ordinal
    [_SortAddressBookNumCheck] reads; the registry still satisfies its
    invariant, so every service has ports; and every rule has an action
    of the table. *)
Theorem rendering_succeeds_after_translation
    (pol : policy.Policy IP) (exp_info current_date : Z)
    (m : Service.service_map) pol' st' :
  registered m ->
  (forall header terms t,
      In (header, terms) pol -> In t terms -> valid_action t) ->
  PaloAltoFW.__init__ pol exp_info current_date m = (pol', st', None) ->
  built (PaloAltoFW.addressbook (PaloAltoFW.fw st'))
  /\ registered (PaloAltoFW.service_map st')
  /\ rules_render (PaloAltoFW.fw st')
  /\ exists document,
       PaloAltoFW.__str__ (PaloAltoFW.fw st') (PaloAltoFW.service_map st')
       = Ok document.
Proof.
  intros Hm Hv Hinit.
  unfold PaloAltoFW.__init__ in Hinit.
  match type of Hinit with
  | PaloAltoFW._TranslatePolicy _ _ _ ?s0 = _ =>
      destruct (TranslatePolicy_cases pol exp_info current_date s0)
        as [(d & _ & Hd) | (_ & Hd)]; rewrite Hd in Hinit; [|discriminate]
  end.
  assert (Hbuilt : built (PaloAltoFW.addressbook (PaloAltoFW.fw st'))).
  { eapply evolves_built.
    - eapply translate_filters_evolves; [exact Hinit | constructor].
    - constructor. }
  assert (Hreg : registered (PaloAltoFW.service_map st')).
  { apply translate_filters_registered in Hinit. simpl in Hinit.
    unfold registered in *. eapply registered_after_trans; eassumption. }
  assert (Hrules : rules_render (PaloAltoFW.fw st')).
  { eapply translate_filters_render; [exact Hinit | exact Hv |].
    intros hd rs fo name options []. }
  split; [exact Hbuilt|]. split; [exact Hreg|]. split; [exact Hrules|].
  unfold PaloAltoFW.__str__, PaloAltoFW.sections.
  destruct (address_entries_Ok (PaloAltoFW.fw st') (built_ok _ Hbuilt))
    as (addresses & -> & _).
  destruct (service_Ok _ Hreg) as [services ->].
  destruct (rules_Ok _ Hrules) as [rule_lines ->].
  eauto.
Qed.

End Rendering.

(** The policy of one header with one term for SMTP. *)
Lemma rendering_succeeds_witness :
  exists document,
    PaloAltoFW.__str__
      (PaloAltoFW.fw
         (snd (fst (PaloAltoFW.__init__
                      [(Example.trust_untrust, [Example.smtp "mail"])]
                      2 100 []))))
      (PaloAltoFW.service_map
         (snd (fst (PaloAltoFW.__init__
                      [(Example.trust_untrust, [Example.smtp "mail"])]
                      2 100 []))))
    = Ok document.
Proof.
  destruct (PaloAltoFW.__init__
              [(Example.trust_untrust, [Example.smtp "mail"])] 2 100 [])
    as [[pol' st'] e] eqn:E.
  assert (He : e = None) by (now vm_compute in E; injection E as _ _ <-).
  subst e.
  destruct (rendering_succeeds_after_translation
              [(Example.trust_untrust, [Example.smtp "mail"])] 2 100 []
              pol' st') as (_ & _ & _ & Hdoc).
  - constructor.
  - intros header terms t [[= <- <-] | []] [<- | []].
    exists "accept", [], "allow". split; reflexivity.
  - exact E.
  - exact Hdoc.
Defined.

(** ** The services of a rule *)

Lemma service_options_names (ports : list string) (term_name : string)
    (protocols : list string) :
  ports <> [] ->
  forall acc m m' names,
    Rule.service_options ports term_name protocols acc m = (m', Ok names) ->
    exists added,
      names = acc ++ added
      /\ length added = length protocols
      /\ forall i p,
           nth_error protocols i = Some p ->
           exists s,
             nth_error added i = Some s
             /\ Service.lookup (ports, p) m' = Some s.
Proof.
  intros Hp. induction protocols as [|p rest IH]; intros acc m m' names;
    simpl.
  - intros [= <- <-]. exists []. rewrite app_nil_r.
    repeat split. intros i p Hi. now destruct i.
  - destruct (Rule.service_for ports term_name p m) as [m1 [n|e1]] eqn:Es;
      [|discriminate].
    intros Hrest.
    pose proof (service_options_registered _ _ _ Hp _ _ _ _ Hrest) as Hreg.
    apply IH in Hrest. destruct Hrest as (added & -> & Hlen & Hnth).
    exists (n :: added). rewrite <- app_assoc. simpl.
    split; [reflexivity|]. split; [now rewrite Hlen|].
    intros i q Hi. destruct i as [|i]; simpl in Hi |- *.
    + injection Hi as <-. exists n. split; [reflexivity|].
      apply service_for_Ok in Es. destruct Es as [Hl _].
      now apply (registered_after_lookup m1 m').
    + now apply Hnth.
Qed.

(** X17. The services of a rule (lines 236-254 and 873-885).  A term
    without destination port has no service and registers none.  A term
    with destination ports has one service for each of its protocols, in
    their order, each registered under the tuple of its port strings and
    the protocol; so a term with ports and no protocol has no service
    either.  A rule without service is rendered with the service [any]
    when it has no application, and [application-default] otherwise. *)
Theorem services_of_a_rule {IP : Type} `{NetworkObject IP}
    (fz tz : list string) (terms : Term.Term IP)
    (m m' : Service.service_map) (options : Rule.options) :
  Rule.ModifyOptions fz tz terms m = (m', Ok options) ->
  let term := Term.term terms in
  let ports := Rule.port_strings (policy.destination_port term) in
  (policy.destination_port term = [] ->
   Rule.service options = [] /\ m' = m)
  /\ (policy.destination_port term <> [] ->
      length (Rule.service options) = length (policy.protocol term)
      /\ forall i p,
           nth_error (policy.protocol term) i = Some p ->
           exists s,
             nth_error (Rule.service options) i = Some s
             /\ Service.lookup (ports, p) m' = Some s)
  /\ (Rule.service options = [] ->
      PaloAltoFW.service_members options
      = if PaloAltoFW.is_empty (Rule.application options)
        then ["any"] else ["application-default"])
  /\ (Rule.service options <> [] ->
      PaloAltoFW.service_members options = Rule.service options).
Proof.
  intros Hm. cbv zeta. revert Hm. unfold Rule.ModifyOptions. intros Hm.
  destruct (policy.destination_port (Term.term terms)) as [|d ds] eqn:Ed.
  - injection Hm as <- <-. simpl.
    split; [now split|]. split; [now intros []|].
    unfold PaloAltoFW.service_members. simpl.
    split; [|now intros []].
    intros _. now destruct (Rule.protocol_applications _ _).
  - destruct (Rule.service_options _ _ _ _ _) as [m1 [names|e1]] eqn:Es;
      [|discriminate].
    injection Hm as <- <-. simpl.
    apply service_options_names in Es;
      [|now apply port_strings_not_empty].
    destruct Es as (added & -> & Hlen & Hnth). simpl.
    split; [discriminate|]. split; [intros _; now split|].
    unfold PaloAltoFW.service_members. simpl. split.
    + intros ->. now destruct (Rule.protocol_applications _ _).
    + intros Hne. now destruct added.
Qed.

(** A term for the ports 25 and 8000 to 8080 over TCP. *)
Lemma services_of_a_rule_witness :
  exists s,
    nth_error
      ["service-mail-tcp"] 0 = Some s
    /\ Service.lookup (["25"; "8000-8080"], "tcp")
         [((["25"; "8000-8080"], "tcp"), "service-mail-tcp")]
       = Some s.
Proof.
  destruct (Rule.ModifyOptions ["trust"] ["untrust"]
              (Term.__init__
                 (Example.term "mail" [] [] ["tcp"]
                    [(25, 25); (8000, 8080)]%Z [] [])
                 "inet" ["from-zone"; "trust"; "to-zone"; "untrust"]) [])
    as [m' [options|e]] eqn:E; [|discriminate E].
  destruct (services_of_a_rule _ _ _ _ _ _ E) as (_ & Hports & _).
  destruct Hports as [_ Hnth]; [discriminate|].
  vm_compute in E. injection E as <- <-.
  exact (Hnth 0 "tcp" eq_refl).
Defined.
